(** * nestjs-trpc: the schema generator, its path utilities and the router host

    A shallow embedding of
    - [lib/app-router.host.ts]            (class [AppRouterHost]),
    - [lib/utils/path-resolution.util.ts] ([findTsConfigFile],
      [resolvePathWithAliases]),
    - [lib/generators/trpc.generator.ts]  ([generateSchemaFile],
      [injectFilesContent] in its regular-expression and its AST variant,
      [generateHelpersFile]),
    - the panel controllers of the example applications
      ([TrpcPanelController], in its two variants),
    - the script that runs the tests for lint-staged.

    JavaScript strings are lists of code units; the embedding covers the code
    units 0..255, written as [ascii].  The POSIX flavour of Node's [path]
    module and the part of ts-morph's [SourceFile] that the generator uses
    are embedded next to the code that calls them.  Of ts-morph the
    embedding has the import declarations of a file, with [addNamedImport]
    and its throw on a namespace import, and [addStatements]; the parser
    that finds the import declarations inside a text handed to
    [addStatements] is a parameter.

    Part I holds the embedding, Part II its properties. *)

From Stdlib Require Import Ascii String List Arith Lia Bool.
From stdpp Require Import base gmap strings list.
Import ListNotations.

Local Open Scope list_scope.
Local Open Scope char_scope.

(** * Part I: the embedding *)


(** ** JavaScript strings *)

Abbreviation jsstring := (list ascii).

(** A literal: [str "abc"] is the JavaScript string 'abc'. *)
Definition str (s : string) : jsstring := list_ascii_of_string s.

(** A thrown JavaScript [Error], with its [name] and its [message]. *)
Record Error : Type := mkErrorNamed {
  errorName : jsstring;
  message : jsstring
}.

(** [new Error(message)] *)
Definition mkError (message : jsstring) : Error :=
  mkErrorNamed (str "Error") message.

(** A line feed and a double quote, for string literals. *)
Definition lf : string := String "010" EmptyString.
Definition dq : string := String "034" EmptyString.

(** ** AppRouterHost *)

Module AppRouterHost.
Section Host.
(** [AnyRouter] of @trpc/server: an object type, so every value of it is
    truthy and none of them is [undefined]. *)
Context {AnyRouter : Type}.

(** [private _appRouter: AnyRouter | undefined] *)
Record t : Type := mk { _appRouter : option AnyRouter }.

(** A freshly constructed host: the field has no initialiser. *)
Definition new : t := mk None.

(** [set appRouter(schemaRef)] *)
Definition set_appRouter (schemaRef : AnyRouter) (_ : t) : t :=
  mk (Some schemaRef).

(** [isRouterReady()] : [this._appRouter !== undefined] *)
Definition isRouterReady (this : t) : bool :=
  match _appRouter this with
  | Some _ => true
  | None => false
  end.

Definition not_created : Error :=
  mkError
    (str ("TRPC appRouter has not yet been created. "
          ++ "Make sure to call the " ++ dq ++ "AppRouterHost#appRouter" ++ dq
          ++ " getter when the application is already initialized (after the "
          ++ dq ++ "onModuleInit" ++ dq ++ " hook triggered by either "
          ++ dq ++ "app.listen()" ++ dq ++ " or " ++ dq ++ "app.init()" ++ dq
          ++ " method). "
          ++ "Alternatively, use AppRouterHost#isRouterReady() to check if "
          ++ "the router is available before accessing it.")).

(** [get appRouter()] : throws when [!this._appRouter]. *)
Definition appRouter (this : t) : Error + AnyRouter :=
  match _appRouter this with
  | None => inl not_created
  | Some r => inr r
  end.

(** [getRouterSafe()] : the field as it is; [None] is [undefined]. *)
Definition getRouterSafe (this : t) : option AnyRouter := _appRouter this.

(** The state of a host after the assignments [rs], oldest first. *)
Definition after (rs : list AnyRouter) : t :=
  fold_left (fun h r => set_appRouter r h) rs new.

Definition throws {A} (r : Error + A) : Prop := exists e, r = inl e.
End Host.
End AppRouterHost.

(** ** Text primitives of JavaScript used by the code *)

Definition ascii_eqb (a b : ascii) : bool := Ascii.eqb a b.

(** [s.startsWith(p)] *)
Fixpoint startsWith (s p : jsstring) {struct p} : bool :=
  match p, s with
  | [], _ => true
  | _ :: _, [] => false
  | b :: p', a :: s' => ascii_eqb a b && startsWith s' p'
  end.

(** [s.slice(n)] for [0 <= n]. *)
Definition slice_from (n : nat) (s : jsstring) : jsstring := drop n s.

(** [s.split(c)] for a one-character separator: never the empty array. *)
Fixpoint split (c : ascii) (s : jsstring) : list jsstring :=
  match s with
  | [] => [[]]
  | x :: s' =>
      if ascii_eqb x c then [] :: split c s'
      else match split c s' with
           | h :: t => (x :: h) :: t
           | [] => [[x]]
           end
  end.

(** [parts.join(sep)] *)
Fixpoint join_with (sep : jsstring) (parts : list jsstring) : jsstring :=
  match parts with
  | [] => []
  | [p] => p
  | p :: ps => p ++ sep ++ join_with sep ps
  end.

(** The class [\s] of a regular expression, and the characters [trim]
    strips, among the code units 0..255: TAB, LF, VT, FF, CR, SP, NBSP. *)
Definition is_space (c : ascii) : bool :=
  match c with
  | "009" | "010" | "011" | "012" | "013" | " " | "160" => true
  | _ => false
  end.

(** Line terminators among the code units 0..255: what [^] of a multi-line
    regular expression looks for behind it. *)
Definition is_line_terminator (c : ascii) : bool :=
  match c with
  | "010" | "013" => true
  | _ => false
  end.

Fixpoint trimStart (s : jsstring) : jsstring :=
  match s with
  | c :: s' => if is_space c then trimStart s' else s
  | [] => []
  end.

(** The rest of [s] behind its longest prefix of characters in [f]. *)
Fixpoint dropWhile (f : ascii -> bool) (s : jsstring) : jsstring :=
  match s with
  | c :: s' => if f c then dropWhile f s' else s
  | [] => []
  end.

(** The longest prefix of [s] of characters in [f]. *)
Fixpoint takeWhile (f : ascii -> bool) (s : jsstring) : jsstring :=
  match s with
  | c :: s' => if f c then c :: takeWhile f s' else []
  | [] => []
  end.

(** [s.trim()] *)
Definition trim (s : jsstring) : jsstring :=
  rev (trimStart (rev (trimStart s))).

(** [s.replace(/\/\*$/, '/')]: the pattern is tried at every position
    from the left, and matches where a slash and a star are the last two
    characters. *)
Fixpoint replace_slash_star (s : jsstring) : jsstring :=
  match s with
  | ["/"; "*"] => ["/"]
  | c :: s' => c :: replace_slash_star s'
  | [] => []
  end.

(** [s.endsWith(suffix)] *)
Definition endsWith (s suffix : jsstring) : bool :=
  startsWith (rev s) (rev suffix).

(** In the specification's words: the pattern with a trailing "/*" replaced
    by "/". *)
Definition trailingStarReplaced (pattern : jsstring) : jsstring :=
  if endsWith pattern (str "/*")
  then take (length pattern - 2) pattern ++ ["/"]
  else pattern.

(** ** Node's [path] module, POSIX flavour *)

Module NodePath.

Definition isSlash (c : ascii) : bool := ascii_eqb c "/".

(** [path.isAbsolute(p)] *)
Definition isAbsolute (p : jsstring) : bool :=
  match p with
  | c :: _ => isSlash c
  | [] => false
  end.

(** [path.dirname(p)].  Node scans [p] from its end down to index 1: it
    skips the trailing slashes, then the last segment, and cuts at the
    slash in front of that segment ([end]); without such a slash the answer
    is "/" or "."; a cut at index 1 of a rooted path gives "//".  Here the
    scan runs over the reversal of [p] without its first character. *)
Definition dirname (p : jsstring) : jsstring :=
  match p with
  | [] => ["."]
  | c0 :: rest =>
      let r1 := dropWhile isSlash (rev rest) in
      let r2 := dropWhile (fun c => negb (isSlash c)) r1 in
      match r1, r2 with
      | [], _ | _, [] => if isSlash c0 then ["/"] else ["."]
      | _ :: _, _ :: r3 =>
          if isSlash c0 && Nat.eqb (length r3) 0 then ["/"; "/"]
          else c0 :: rev r3
      end
  end.

(** [path.parse(p).root] *)
Definition parse_root (p : jsstring) : jsstring :=
  if isAbsolute p then ["/"] else [].

Definition dotdot : jsstring := ["."; "."].

Definition is_dotdot (seg : jsstring) : bool :=
  match seg with
  | ["."; "."] => true
  | _ => false
  end.

(** One segment of [normalizeString]; [acc] holds the segments kept so
    far, the last one first. *)
Definition normalizeSegment (allowAboveRoot : bool)
    (acc : list jsstring) (seg : jsstring) : list jsstring :=
  match seg with
  | [] | ["."] => acc
  | ["."; "."] =>
      match acc with
      | lastSeg :: acc' =>
          if is_dotdot lastSeg
          then (if allowAboveRoot then dotdot :: acc else acc)
          else acc'
      | [] => if allowAboveRoot then [dotdot] else []
      end
  | _ => seg :: acc
  end.

(** [normalizeString(path, allowAboveRoot, '/', isPosixPathSeparator)] *)
Definition normalizeString (path : jsstring) (allowAboveRoot : bool)
    : jsstring :=
  join_with ["/"]
    (rev (fold_left (normalizeSegment allowAboveRoot) (split "/" path) [])).

Definition endsWithSlash (p : jsstring) : bool :=
  match rev p with
  | c :: _ => isSlash c
  | [] => false
  end.

(** [path.normalize(p)] *)
Definition normalize (p : jsstring) : jsstring :=
  match p with
  | [] => ["."]
  | _ =>
      let isAbs := isAbsolute p in
      let trailingSeparator := endsWithSlash p in
      let q := normalizeString p (negb isAbs) in
      match q with
      | [] =>
          if isAbs then ["/"]
          else if trailingSeparator then ["."; "/"] else ["."]
      | _ =>
          let q' := if trailingSeparator then q ++ ["/"] else q in
          if isAbs then "/" :: q' else q'
      end
  end.

(** [path.join(...args)] *)
Definition join (args : list jsstring) : jsstring :=
  match filter (fun a => negb (Nat.eqb (length a) 0)) args with
  | [] => ["."]
  | parts => normalize (join_with ["/"] parts)
  end.

(** The loop of [path.resolve], over the arguments from the last to the
    first and then [process.cwd()], until an absolute one was prepended. *)
Fixpoint resolveLoop (cwd : jsstring) (revArgs : list jsstring)
    (resolvedPath : jsstring) : jsstring * bool :=
  match revArgs with
  | [] =>
      match cwd with
      | [] => (resolvedPath, false)
      | _ => (cwd ++ "/" :: resolvedPath, isAbsolute cwd)
      end
  | p :: more =>
      match p with
      | [] => resolveLoop cwd more resolvedPath
      | _ =>
          let resolvedPath' := p ++ "/" :: resolvedPath in
          if isAbsolute p then (resolvedPath', true)
          else resolveLoop cwd more resolvedPath'
      end
  end.

(** [path.resolve(...args)] in a process whose working directory is [cwd]. *)
Definition resolve (cwd : jsstring) (args : list jsstring) : jsstring :=
  let '(resolvedPath, resolvedAbsolute) := resolveLoop cwd (rev args) [] in
  let q := normalizeString resolvedPath (negb resolvedAbsolute) in
  if resolvedAbsolute then "/" :: q
  else match q with
       | [] => ["."]
       | _ => q
       end.

End NodePath.

(** ** lib/utils/path-resolution.util.ts *)

Module PathResolution.

Definition tsconfig_json : jsstring := str "tsconfig.json".

Section FindTsConfigFile.
(** [fs.existsSync]: the file system the search runs against.  It
    answers [false] rather than throw, so the [catch] around the call in
    the source has nothing to catch. *)
Variable existsSync : jsstring -> bool.

(** The [while (currentDir !== root)] loop.  [None] says that [fuel]
    iterations did not finish it; [Some r] is the returned value [r],
    with [None] for JavaScript's [null]. *)
Fixpoint findLoop (root : jsstring) (fuel : nat) (currentDir : jsstring)
    : option (option jsstring) :=
  match fuel with
  | 0 => None
  | S fuel' =>
      if decide (currentDir = root) then Some None
      else
        let tsConfigPath := NodePath.join [currentDir; tsconfig_json] in
        if existsSync tsConfigPath then Some (Some tsConfigPath)
        else findLoop root fuel' (NodePath.dirname currentDir)
  end.

(** [findTsConfigFile(startPath, logger)], logging left out. *)
Definition findTsConfigFile (fuel : nat) (startPath : jsstring)
    : option (option jsstring) :=
  let currentDir := NodePath.dirname startPath in
  let root := NodePath.parse_root currentDir in
  findLoop root fuel currentDir.
End FindTsConfigFile.

(** A file system without any tsconfig.json. *)
Definition noTsConfig : jsstring -> bool := fun _ => false.

Section ResolvePathWithAliases.
(** [process.cwd()], which [path.resolve] falls back on. *)
Variable cwd : jsstring.

(** The [for (const [alias, targets] of Object.entries(pathAliases))]
    loop over the entries in enumeration order; [Some] is a [return]
    from inside the loop. *)
Fixpoint aliasLoop (filePath basePath : jsstring)
    (entries : list (jsstring * list jsstring)) : option jsstring :=
  match entries with
  | [] => None
  | (alias, targets) :: more =>
      match targets with
      | [] => aliasLoop filePath basePath more
      | targetPattern :: _ =>
          let aliasPrefix := replace_slash_star alias in
          if startsWith filePath aliasPrefix then
            let pathSuffix := slice_from (length aliasPrefix) filePath in
            let targetPrefix := replace_slash_star targetPattern in
            let relativePath := targetPrefix ++ pathSuffix in
            Some (NodePath.resolve cwd [basePath; relativePath])
          else aliasLoop filePath basePath more
      end
  end.

(** [resolvePathWithAliases(filePath, pathAliases, basePath, logger)];
    [None] is the [null] of the [catch] branch. *)
Definition resolvePathWithAliases (filePath : jsstring)
    (pathAliases : list (jsstring * list jsstring)) (basePath : jsstring)
    : option jsstring :=
  if NodePath.isAbsolute filePath then Some filePath
  else
    match aliasLoop filePath basePath pathAliases with
    | Some fullPath => Some fullPath
    | None =>
        if startsWith filePath (str "./") || startsWith filePath (str "../")
        then Some (NodePath.resolve cwd [basePath; filePath])
        else Some (NodePath.resolve cwd [basePath; filePath])
    end.

(** The specification's reading of the function: the first entry, in enumeration
    order, with a target and whose pattern is a prefix of the path. *)
Definition aliasMatches (p : jsstring)
    (entry : jsstring * list jsstring) : bool :=
  negb (Nat.eqb (length (snd entry)) 0)
  && startsWith p (trailingStarReplaced (fst entry)).

Definition resolveSpec (p : jsstring)
    (pathAliases : list (jsstring * list jsstring)) (basePath : jsstring)
    : option jsstring :=
  if NodePath.isAbsolute p then Some p
  else
    match List.find (aliasMatches p) pathAliases with
    | Some (alias, targets) =>
        let t := trailingStarReplaced (List.hd [] targets) in
        let s := drop (length (trailingStarReplaced alias)) p in
        Some (NodePath.resolve cwd [basePath; t ++ s])
    | None => Some (NodePath.resolve cwd [basePath; p])
    end.
End ResolvePathWithAliases.

(** The directories the search visits from [d] upwards, the root excluded. *)
Fixpoint dirsBelowRoot (fuel : nat) (d : jsstring) : list jsstring :=
  match fuel with
  | 0 => []
  | S fuel' =>
      if decide (d = ["/"]) then []
      else d :: dirsBelowRoot fuel' (NodePath.dirname d)
  end.

(** Whether the directory [d] holds a tsconfig.json. *)
Definition hasTsConfig (existsSync : jsstring -> bool) (d : jsstring) : bool :=
  existsSync (NodePath.join [d; tsconfig_json]).

End PathResolution.

(** ** Loops inside a [try] block *)

(** [xs.forEach(f)] for an [f] that may throw, on a state that the calls
    change in place: a throw ends the loop, and what was done before it
    stays done. *)
Fixpoint forEachTry {S A : Type} (f : S -> A -> S * option Error)
    (xs : list A) (s : S) : S * option Error :=
  match xs with
  | [] => (s, None)
  | x :: more =>
      match f s x with
      | (s', None) => forEachTry f more s'
      | thrown => thrown
      end
  end.

(** ** The part of ts-morph's [SourceFile] the generator uses *)

Module TsMorph.

(** An import declaration, by what the generator reads of it and what
    [addNamedImport] depends on: [getModuleSpecifierValue()], the default
    import and the namespace import if it has one, and the texts of its
    import specifiers (the named imports between the braces), in order.
    [import x, { a, b as c } from 'm'] has the default import [x] and the
    specifiers [a] and [b as c]; [import * as ns from 'm'] has the
    namespace import [ns]; [import 'm'] has none of them. *)
Record ImportDeclaration : Type := mkImportDeclaration {
  moduleSpecifier : jsstring;
  defaultImport : option jsstring;
  namespaceImport : option jsstring;
  namedImports : list jsstring
}.

(** [import { n1, n2 } from 'm'] *)
Definition mkImport (m : jsstring) (names : list jsstring)
    : ImportDeclaration :=
  mkImportDeclaration m None None names.

(** The words of a text: its runs of characters that are no white space.
    [cur] holds the word being read, its last character first. *)
Fixpoint wordsFrom (cur : jsstring) (s : jsstring) : list jsstring :=
  match s with
  | [] =>
      match cur with
      | [] => []
      | _ => [rev cur]
      end
  | c :: s' =>
      if is_space c then
        match cur with
        | [] => wordsFrom [] s'
        | _ => rev cur :: wordsFrom [] s'
        end
      else wordsFrom (c :: cur) s'
  end.

Definition words (s : jsstring) : list jsstring := wordsFrom [] s.

(** [getName()] of the import specifier written as [text]: the name under
    which the module exports what is imported.  That is [n] for the texts
    [n] and [n as a], and also for [type n] and [type n as a], where the
    first word is the modifier of TypeScript 4.5; in [type as a] the word
    [type] is the name.  Other texts are no import specifiers. *)
Definition specifierName (text : jsstring) : jsstring :=
  match words text with
  | [] => []
  | [w] => w
  | w1 :: w2 :: more =>
      if bool_decide (w1 = str "type")
         && (Nat.eqb (length more) 0 || Nat.eqb (length more) 2)
      then w2 else w1
  end.

(** [decl.getNamedImports().map((namedImport) => namedImport.getName())] *)
Definition importedNames (d : ImportDeclaration) : list jsstring :=
  map specifierName (namedImports d).

(** A source file, by its import declarations, [getImportDeclarations()],
    in the order of the file, and by the texts that were handed to
    [addStatements], in order.  ts-morph puts a new import declaration
    behind the last import declaration of the file and appends statements
    at the end.  An import statement inside a text handed to
    [addStatements] is an import declaration of the file from then on and
    is listed with the others, where [addNamedImport] can add to it; the
    text is kept as it was handed over. *)
Record SourceFile : Type := mkSourceFile {
  importDeclarations : list ImportDeclaration;
  statements : list jsstring
}.

Definition emptySourceFile : SourceFile := mkSourceFile [] [].

(** [sf.addImportDeclaration({ moduleSpecifier, namedImports })] *)
Definition addImportDeclaration (m : jsstring) (names : list jsstring)
    (sf : SourceFile) : SourceFile :=
  mkSourceFile (importDeclarations sf ++ [mkImport m names]) (statements sf).

(** The error of [addNamedImport] on a namespace import. *)
Definition namespaceImportExists : Error :=
  mkError
    (str ("Cannot add a named import to an import declaration "
          ++ "that has a namespace import.")).

(** [decl.addNamedImport(n)]: the specifier goes behind the named imports
    the declaration has; a declaration without named imports gets its
    braces, unless it has a namespace import, which excludes them. *)
Definition withNamedImport (n : jsstring) (d : ImportDeclaration)
    : ImportDeclaration :=
  mkImportDeclaration (moduleSpecifier d) (defaultImport d)
    (namespaceImport d) (namedImports d ++ [n]).

Definition addNamedImport (n : jsstring) (d : ImportDeclaration)
    : Error + ImportDeclaration :=
  match namedImports d, namespaceImport d with
  | [], Some _ => inl namespaceImportExists
  | _, _ => inr (withNamedImport n d)
  end.

(** [sf.getImportDeclaration(pred)], and [addNamedImport(n)] on it if
    there is one: the first declaration that [pred] holds of. *)
Fixpoint addNamedImportFirst (pred : ImportDeclaration -> bool)
    (n : jsstring) (decls : list ImportDeclaration)
    : Error + list ImportDeclaration :=
  match decls with
  | [] => inr []
  | d :: more =>
      if pred d then
        match addNamedImport n d with
        | inr d' => inr (d' :: more)
        | inl e => inl e
        end
      else
        match addNamedImportFirst pred n more with
        | inr more' => inr (d :: more')
        | inl e => inl e
        end
  end.

Section Parser.
(** The import declarations that ts-morph, which parses the text with the
    compiler of TypeScript, finds among the statements of a text. *)
Variable importsIn : jsstring -> list ImportDeclaration.

(** [sf.addStatements(text)], which is taken to return. *)
Definition addStatements (text : jsstring) (sf : SourceFile) : SourceFile :=
  mkSourceFile (importDeclarations sf ++ importsIn text)
    (statements sf ++ [text]).
End Parser.

End TsMorph.

(** ** lib/generators/trpc.generator.ts: handling of imports while injecting *)

Module Inject.
Import TsMorph.

(** The template literal [`${moduleSpecifier}:${namedImport}`]. *)
Definition importKey (m n : jsstring) : jsstring := m ++ ":" :: n.

(** The [existingImports] set as filled from the import declarations of
    the app-router file: every module specifier, and a key for the name of
    every named import. *)
Definition declKeys (d : ImportDeclaration) : gset jsstring :=
  {[ moduleSpecifier d ]}
  ∪ list_to_set (map (importKey (moduleSpecifier d)) (importedNames d)).

Definition buildExistingImports (sf : SourceFile) : gset jsstring :=
  ⋃ (map declKeys (importDeclarations sf)).

Definition hasSpecifier (m : jsstring) (d : ImportDeclaration) : bool :=
  bool_decide (moduleSpecifier d = m).

(** The body of [namedImports.forEach((namedImport) => ...)], the same in
    both variants of [injectFilesContent].  [addNamedImport] may throw;
    nothing was changed then. *)
Definition processNamedImport (m : jsstring)
    (st : SourceFile * gset jsstring) (n : jsstring)
    : (SourceFile * gset jsstring) * option Error :=
  let '(sf, existingImports) := st in
  let key := importKey m n in
  if decide (key ∈ existingImports) then (st, None)
  else if decide (m ∈ existingImports) then
    match addNamedImportFirst (hasSpecifier m) n (importDeclarations sf) with
    | inr decls =>
        ((mkSourceFile decls (statements sf), {[ key ]} ∪ existingImports),
         None)
    | inl e => (st, Some e)
    end
  else
    ((addImportDeclaration m [n] sf,
      {[ key ]} ∪ ({[ m ]} ∪ existingImports)),
     None).

(** [text.split(',').map((imp) => imp.trim()).filter((imp) => imp !== '')] *)
Definition parseNamedImports (namedImportsText : jsstring) : list jsstring :=
  filter (fun imp => negb (Nat.eqb (length imp) 0))
    (map trim (split "," namedImportsText)).

(** One import statement of an injected file: its module specifier and
    the text between its braces. *)
Definition processImport (st : SourceFile * gset jsstring)
    (imp : jsstring * jsstring)
    : (SourceFile * gset jsstring) * option Error :=
  let '(moduleSpecifier, namedImportsText) := imp in
  forEachTry (processNamedImport moduleSpecifier)
    (parseNamedImports namedImportsText) st.

End Inject.

(** ** The regular expressions of [injectFilesContent]

    Each one is embedded as the matcher a backtracking engine runs for it.
    In every pattern below a greedy repetition is followed by something its
    own class excludes, so the first (greedy) attempt is the only one that
    can succeed; the one exception, [\s*\n], is written out. *)

Module Regex.

(** A literal at the front of [s]; the rest behind it. *)
Definition expect (lit s : jsstring) : option jsstring :=
  if startsWith s lit then Some (drop (length lit) s) else None.

(** One or more characters of the class [f]: what was taken, and the rest. *)
Definition oneOrMore (f : ascii -> bool) (s : jsstring)
    : option (jsstring * jsstring) :=
  match takeWhile f s with
  | [] => None
  | taken => Some (taken, dropWhile f s)
  end.

Definition isQuote (c : ascii) : bool :=
  ascii_eqb c "'" || ascii_eqb c "034".

Definition notQuote (c : ascii) : bool := negb (isQuote c).
Definition notRBrace (c : ascii) : bool := negb (ascii_eqb c "}").

(** The class of the two quote characters. *)
Definition quote (s : jsstring) : option jsstring :=
  match s with
  | c :: s' => if isQuote c then Some s' else None
  | [] => None
  end.

(** A match of the import pattern: [match[0]], [match[1]], [match[2]]. *)
Record ImportMatch : Type := mkImportMatch {
  matched : jsstring;
  namedImportsText : jsstring;
  moduleSpecifierText : jsstring
}.

(** The import pattern tried at the front of [s]: the word import, white
    space, an opening brace, group 1 (anything but a closing brace), a
    closing brace, white space, the word from, white space, a quote,
    group 2 (one or more characters that are no quote), a quote, an
    optional semicolon, and any white space. *)
Definition matchImportAt (s : jsstring) : option ImportMatch :=
  s1 ← expect (str "import") s;
  '(_, s2) ← oneOrMore is_space s1;
  s3 ← expect (str "{") s2;
  let names := takeWhile notRBrace s3 in
  s4 ← expect (str "}") (dropWhile notRBrace s3);
  '(_, s5) ← oneOrMore is_space s4;
  s6 ← expect (str "from") s5;
  '(_, s7) ← oneOrMore is_space s6;
  s8 ← quote s7;
  '(m, s9) ← oneOrMore notQuote s8;
  s10 ← quote s9;
  let s11 := match expect (str ";") s10 with
             | Some r => r
             | None => s10
             end in
  let s12 := dropWhile is_space s11 in
  Some (mkImportMatch (take (length s - length s12) s) names m).

(** The [while ((match = importRegex.exec(fileContent)) !== null)] loop of
    a global pattern: every match, each search starting where the previous
    match ended.  [skip] counts the characters of [s] that still belong to
    the previous match. *)
Fixpoint execAll (skip : nat) (s : jsstring) : list ImportMatch :=
  match s with
  | [] => []
  | _ :: s' =>
      match skip with
      | S k => execAll k s'
      | 0 =>
          match matchImportAt s with
          | Some mt => mt :: execAll (length (matched mt) - 1) s'
          | None => execAll 0 s'
          end
      end
  end.

(** [s.replace(pattern, '')] for a string [pattern]: the first occurrence
    is removed. *)
Fixpoint replaceFirst (pattern s : jsstring) : jsstring :=
  if startsWith s pattern then drop (length pattern) s
  else match s with
       | [] => []
       | c :: s' => c :: replaceFirst pattern s'
       end.

(** [s.replace(re, replacement)] for a global pattern that matches no
    empty string.  [matchAt atLineStart rest] is the length of the match
    at the front of [rest], if there is one; [prev] is the character
    before [s] in the whole string. *)
Fixpoint replaceAll (matchAt : bool -> jsstring -> option nat)
    (replacement : jsstring) (skip : nat) (prev : option ascii)
    (s : jsstring) : jsstring :=
  match s with
  | [] => []
  | c :: s' =>
      match skip with
      | S k => replaceAll matchAt replacement k (Some c) s'
      | 0 =>
          let atLineStart :=
            match prev with
            | None => true
            | Some p => is_line_terminator p
            end in
          match matchAt atLineStart s with
          | Some n =>
              replacement
              ++ replaceAll matchAt replacement (n - 1) (Some c) s'
          | None => c :: replaceAll matchAt replacement 0 (Some c) s'
          end
      end
  end.

(** [/;\s*;/] *)
Definition matchSemis (_ : bool) (s : jsstring) : option nat :=
  s1 ← expect (str ";") s;
  s2 ← expect (str ";") (dropWhile is_space s1);
  Some (length s - length s2).

(** [/^\s*;/m] *)
Definition matchLeadingSemi (atLineStart : bool) (s : jsstring)
    : option nat :=
  if atLineStart then
    s1 ← expect (str ";") (dropWhile is_space s);
    Some (length s - length s1)
  else None.

(** The part of a run of white space up to its last line feed. *)
Fixpoint upToLastNewline (ws : jsstring) : option jsstring :=
  match ws with
  | [] => None
  | c :: ws' =>
      match upToLastNewline ws' with
      | Some r => Some (c :: r)
      | None => if ascii_eqb c "010" then Some [c] else None
      end
  end.

(** [/\s*;\s*\n/]: the second [\s*] takes the whole run of white space
    and gives back as little as brings a line feed behind it. *)
Definition matchTrailingSemi (_ : bool) (s : jsstring) : option nat :=
  let lead := takeWhile is_space s in
  s1 ← expect (str ";") (dropWhile is_space s);
  r ← upToLastNewline (takeWhile is_space s1);
  Some (length lead + 1 + length r).

(** The three clean-up replacements, in the order of the source. *)
Definition cleanup (s : jsstring) : jsstring :=
  let s1 := replaceAll matchSemis (str ";") 0 None s in
  let s2 := replaceAll matchLeadingSemi [] 0 None s1 in
  replaceAll matchTrailingSemi ["010"] 0 None s2.

(** The module-specifier pattern of the AST variant at the front of [s]:
    the word from, white space, a quote, group 1 (one or more characters
    that are no quote), a quote. *)
Definition matchFromAt (s : jsstring) : option jsstring :=
  s1 ← expect (str "from") s;
  '(_, s2) ← oneOrMore is_space s1;
  s3 ← quote s2;
  '(m, s4) ← oneOrMore notQuote s3;
  _ ← quote s4;
  Some m.

(** Group 1 of the leftmost match of the module-specifier pattern. *)
Fixpoint searchFrom (s : jsstring) : option jsstring :=
  match matchFromAt s with
  | Some m => Some m
  | None =>
      match s with
      | [] => None
      | _ :: s' => searchFrom s'
      end
  end.

(** Group 1 of the leftmost match of the braces pattern of the AST
    variant: an opening brace, group 1 (anything but a closing brace), a
    closing brace. *)
Fixpoint searchBraces (s : jsstring) : option jsstring :=
  match s with
  | [] => None
  | c :: s' =>
      if ascii_eqb c "{" then
        match dropWhile notRBrace s' with
        | [] => None
        | _ :: _ => Some (takeWhile notRBrace s')
        end
      else searchBraces s'
  end.

End Regex.

(** ** [injectFilesContent]: what one injected file does to the app-router file *)

Module InjectFile.
Import TsMorph Inject.

(** [processedImports.add(match[0])] on a [Set]: insertion order, no
    repetition. *)
Definition setAdd (x : jsstring) (set : list jsstring) : list jsstring :=
  if bool_decide (x ∈ set) then set else set ++ [x].

Definition importOfMatch (mt : Regex.ImportMatch) : jsstring * jsstring :=
  (Regex.moduleSpecifierText mt, Regex.namedImportsText mt).

(** The text left of [fileContent] once the processed import statements
    were taken out: one [replace] per member of the set. *)
Definition removeImports (matches : list Regex.ImportMatch)
    (fileContent : jsstring) : jsstring :=
  let processedImports :=
    fold_left (fun set mt => setAdd (Regex.matched mt) set) matches [] in
  fold_left (fun nonImportContent importStatement =>
               Regex.replaceFirst importStatement nonImportContent)
    processedImports fileContent.

(** A statement of a parsed file: whether [getKindName()] is
    'ImportDeclaration', and [getText()]. *)
Record Statement : Type := mkStatement {
  isImportDeclaration : bool;
  getText : jsstring
}.

Definition importOfStatement (text : jsstring) : jsstring * jsstring :=
  (default [] (Regex.searchFrom text), default [] (Regex.searchBraces text)).

Section Parser.
Variable importsIn : jsstring -> list ImportDeclaration.

(** The text that the regular-expression variant hands to
    [addStatements] for a file, if it is not empty. *)
Definition cleanedContent (fileContent : jsstring) : jsstring :=
  trim (Regex.cleanup
          (removeImports (Regex.execAll 0 fileContent) fileContent)).

(** The regular-expression variant: the [try] block for one file whose
    text is [fileContent].  The file it leaves, and the error if a call
    threw. *)
Definition injectRegex (sf : SourceFile) (fileContent : jsstring)
    : SourceFile * option Error :=
  let existingImports := buildExistingImports sf in
  let matches := Regex.execAll 0 fileContent in
  match forEachTry (fun st mt => processImport st (importOfMatch mt))
          matches (sf, existingImports) with
  | ((sf1, _), Some e) => (sf1, Some e)
  | ((sf1, _), None) =>
      match cleanedContent fileContent with
      | [] => (sf1, None)
      | cleaned => (addStatements importsIn cleaned sf1, None)
      end
  end.

(** The AST variant: the body of [fileToInject.getStatements().forEach]. *)
Definition injectStatement (st : SourceFile * gset jsstring)
    (statement : Statement) : (SourceFile * gset jsstring) * option Error :=
  if isImportDeclaration statement
  then processImport st (importOfStatement (getText statement))
  else ((addStatements importsIn (getText statement) (fst st), snd st), None).

(** The AST variant for one file whose statements are [stmts]: the file it
    leaves, and the error if a call threw. *)
Definition injectAst (sf : SourceFile) (stmts : list Statement)
    : SourceFile * option Error :=
  let '(st, thrown) :=
    forEachTry injectStatement stmts (sf, buildExistingImports sf) in
  (fst st, thrown).

(** Several files, one after the other; an error ends the handling of
    its file only. *)
Definition injectAllRegex (sf : SourceFile) (contents : list jsstring)
    : SourceFile :=
  fold_left (fun sf fileContent => fst (injectRegex sf fileContent))
    contents sf.

Definition injectAllAst (sf : SourceFile) (files : list (list Statement))
    : SourceFile :=
  fold_left (fun sf stmts => fst (injectAst sf stmts)) files sf.

(** The files among [inputs] whose handling ends in a warning: those that
    could not be had ([None]) and those whose injection threw. *)
Fixpoint failures {X : Type}
    (inject : SourceFile -> X -> SourceFile * option Error)
    (sf : SourceFile) (inputs : list (option X)) : nat :=
  match inputs with
  | [] => 0
  | None :: more => S (failures inject sf more)
  | Some x :: more =>
      let '(sf', thrown) := inject sf x in
      match thrown with
      | Some _ => S (failures inject sf' more)
      | None => failures inject sf' more
      end
  end.

End Parser.

End InjectFile.

(** ** Counting import declarations *)

Module ImportDedup.
Import TsMorph Inject InjectFile.







End ImportDedup.

(** ** A reader of import statements for the examples *)

Module SplicedImports.
Import TsMorph.

(** The identifier at the front of a text. *)
Definition leadingWord (s : jsstring) : jsstring :=
  takeWhile (fun c => negb (is_space c) && negb (ascii_eqb c ",")) s.

(** What stands in for the parser where a concrete one is needed: it
    reads a text that is one import statement of the form
    [import x from 'm'], [import x, { ... } from 'm'],
    [import * as x from 'm'], [import { ... } from 'm'],
    [import type { ... } from 'm'] or [import 'm'], and finds no import
    declaration in any other text. *)
Definition importsIn (text : jsstring) : list ImportDeclaration :=
  match Regex.expect (str "import") text with
  | None => []
  | Some afterImport =>
      match dropWhile is_space afterImport with
      | [] => []
      | "*" :: afterStar =>
          match Regex.expect (str "as") (dropWhile is_space afterStar),
                Regex.searchFrom text with
          | Some afterAs, Some m =>
              [mkImportDeclaration m None
                 (Some (leadingWord (dropWhile is_space afterAs))) []]
          | _, _ => []
          end
      | c :: more =>
          if Regex.isQuote c then
            match Regex.oneOrMore Regex.notQuote more with
            | Some (m, _) => [mkImportDeclaration m None None []]
            | None => []
            end
          else
            let word := leadingWord (c :: more) in
            let behindWord :=
              dropWhile is_space (drop (length word) (c :: more)) in
            let braces :=
              ascii_eqb c "{"
              || bool_decide (word = str "type")
                 && startsWith behindWord (str "{") in
            let names :=
              match Regex.searchBraces text with
              | Some namedImportsText =>
                  Inject.parseNamedImports namedImportsText
              | None => []
              end in
            match Regex.searchFrom text with
            | Some m =>
                [mkImportDeclaration m (if braces then None else Some word)
                   None names]
            | None => []
            end
      end
  end.

End SplicedImports.

(** ** The raw-text splice, as specified *)

Module Splice.
Import TsMorph InjectFile.

(** In the specification's words: the text of the file with every match of the
    import pattern deleted. *)
Definition withoutImports (fileContent : jsstring) : jsstring :=
  Regex.replaceAll
    (fun _ s => mt ← Regex.matchImportAt s; Some (length (Regex.matched mt)))
    [] 0 None fileContent.

(** In the specification's words: what the splice appends, if anything. *)
Definition remainder (fileContent : jsstring) : option jsstring :=
  match trim (Regex.cleanup (withoutImports fileContent)) with
  | [] => None
  | cleaned => Some cleaned
  end.

Definition repeatedImport : jsstring :=
  str ("import { a } from 'x';" ++ lf ++ "import { a } from 'x';" ++ lf).
End Splice.

(** ** Files with their named imports on top *)

Module ImportOnly.
Import TsMorph Inject InjectFile.

(** The statement [import { n1, n2 } from 'm';]. *)
Record ImportLine : Type := mkImportLine {
  lineModule : jsstring;
  lineNames : list jsstring
}.

Definition isDigit (c : ascii) : bool :=
  let n := nat_of_ascii c in Nat.leb 48 n && Nat.leb n 57.

(** A character of an identifier: a letter, a digit, the underscore or
    the dollar sign. *)
Definition plainChar (c : ascii) : bool :=
  let n := nat_of_ascii c in
  Nat.leb 65 n && Nat.leb n 90 || Nat.leb 97 n && Nat.leb n 122
  || isDigit c || ascii_eqb c "_" || ascii_eqb c "$".

(** The reserved words of a module, which is strict code. *)
Definition reservedWords : list jsstring :=
  map str
    ["await"; "break"; "case"; "catch"; "class"; "const"; "continue";
     "debugger"; "default"; "delete"; "do"; "else"; "enum"; "export";
     "extends"; "false"; "finally"; "for"; "function"; "if"; "implements";
     "import"; "in"; "instanceof"; "interface"; "let"; "new"; "null";
     "package"; "private"; "protected"; "public"; "return"; "static";
     "super"; "switch"; "this"; "throw"; "true"; "try"; "typeof"; "var";
     "void"; "while"; "with"; "yield"]%string.

(** An identifier that is no reserved word: no white space and so no [as]
    and no [type] modifier in it, no comment, nothing the parser would
    read as more or less than one import specifier. *)
Definition plainName (n : jsstring) : bool :=
  match n with
  | [] => false
  | c :: _ =>
      negb (isDigit c) && forallb plainChar n
      && negb (bool_decide (n ∈ reservedWords))
  end.

(** A character that stands for itself between the quotes of a module
    specifier: no quote, no backslash, no line break. *)
Definition specifierChar (c : ascii) : bool :=
  Regex.notQuote c && negb (ascii_eqb c "\")
  && negb (is_line_terminator c).

(** Names are identifiers; the module specifier is not empty and is the
    text between its quotes. *)
Definition wellFormed (l : ImportLine) : bool :=
  forallb plainName (lineNames l)
  && negb (Nat.eqb (length (lineModule l)) 0)
  && forallb specifierChar (lineModule l).

(** The text between the braces. *)
Definition namesText (names : list jsstring) : jsstring :=
  " " :: join_with (str ", ") names ++ [" "].

(** [getText()] of the statement. *)
Definition statementText (l : ImportLine) : jsstring :=
  str "import {" ++ namesText (lineNames l) ++ str "} from '"
  ++ lineModule l ++ str "';".

(** The statement on a line of its own. *)
Definition lineText (l : ImportLine) : jsstring :=
  statementText l ++ ["010"].

(** The text of the file with these statements, one per line. *)
Definition fileContent (lines : list ImportLine) : jsstring :=
  concat (map lineText lines).

(** The statements the parser finds in that file. *)
Definition fileStatements (lines : list ImportLine) : list Statement :=
  map (fun l => mkStatement true (statementText l)) lines.

(** What the import pattern finds on the line of a statement. *)
Definition matchOfLine (l : ImportLine) : Regex.ImportMatch :=
  Regex.mkImportMatch (lineText l) (namesText (lineNames l)) (lineModule l).

(** What either variant does with the statements of such a file: the
    import loop over them. *)
Definition importAll (sf : SourceFile) (lines : list ImportLine)
    : (SourceFile * gset jsstring) * option Error :=
  forEachTry
    (fun st l => processImport st (lineModule l, namesText (lineNames l)))
    lines (sf, buildExistingImports sf).

End ImportOnly.

(** ** lib/generators/trpc.generator.ts: the generator and its collaborators *)

(** How an [async] method ends: its promise is fulfilled, it is rejected
    with an error, or the call never gets there. *)
Inductive Completion (A : Type) : Type :=
  | Normal (a : A)
  | Throw (e : Error)
  | Diverge.
Arguments Normal {A} a.
Arguments Throw {A} e.
Arguments Diverge {A}.

(** The compilerOptions.paths field of a parsed tsconfig.json. *)
Record CompilerOptions : Type := mkCompilerOptions {
  paths : option (list (jsstring * list jsstring))
}.

Record TsConfig : Type := mkTsConfig {
  compilerOptions : option CompilerOptions
}.

(** [tsConfigObj.compilerOptions?.paths || {}] *)
Definition pathAliasesOf (tsConfigObj : TsConfig)
    : list (jsstring * list jsstring) :=
  match compilerOptions tsConfigObj with
  | Some options =>
      match paths options with
      | Some aliases => aliases
      | None => []
      end
  | None => []
  end.

(** [`${error}`] for an [Error]: [Error.prototype.toString], which joins
    the name and the message and leaves out the one that is empty. *)
Definition errorToString (e : Error) : jsstring :=
  match errorName e, message e with
  | [], msg => msg
  | name, [] => name
  | name, msg => name ++ str ": " ++ msg
  end.

Module Generator.
Import TsMorph.

Section WithCollaborators.
(** Types of the host framework and of the serializer, opaque here. *)
Context {Instance Prototype Procedure RoutersMetadata Disk : Type}.
Context {Middleware ContextImport Properties : Type}.

(** An element of [routerFactory.getRouters()]. *)
Record RouterEntry : Type := mkRouterEntry {
  name : jsstring;
  path : jsstring;
  alias : option jsstring;
  instance : Instance
}.

(** An element of [mappedRoutesAndProcedures]:
    [{ name, path, alias, instance: { ...route }, procedures }]. *)
Record MappedRoute : Type := mkMappedRoute {
  mappedName : jsstring;
  mappedPath : jsstring;
  mappedAlias : option jsstring;
  mappedInstance : RouterEntry;
  procedures : list Procedure
}.

(** A declaration added to the helper types file:
    [addTypeAlias({ isExported: true, name, type })] or
    [addInterface({ isExported: true, name, extends, properties })]. *)
Inductive HelperDeclaration : Type :=
  | TypeAlias (aliasName aliasType : jsstring)
  | Interface (interfaceName : jsstring) (extends : list jsstring)
      (properties : Properties).

(** What the generator is injected with and what it calls in the world:
    the factories, the static generator, the serializer, the file system,
    and the parser that the ts-morph project reads text with.  A call
    returns or throws; one that changes the source file may have changed
    it before it throws. *)
Record Collaborators : Type := mkCollaborators {
  parseImports : jsstring -> list ImportDeclaration;
  getRouters : Error + list RouterEntry;
  getPrototypeOf : Instance -> Prototype;
  getProcedures : Instance -> Prototype -> Error + list Procedure;
  generateStaticDeclaration : SourceFile -> option Error * SourceFile;
  addSchemaImports : list jsstring -> SourceFile -> option Error * SourceFile;
  serializeRouters : list MappedRoute -> Error + RoutersMetadata;
  generateRoutersStringFromMetadata : RoutersMetadata -> Error + jsstring;
  saveOrOverrideFile : SourceFile -> Disk -> Error + Disk;
  existsSync : jsstring -> bool;
  readFileSync : jsstring -> Error + jsstring;
  readTsConfig : jsstring -> Error + TsConfig;
  cwd : jsstring;
  moduleCallerFilePath : jsstring;
  getMiddlewares : Error + list Middleware;
  rootModuleImportsMap_get : jsstring -> option ContextImport;
  getContextInterface : ContextImport -> jsstring -> Error + option jsstring;
  getMiddlewareInterface :
    Middleware -> Error + option (jsstring * Properties);
  saveHelperTypes : list HelperDeclaration -> Disk -> Error + Disk
}.

(** What a call of the generator can change. *)
Record World : Type := mkWorld {
  appRouterSourceFile : SourceFile;
  disk : Disk;
  warnings : list jsstring
}.

Definition M (A : Type) : Type := World -> Completion A * World.

Definition ret {A} (a : A) : M A := fun w => (Normal a, w).

Definition bind {A B} (c : M A) (k : A -> M B) : M B :=
  fun w =>
    match c w with
    | (Normal a, w') => k a w'
    | (Throw e, w') => (Throw e, w')
    | (Diverge, w') => (Diverge, w')
    end.

(** [try { body } catch (error) { handler(error) }] *)
Definition tryCatch {A} (body : M A) (handler : Error -> M A) : M A :=
  fun w =>
    match body w with
    | (Throw e, w') => handler e w'
    | r => r
    end.

(** A call that returns or throws and changes nothing. *)
Definition call {A} (r : Error + A) : M A :=
  fun w =>
    match r with
    | inr a => (Normal a, w)
    | inl e => (Throw e, w)
    end.

(** A call on [this.appRouterSourceFile]. *)
Definition onSourceFile (f : SourceFile -> option Error * SourceFile)
    : M unit :=
  fun w =>
    let '(r, sf') := f (appRouterSourceFile w) in
    let w' := mkWorld sf' (disk w) (warnings w) in
    match r with
    | None => (Normal tt, w')
    | Some e => (Throw e, w')
    end.

(** [this.consoleLogger.warn(msg, ...)] *)
Definition warn (msg : jsstring) : M unit :=
  fun w =>
    (Normal tt,
     mkWorld (appRouterSourceFile w) (disk w) (warnings w ++ [msg])).

Definition setSourceFile (sf : SourceFile) (w : World) : World :=
  mkWorld sf (disk w) (warnings w).

Fixpoint forEach {A} (xs : list A) (f : A -> M unit) : M unit :=
  match xs with
  | [] => ret tt
  | x :: more => bind (f x) (fun _ => forEach more f)
  end.

(** [xs.map(f)] for an [f] that may throw. *)
Fixpoint mapM {A B} (f : A -> M B) (xs : list A) : M (list B) :=
  match xs with
  | [] => ret []
  | x :: more =>
      bind (f x) (fun y => bind (mapM f more) (fun ys => ret (y :: ys)))
  end.

Variable collab : Collaborators.

Definition isEmpty (s : jsstring) : bool := Nat.eqb (length s) 0.

(** *** [injectFilesContent], regular-expression variant *)

Definition couldNotResolve (filePath : jsstring) : jsstring :=
  str "Could not resolve path for " ++ filePath
  ++ str " or file doesn't exist".

Definition errorInjectingFile (filePath resolvedPath : jsstring)
    (e : Error) : jsstring :=
  str "Error injecting file " ++ filePath ++ str " (resolved to "
  ++ resolvedPath ++ str "): " ++ errorToString e.

(** The body of [for (const filePath of filePaths)]. *)
Definition injectOneFile (pathAliases : list (jsstring * list jsstring))
    (basePath filePath : jsstring) : M unit :=
  match PathResolution.resolvePathWithAliases (cwd collab) filePath
          pathAliases basePath with
  | Some resolvedPath =>
      if negb (isEmpty resolvedPath) && existsSync collab resolvedPath then
        tryCatch
          (bind (call (readFileSync collab resolvedPath))
             (fun fileContent =>
                onSourceFile
                  (fun sf =>
                     prod_swap
                       (InjectFile.injectRegex (parseImports collab) sf
                          fileContent))))
          (fun e => warn (errorInjectingFile filePath resolvedPath e))
      else warn (couldNotResolve filePath)
  | None => warn (couldNotResolve filePath)
  end.

(** The warning [findTsConfigFile] logs before it returns [null]. *)
Definition noTsConfigAbove (startPath : jsstring) : jsstring :=
  str "Could not find tsconfig.json in any parent directory of: "
  ++ startPath.

Definition couldNotFindTsConfig : jsstring :=
  str "Could not find tsconfig.json file".

(** [injectFilesContent(filePaths)]; [fuel] bounds the loop of
    [findTsConfigFile]. *)
Definition injectFilesContent (fuel : nat) (filePaths : list jsstring)
    : M unit :=
  tryCatch
    (fun w =>
       match PathResolution.findTsConfigFile (existsSync collab) fuel
               (moduleCallerFilePath collab) with
       | None => (Diverge, w)
       | Some None =>
           bind (warn (noTsConfigAbove (moduleCallerFilePath collab)))
             (fun _ => warn couldNotFindTsConfig) w
       | Some (Some tsConfigFilePath) =>
           bind (call (readTsConfig collab tsConfigFilePath))
             (fun tsConfigObj =>
                forEach filePaths
                  (injectOneFile (pathAliasesOf tsConfigObj)
                     (NodePath.dirname tsConfigFilePath))) w
       end)
    (fun e => warn (str "Error injecting files: " ++ errorToString e)).

(** *** [generateSchemaFile] *)

(** The callback of [routers.map]. *)
Definition mapRoute (route : RouterEntry) : M MappedRoute :=
  let prototype := getPrototypeOf collab (instance route) in
  bind (call (getProcedures collab (instance route) prototype))
    (fun procs =>
       ret (mkMappedRoute (name route) (path route) (alias route)
              route procs)).

(** The template literal handed to [addStatements]. *)
Definition appRouterStatements (routersStringDeclarations : jsstring)
    : jsstring :=
  "010" :: str "        const appRouter = t.router({"
  ++ routersStringDeclarations ++ str "});"
  ++ "010" :: str "        export type AppRouter = typeof appRouter;"
  ++ "010" :: str "      ".

Definition save : M unit :=
  fun w =>
    match saveOrOverrideFile collab (appRouterSourceFile w) (disk w) with
    | inr d => (Normal tt, mkWorld (appRouterSourceFile w) d (warnings w))
    | inl e => (Throw e, w)
    end.

Definition encounteredAnError : jsstring :=
  str "TRPC Generator encountered an error.".

(** [routers] and [mappedRoutesAndProcedures], the first two statements
    of the [try] block. *)
Definition discoverRoutes : M (list MappedRoute) :=
  bind (call (getRouters collab)) (fun routers => mapM mapRoute routers).

(** The [try] block of [generateSchemaFile]. *)
Definition schemaFileBody (fuel : nat)
    (schemaImports injectFiles : option (list jsstring)) : M unit :=
  bind discoverRoutes (fun mappedRoutesAndProcedures =>
  bind (onSourceFile (generateStaticDeclaration collab)) (fun _ =>
  bind (match schemaImports with
        | Some ((_ :: _) as schemaImportNames) =>
            onSourceFile (addSchemaImports collab schemaImportNames)
        | _ => ret tt
        end) (fun _ =>
  bind (match injectFiles with
        | Some ((_ :: _) as files) => injectFilesContent fuel files
        | _ => ret tt
        end) (fun _ =>
  bind (call (serializeRouters collab mappedRoutesAndProcedures))
    (fun routersMetadata =>
  bind (call (generateRoutersStringFromMetadata collab routersMetadata))
    (fun routersStringDeclarations =>
  bind (fun w =>
          (Normal tt,
           setSourceFile
             (addStatements (parseImports collab)
                (appRouterStatements routersStringDeclarations)
                (appRouterSourceFile w)) w)) (fun _ =>
  save))))))).

(** [generateSchemaFile(schemaImports, injectFiles)] *)
Definition generateSchemaFile (fuel : nat)
    (schemaImports injectFiles : option (list jsstring)) : M unit :=
  tryCatch (schemaFileBody fuel schemaImports injectFiles)
    (fun _ => warn encounteredAnError).

(** *** [generateHelpersFile] *)

Definition noContextImport : Error :=
  mkError (str "Could not find context import declaration.").

(** The [if (context != null)] block; [contextName] is [context.name]. *)
Definition contextAlias (contextName : jsstring)
    : M (list HelperDeclaration) :=
  match rootModuleImportsMap_get collab contextName with
  | None => call (inl noContextImport)
  | Some contextImport =>
      bind (call (getContextInterface collab contextImport contextName))
        (fun contextType =>
           ret [TypeAlias (str "Context")
                  (default (str "{}") contextType)])
  end.

(** The body of [for (const middleware of middlewares)]. *)
Definition middlewareInterface (middleware : Middleware)
    : M (list HelperDeclaration) :=
  bind (call (getMiddlewareInterface collab middleware))
    (fun found =>
       match found with
       | Some (interfaceName, props) =>
           ret [Interface (interfaceName ++ str "Context")
                  [str "Context"] props]
       | None => ret []
       end).

Definition saveHelpers (helperTypesSourceFile : list HelperDeclaration)
    : M unit :=
  fun w =>
    match saveHelperTypes collab helperTypesSourceFile (disk w) with
    | inr d => (Normal tt, mkWorld (appRouterSourceFile w) d (warnings w))
    | inl e => (Throw e, w)
    end.

(** The [try] block of [generateHelpersFile]. *)
Definition helpersFileBody (context : option jsstring) : M unit :=
  bind (call (getMiddlewares collab)) (fun middlewares =>
  bind (match context with
        | Some contextName => contextAlias contextName
        | None => ret []
        end) (fun aliasDecl =>
  bind (mapM middlewareInterface middlewares) (fun interfaces =>
  saveHelpers (aliasDecl ++ concat interfaces)))).

(** [generateHelpersFile(context)] *)
Definition generateHelpersFile (context : option jsstring) : M unit :=
  tryCatch (helpersFileBody context) (fun _ => warn encounteredAnError).

(** *** Properties of computations *)

(** A computation that leaves the disk alone, however it ends. *)
Definition keepsDisk {A} (c : M A) : Prop :=
  forall w r w', c w = (r, w') -> disk w' = disk w.

(** A computation that does not throw. *)
Definition neverThrows {A} (c : M A) : Prop :=
  forall w e, fst (c w) <> Throw e.

(** The mapped entry of a router: its metadata as it was, a copy of the
    router, and the procedures found on the prototype of its instance. *)
Definition mappedFrom (route : RouterEntry) (entry : MappedRoute) : Prop :=
  mappedName entry = name route /\
  mappedPath entry = path route /\
  mappedAlias entry = alias route /\
  mappedInstance entry = route /\
  getProcedures collab (instance route)
    (getPrototypeOf collab (instance route)) = inr (procedures entry).

End WithCollaborators.
End Generator.

(** ** A concrete project to run the generator on *)

Module Demo.
Import TsMorph Generator.

Definition userSchemaFile : jsstring :=
  str ("import { z } from 'zod';" ++ lf ++ lf ++
       "export const userSchema = z.object({})" ++ lf).

Definition userRouter : @RouterEntry unit :=
  mkRouterEntry (str "UserRouter") (str "/proj/src/user.router.ts")
    (Some (str "users")) tt.

(** A project in /proj with one router and one schema file; the disk is
    the file last saved.  [caller] is the path of the file of the root
    module, [serialized] is what [serializeRouters] does and [present]
    says which paths exist. *)
Definition projectAt (caller : jsstring) (serialized : Error + unit)
    (present : list jsstring)
    : @Collaborators unit unit unit unit (option SourceFile) unit unit unit :=
  mkCollaborators
    SplicedImports.importsIn
    (inr [userRouter])
    (fun _ => tt)
    (fun _ _ => inr [tt])
    (fun sf =>
       (None,
        addImportDeclaration (str "@trpc/server") [str "initTRPC"]
          (addStatements SplicedImports.importsIn
             (str "const t = initTRPC.create();") sf)))
    (fun _ sf => (None, sf))
    (fun _ => serialized)
    (fun _ => inr (str "users: t.router({})"))
    (fun sf _ => inr (Some sf))
    (fun p => bool_decide (p ∈ present))
    (fun p =>
       if bool_decide (p = str "/proj/src/zod/user.ts")
       then inr userSchemaFile
       else inl (mkError (str "ENOENT")))
    (fun _ =>
       inr (mkTsConfig
              (Some (mkCompilerOptions
                       (Some [(str "@/*", [str "./src/*"])])))))
    (str "/proj")
    caller
    (inr [])
    (fun _ => None)
    (fun _ _ => inr None)
    (fun _ => inr None)
    (fun _ d => inr d).

Definition allPresent : list jsstring :=
  [str "/proj/tsconfig.json"; str "/proj/src/zod/user.ts"].

Definition project := projectAt (str "/proj/src/app.module.ts").

Definition healthy := project (inr tt) allPresent.
Definition serializerThrows := project (inl (mkError (str "boom"))) allPresent.
Definition withoutTsConfig := project (inr tt) [str "/proj/src/zod/user.ts"].

(** A project whose root module was called from a path that is relative
    to the working directory, in a file system without any file. *)
Definition relativeCaller :=
  projectAt (str "src/app.module.ts") (inr tt) [].

Definition start : @World (option SourceFile) :=
  mkWorld emptySourceFile None [].

(** The file [healthy] ends with. *)
Definition generated : SourceFile :=
  mkSourceFile
    [mkImport (str "@trpc/server") [str "initTRPC"];
     mkImport (str "zod") [str "z"]]
    [str "const t = initTRPC.create();";
     str "export const userSchema = z.object({})";
     appRouterStatements (str "users: t.router({})")].
End Demo.

(** ** More text primitives *)

(** [s.includes(sub)] *)
Fixpoint includes (s sub : jsstring) : bool :=
  startsWith s sub
  || match s with
     | [] => false
     | _ :: s' => includes s' sub
     end.

(** ** The directories above a start path *)

Module PathWalk.

(** The directory [n] levels above [p]: [path.dirname] applied [n] times.
    The loop of [findTsConfigFile] is at [parent (S k) startPath] in its
    iteration [k], counted from 0. *)
Definition parent (n : nat) (p : jsstring) : jsstring :=
  Nat.iter n NodePath.dirname p.

End PathWalk.

(** ** What injection leaves in the app-router file *)

Module ImportArrival.
Import TsMorph Inject InjectFile.


(** The name [n] is imported from module [m] by one of the declarations. *)
Definition present (m n : jsstring) (decls : list ImportDeclaration) : Prop :=
  exists d, d ∈ decls /\ moduleSpecifier d = m /\ n ∈ importedNames d.

(** [d'] is [d] with named imports added behind its own. *)
Definition declGrows (d d' : ImportDeclaration) : Prop :=
  moduleSpecifier d' = moduleSpecifier d /\
  defaultImport d' = defaultImport d /\
  namespaceImport d' = namespaceImport d /\
  namedImports d `prefix_of` namedImports d'.

(** [decls'] is [decls] with named imports added to its declarations and
    declarations added behind them. *)
Definition declsGrow (decls decls' : list ImportDeclaration) : Prop :=
  exists kept added,
    decls' = kept ++ added /\ Forall2 declGrows decls kept.

(** The import declarations have grown, and texts were handed to
    [addStatements] after those that had been. *)
Definition fileGrows (sf sf' : SourceFile) : Prop :=
  declsGrow (importDeclarations sf) (importDeclarations sf') /\
  statements sf `prefix_of` statements sf'.



(** The imports the regular-expression variant reads off the text of a
    file: module specifier and text between the braces of every match. *)
Definition matchedImports (fileContent : jsstring)
    : list (jsstring * jsstring) :=
  map importOfMatch (Regex.execAll 0 fileContent).



(** What either variant does for a file comes to a sequence of steps of
    two kinds: an import goes through the import loop, and a text is
    handed to [addStatements]. *)
Inductive Step : Type :=
  | ImportStep (imp : jsstring * jsstring)
  | TextStep (text : jsstring).

Definition runStep (importsIn : jsstring -> list ImportDeclaration)
    (st : SourceFile * gset jsstring) (step : Step)
    : (SourceFile * gset jsstring) * option Error :=
  match step with
  | ImportStep imp => processImport st imp
  | TextStep text => ((addStatements importsIn text (fst st), snd st), None)
  end.

(** The steps of the AST variant: one for every statement. *)
Definition stepOfStatement (s : Statement) : Step :=
  if isImportDeclaration s then ImportStep (importOfStatement (getText s))
  else TextStep (getText s).

(** The steps of the regular-expression variant: the matches of the
    import pattern, then what is left of the text. *)
Definition stepsOfContent (fileContent : jsstring) : list Step :=
  map ImportStep (matchedImports fileContent)
  ++ match cleanedContent fileContent with
     | [] => []
     | cleaned => [TextStep cleaned]
     end.


(** The state of the import loop, the file and the set, has grown. *)
Definition stateGrows (st st' : SourceFile * gset jsstring) : Prop :=
  fileGrows (fst st) (fst st') /\ snd st ⊆ snd st'.












(** A named import between the braces, with white space around it. *)
Record PaddedName : Type := mkPaddedName {
  before : jsstring;
  importName : jsstring;
  behind : jsstring
}.

Definition paddedText (p : PaddedName) : jsstring :=
  before p ++ importName p ++ behind p.

(** White space around a name that holds no comma and has no white space
    at either end; the name may be empty, as between two commas. *)
Definition wellPadded (p : PaddedName) : bool :=
  forallb is_space (before p) && forallb is_space (behind p)
  && forallb (fun c => negb (ascii_eqb c ",")) (importName p)
  && bool_decide (trim (importName p) = importName p).

End ImportArrival.

(** ** The texts that the import pattern matches *)

Module ImportPattern.

(** The pieces of a match of the import pattern, from left to right: the
    white space behind the word import, group 1 between the braces, the
    white space on either side of the word from, the two quotes around
    group 2, whether a semicolon follows, and the white space at the
    end. *)
Record Parts : Type := mkParts {
  afterImport : jsstring;
  names : jsstring;
  afterBrace : jsstring;
  afterFrom : jsstring;
  openQuote : ascii;
  specifier : jsstring;
  closeQuote : ascii;
  semicolon : bool;
  trailing : jsstring
}.

(** The text the pieces make up. *)
Definition text (p : Parts) : jsstring :=
  str "import" ++ afterImport p ++ "{" :: names p ++ "}" :: afterBrace p
  ++ str "from" ++ afterFrom p ++ openQuote p :: specifier p
  ++ closeQuote p :: (if semicolon p then [";"] else []) ++ trailing p.

Definition spaces (ws : jsstring) : bool := forallb is_space ws.

Definition someSpaces (ws : jsstring) : bool :=
  negb (Nat.eqb (length ws) 0) && forallb is_space ws.

(** What the pattern asks of the pieces. *)
Definition wellFormed (p : Parts) : bool :=
  someSpaces (afterImport p)
  && forallb Regex.notRBrace (names p)
  && someSpaces (afterBrace p)
  && someSpaces (afterFrom p)
  && Regex.isQuote (openQuote p)
  && negb (Nat.eqb (length (specifier p)) 0)
  && forallb Regex.notQuote (specifier p)
  && Regex.isQuote (closeQuote p)
  && spaces (trailing p).

(** The pieces take all they can get: the text behind the match does not
    start with white space, nor with a semicolon that the match could have
    taken. *)
Definition maximal (p : Parts) (rest : jsstring) : bool :=
  match rest with
  | [] => true
  | c :: _ =>
      negb (is_space c)
      && (semicolon p
          || negb (Nat.eqb (length (trailing p)) 0)
          || negb (ascii_eqb c ";"))
  end.

End ImportPattern.

(** ** Code with one statement or part of a statement per line *)

Module CodeLines.

(** A line of code: what stands in front of its end, and whether a
    semicolon ends it. *)
Record Line : Type := mkLine {
  body : jsstring;
  terminated : bool
}.

(** The last character is no white space; the empty text has none. *)
Definition endsInInk (s : jsstring) : bool :=
  match rev s with
  | c :: _ => negb (is_space c)
  | [] => false
  end.

(** The body of a line holds neither semicolon nor line feed and does not
    end in white space; so it is not blank, but it may be indented. *)
Definition bodyOk (s : jsstring) : bool :=
  forallb (fun c => negb (ascii_eqb c ";") && negb (ascii_eqb c "010")) s
  && endsInInk s.

(** The line as written, and the line without its semicolon. *)
Definition written (l : Line) : jsstring :=
  body l ++ (if terminated l then [";"] else []) ++ ["010"].

Definition stripped (l : Line) : jsstring := body l ++ ["010"].

End CodeLines.

(** ** Runs of the generator *)

Module GeneratorRuns.
Import TsMorph Generator.

Section WithCollaborators.
Context {Instance Prototype Procedure RoutersMetadata Disk : Type}.
Context {Middleware ContextImport Properties : Type}.
Variable collab :
  @Collaborators Instance Prototype Procedure RoutersMetadata Disk
     Middleware ContextImport Properties.

(** A computation that comes to an end: it returns or throws. *)
Definition ends {A} (c : @M Disk A) : Prop :=
  forall w, fst (c w) <> Diverge.

(** A computation that writes the disk at its very end or not at all:
    either the disk is as it was and the computation did not return, or it
    returned and the disk is what [saveOrOverrideFile] made of the
    app-router source file it ended with. *)
Definition savesAtEnd (c : @M Disk unit) : Prop :=
  forall w r w', c w = (r, w') ->
    (disk w' = disk w /\ r <> Normal tt) \/
    (r = Normal tt /\
     saveOrOverrideFile collab (appRouterSourceFile w') (disk w)
       = inr (disk w')).

(** The text that the loop of [injectFilesContent] injects for
    [filePath]: the path resolves, the file exists and can be read. *)
Definition injectedContent (pathAliases : list (jsstring * list jsstring))
    (basePath filePath : jsstring) : option jsstring :=
  resolvedPath ← PathResolution.resolvePathWithAliases (cwd collab) filePath
                   pathAliases basePath;
  if negb (isEmpty resolvedPath) && existsSync collab resolvedPath then
    match readFileSync collab resolvedPath with
    | inr fileContent => Some fileContent
    | inl _ => None
    end
  else None.

(** What the helper types file declares for a middleware. *)
Definition helperInterface (found : option (jsstring * Properties))
    : list (@HelperDeclaration Properties) :=
  match found with
  | Some (interfaceName, props) =>
      [Interface (interfaceName ++ str "Context") [str "Context"] props]
  | None => []
  end.

End WithCollaborators.
End GeneratorRuns.

(** ** A project with middlewares *)

Module DemoMiddlewares.
Import TsMorph Generator.

(** Two middlewares, of which the first has an interface, and a context
    class that the root module imports; the disk is the list of
    declarations last saved. *)
Definition project
    : @Collaborators unit unit unit unit
        (list (@HelperDeclaration (list jsstring)))
        jsstring jsstring (list jsstring) :=
  mkCollaborators
    SplicedImports.importsIn
    (inr [])
    (fun _ => tt)
    (fun _ _ => inr [])
    (fun sf => (None, sf))
    (fun _ sf => (None, sf))
    (fun _ => inr tt)
    (fun _ => inr [])
    (fun _ d => inr d)
    (fun _ => false)
    (fun _ => inl (mkError (str "ENOENT")))
    (fun _ => inl (mkError (str "ENOENT")))
    (str "/proj")
    (str "/proj/src/app.module.ts")
    (inr [str "AuthMiddleware"; str "LogMiddleware"])
    (fun contextName =>
       if bool_decide (contextName = str "AppContext")
       then Some (str "./app.context") else None)
    (fun _ _ => inr None)
    (fun middleware =>
       if bool_decide (middleware = str "AuthMiddleware")
       then inr (Some (str "Auth", [str "user"])) else inr None)
    (fun helperTypes _ => inr helperTypes).

Definition start : @World (list (@HelperDeclaration (list jsstring))) :=
  mkWorld emptySourceFile [] [].

End DemoMiddlewares.

(** ** [injectFilesContent], AST variant *)

Module GeneratorAst.
Import TsMorph Generator.

(** What the AST variant asks of the ts-morph project; a call returns or
    throws. *)
Record Project : Type := mkProject {
  (** [JSON.parse(project.addSourceFileAtPath(p).getFullText())] *)
  parseTsConfig : jsstring -> Error + TsConfig;
  (** [project.addSourceFileAtPathIfExists(p)], by the statements of the
      file; [None] is [undefined]. *)
  addSourceFileAtPathIfExists :
    jsstring -> Error + option (list InjectFile.Statement)
}.

Section WithCollaborators.
Context {Instance Prototype Procedure RoutersMetadata Disk : Type}.
Context {Middleware ContextImport Properties : Type}.
Variable collab :
  @Collaborators Instance Prototype Procedure RoutersMetadata Disk
     Middleware ContextImport Properties.
Variable project : Project.

Definition couldNotResolve (filePath : jsstring) : jsstring :=
  str "Could not resolve path for " ++ filePath.

Definition fileNotFound (filePath resolvedPath : jsstring) : jsstring :=
  str "File not found: " ++ filePath ++ str " (resolved to "
  ++ resolvedPath ++ str ")".

(** The body of [for (const filePath of filePaths)]. *)
Definition injectOneFile (pathAliases : list (jsstring * list jsstring))
    (basePath filePath : jsstring) : @M Disk unit :=
  match PathResolution.resolvePathWithAliases (cwd collab) filePath
          pathAliases basePath with
  | Some resolvedPath =>
      if negb (isEmpty resolvedPath) then
        tryCatch
          (bind (call (addSourceFileAtPathIfExists project resolvedPath))
             (fun fileToInject =>
                match fileToInject with
                | Some stmts =>
                    onSourceFile
                      (fun sf =>
                         prod_swap
                           (InjectFile.injectAst (parseImports collab) sf
                              stmts))
                | None => warn (fileNotFound filePath resolvedPath)
                end))
          (fun e => warn (errorInjectingFile filePath resolvedPath e))
      else warn (couldNotResolve filePath)
  | None => warn (couldNotResolve filePath)
  end.

(** [injectFilesContent(filePaths)]; [fuel] bounds the loop of
    [findTsConfigFile]. *)
Definition injectFilesContent (fuel : nat) (filePaths : list jsstring)
    : @M Disk unit :=
  tryCatch
    (fun w =>
       match PathResolution.findTsConfigFile (existsSync collab) fuel
               (moduleCallerFilePath collab) with
       | None => (Diverge, w)
       | Some None =>
           bind (warn (noTsConfigAbove (moduleCallerFilePath collab)))
             (fun _ => warn couldNotFindTsConfig) w
       | Some (Some tsConfigFilePath) =>
           bind (call (parseTsConfig project tsConfigFilePath))
             (fun tsConfigObj =>
                forEach filePaths
                  (injectOneFile (pathAliasesOf tsConfigObj)
                     (NodePath.dirname tsConfigFilePath))) w
       end)
    (fun e => warn (str "Error injecting files: " ++ errorToString e)).

(** The statements that the loop injects for [filePath]: the path
    resolves and the project loads the file. *)
Definition injectedStatements (pathAliases : list (jsstring * list jsstring))
    (basePath filePath : jsstring) : option (list InjectFile.Statement) :=
  resolvedPath ← PathResolution.resolvePathWithAliases (cwd collab) filePath
                   pathAliases basePath;
  if negb (isEmpty resolvedPath) then
    match addSourceFileAtPathIfExists project resolvedPath with
    | inr (Some stmts) => Some stmts
    | _ => None
    end
  else None.

End WithCollaborators.
End GeneratorAst.

(** ** The panel controller of the example applications *)

Module TrpcPanelController.
Section Controller.
Context {AnyRouter : Type}.

(** [renderTrpcPanel(router, { url: 'http://localhost:8080/trpc' })] *)
Variable renderTrpcPanel : AnyRouter -> jsstring.

(** [private appRouter?: AnyRouter] *)
Record t : Type := mk { appRouter : option AnyRouter }.

(** A freshly constructed controller. *)
Definition new : t := mk None.

Definition notReady : jsstring :=
  str "tRPC Router is not ready yet. Please try again in a moment.".

(** *** The controller that answers through a Fastify reply *)

(** [onModuleInit()] : [this.appRouter = this.appRouterHost.getRouterSafe()] *)
Definition onModuleInit (appRouterHost : @AppRouterHost.t AnyRouter)
    (this : t) : t :=
  mk (AppRouterHost.getRouterSafe appRouterHost).

(** [panel(res)]: what is sent, and the controller afterwards; [inl] when
    the getter of the host throws. *)
Definition panel (appRouterHost : @AppRouterHost.t AnyRouter) (this : t)
    : Error + (jsstring * t) :=
  match appRouter this with
  | Some router => inr (renderTrpcPanel router, this)
  | None =>
      if AppRouterHost.isRouterReady appRouterHost then
        match AppRouterHost.appRouter appRouterHost with
        | inr router => inr (renderTrpcPanel router, mk (Some router))
        | inl e => inl e
        end
      else inr (notReady, this)
  end.

(** *** The controller that returns the page *)

(** [onModuleInit()] : the getter inside [try], the error dropped. *)
Definition onModuleInit_try (appRouterHost : @AppRouterHost.t AnyRouter)
    (this : t) : t :=
  match AppRouterHost.appRouter appRouterHost with
  | inr router => mk (Some router)
  | inl _ => this
  end.

(** [panel()]: the page, and the controller afterwards. *)
Definition panel_try (appRouterHost : @AppRouterHost.t AnyRouter) (this : t)
    : jsstring * t :=
  match appRouter this with
  | Some router => (renderTrpcPanel router, this)
  | None =>
      match AppRouterHost.appRouter appRouterHost with
      | inr router => (renderTrpcPanel router, mk (Some router))
      | inl _ => (notReady, this)
      end
  end.

(** *** An application at work *)

(** The router is assigned to the host, or the panel is requested. *)
Inductive Event : Type :=
  | Assign (router : AnyRouter)
  | Request.

(** The pages served for the requests among [events], in order. *)
Fixpoint serve (events : list Event)
    (appRouterHost : @AppRouterHost.t AnyRouter) (this : t)
    : list jsstring :=
  match events with
  | [] => []
  | Assign router :: more =>
      serve more (AppRouterHost.set_appRouter router appRouterHost) this
  | Request :: more =>
      let '(page, this') := panel_try appRouterHost this in
      page :: serve more appRouterHost this'
  end.

End Controller.
End TrpcPanelController.

(** ** The test runner of lint-staged *)

Module LintStaged.

Definition utilsDirectory : jsstring :=
  str "packages/nestjs-trpc/lib/utils/".

(** [files.filter((file) => !file.includes(...))] *)
Definition nonUtilsFiles (files : list jsstring) : list jsstring :=
  filter (fun file => negb (includes file utilsDirectory)) files.

(** The command handed to [execSync]. *)
Definition jestCommand (nonUtils : list jsstring) : jsstring :=
  str "npx jest --no-watchman --bail --findRelatedTests "
  ++ join_with (str " ") nonUtils.

(** How the script ends: the tests were skipped, they passed, or the
    process exits with a code. *)
Inductive Outcome : Type :=
  | Skipped
  | Passed (command : jsstring)
  | Exited (command : jsstring) (code : nat).

(** [error.status || 1]: [None] is a status that is [undefined] or
    [null]. *)
Definition exitCode (status : option nat) : nat :=
  match status with
  | Some (S n) => S n
  | _ => 1
  end.

(** The script on the files lint-staged hands to it.  [execSync] returns
    ([None]) or throws an error with its [status]. *)
Definition main (execSync : jsstring -> option (option nat))
    (files : list jsstring) : Outcome :=
  match nonUtilsFiles files with
  | [] => Skipped
  | nonUtils =>
      match execSync (jestCommand nonUtils) with
      | None => Passed (jestCommand nonUtils)
      | Some status => Exited (jestCommand nonUtils) (exitCode status)
      end
  end.

End LintStaged.

(** * Part II: properties *)

(** ** AppRouterHost *)

Section HostProperties.
Context {AnyRouter : Type}.
Import AppRouterHost.

Lemma after_snoc (rs : list AnyRouter) r : after (rs ++ [r]) = mk (Some r).
Proof. unfold after. rewrite fold_left_app. reflexivity. Qed.

Lemma after_field (rs : list AnyRouter) : _appRouter (after rs) = last rs.
Proof.
  destruct rs as [|r rs] using rev_ind; [reflexivity|].
  rewrite after_snoc, last_snoc. reflexivity.
Qed.

(** C8: in every state of a host (the state after any sequence [rs] of
    assignments) the getter throws exactly when nothing was assigned,
    [isRouterReady] is true exactly when something was, [getRouterSafe]
    returns a value (it has no throwing path) that is [undefined] exactly
    when nothing was assigned, and after an assignment of [r] all three
    agree on [r]. *)
Theorem host_access_discipline (rs : list AnyRouter) :
  (throws (appRouter (after rs)) <-> rs = []) /\
  (isRouterReady (after rs) = true <-> rs <> []) /\
  (getRouterSafe (after rs) = None <-> rs = []) /\
  (forall rs' r, rs = rs' ++ [r] ->
     appRouter (after rs) = inr r /\
     isRouterReady (after rs) = true /\
     getRouterSafe (after rs) = Some r).
Proof.
  unfold throws, appRouter, isRouterReady, getRouterSafe.
  rewrite after_field.
  destruct rs as [|r0 rs0 _] using rev_ind.
  - simpl. split; [|split; [|split]].
    + split; [reflexivity | eauto].
    + split; [discriminate | congruence].
    + split; reflexivity.
    + intros rs' r E. by destruct rs'.
  - rewrite last_snoc.
    assert (Hne : rs0 ++ [r0] <> []) by (by destruct rs0).
    split; [|split; [|split]].
    + split; [intros [e He]; discriminate | intros E; by destruct Hne].
    + split; [intros _; exact Hne | reflexivity].
    + split; [discriminate | intros E; by destruct Hne].
    + intros rs' r E. apply app_inj_tail in E as [_ ->]. done.
Qed.
End HostProperties.

(** ** Node's [path] module on examples *)

Example dirname_examples :
  NodePath.dirname (str "/a/b/c.ts") = str "/a/b" /\
  NodePath.dirname (str "/a") = str "/" /\
  NodePath.dirname (str "/") = str "/" /\
  NodePath.dirname (str "//a") = str "//" /\
  NodePath.dirname (str "//") = str "/" /\
  NodePath.dirname (str "a/b.ts") = str "a" /\
  NodePath.dirname (str "a") = str "." /\
  NodePath.dirname (str ".") = str "." /\
  NodePath.dirname (str "a//b/") = str "a/" /\
  NodePath.dirname (str "") = str ".".
Proof. repeat split. Qed.

Example join_examples :
  NodePath.join [str "/a/b"; str "tsconfig.json"] = str "/a/b/tsconfig.json" /\
  NodePath.join [str "."; str "tsconfig.json"] = str "tsconfig.json" /\
  NodePath.join [str "//"; str "tsconfig.json"] = str "/tsconfig.json" /\
  NodePath.join [str "/a/../b"; str "tsconfig.json"] = str "/b/tsconfig.json" /\
  NodePath.join [str "../x"; str "tsconfig.json"] = str "../x/tsconfig.json".
Proof. repeat split. Qed.

Example resolve_examples :
  NodePath.resolve (str "/work") [str "/proj"; str "./src/zod/index.ts"]
    = str "/proj/src/zod/index.ts" /\
  NodePath.resolve (str "/work") [str "proj"; str "../x.ts"] = str "/work/x.ts" /\
  NodePath.resolve (str "/work") [str "/proj"; str "/abs/x.ts"] = str "/abs/x.ts" /\
  NodePath.resolve (str "/work") [str "/proj"; str ""] = str "/proj".
Proof. repeat split. Qed.

Example resolve_alias_example :
  PathResolution.resolvePathWithAliases (str "/work") (str "@/zod/index.ts")
    [(str "@/*", [str "./src/*"])] (str "/proj")
  = Some (str "/proj/src/zod/index.ts").
Proof. reflexivity. Qed.

Example find_tsconfig_example :
  PathResolution.findTsConfigFile
    (fun p => bool_decide (p = str "/proj/tsconfig.json")) 5
    (str "/proj/src/app/app.module.ts")
  = Some (Some (str "/proj/tsconfig.json")).
Proof. reflexivity. Qed.

(** The root directory is left out of the search. *)
Example find_tsconfig_root_example :
  PathResolution.findTsConfigFile
    (fun p => bool_decide (p = str "/tsconfig.json")) 5
    (str "/proj/src/app.module.ts")
  = Some None.
Proof. reflexivity. Qed.

(** ** Properties of the path utilities *)

Lemma dropWhile_length f s : length (dropWhile f s) <= length s.
Proof. induction s as [|c s IH]; simpl; [lia|]. destruct (f c); simpl; lia. Qed.

Lemma dropWhile_head f s c s' : dropWhile f s = c :: s' -> f c = false.
Proof.
  induction s as [|x s IH]; simpl; [discriminate|].
  destruct (f x) eqn:Hx; [exact IH|].
  intros E. injection E as -> _. exact Hx.
Qed.

Section AbsoluteStart.
Import NodePath PathResolution.

Lemma isAbsolute_cons p :
  isAbsolute p = true -> exists rest, p = "/" :: rest.
Proof.
  destruct p as [|c rest]; simpl; [discriminate|].
  unfold isSlash, ascii_eqb. intros H%Ascii.eqb_eq. subst. eauto.
Qed.

(** Shape of [dirname] on a rooted path: rooted again, and shorter unless
    the path is the root itself. *)
Lemma dirname_absolute p :
  isAbsolute p = true ->
  isAbsolute (dirname p) = true /\
  (p <> ["/"] -> length (dirname p) < length p).
Proof.
  intros [rest ->]%isAbsolute_cons. unfold dirname. cbv zeta.
  change (isSlash "/") with true. cbv iota.
  pose proof (dropWhile_length isSlash (rev rest)) as L1.
  rewrite length_rev in L1.
  destruct (dropWhile isSlash (rev rest)) as [|a l] eqn:E1.
  - simpl. split; [reflexivity|]. intros Hne. destruct rest; [done|simpl; lia].
  - apply dropWhile_head in E1 as Ha.
    pose proof (dropWhile_length (fun c => negb (isSlash c)) l) as L2.
    simpl dropWhile. rewrite Ha. simpl negb. cbv iota.
    simpl in L1.
    destruct (dropWhile (fun c => negb (isSlash c)) l) as [|b r3] eqn:E2.
    + simpl. split; [reflexivity|]. intros _. lia.
    + simpl in L2. simpl andb.
      destruct (Nat.eqb (length r3) 0); simpl; split; try reflexivity;
        intros _; rewrite ?length_rev; lia.
Qed.

Lemma findLoop_absolute existsSync fuel d :
  isAbsolute d = true -> length d <= fuel ->
  exists r, findLoop existsSync ["/"] fuel d = Some r.
Proof.
  revert d. induction fuel as [|fuel IH]; intros d Habs Hlen.
  - apply isAbsolute_cons in Habs as [rest ->]. simpl in Hlen. lia.
  - simpl. case_decide as Hd; [eauto|].
    destruct (existsSync _); [eauto|].
    destruct (dirname_absolute d Habs) as [Habs' Hshort].
    apply IH; [exact Habs'|]. specialize (Hshort Hd). lia.
Qed.

Lemma findLoop_more_fuel existsSync root fuel fuel' d r :
  findLoop existsSync root fuel d = Some r -> fuel <= fuel' ->
  findLoop existsSync root fuel' d = Some r.
Proof.
  revert fuel' d. induction fuel as [|fuel IH]; intros fuel' d; [discriminate|].
  intros H Hle. destruct fuel' as [|fuel']; [lia|].
  simpl in *. case_decide; [exact H|].
  destruct (existsSync _); [exact H|]. apply IH; [exact H | lia].
Qed.

Lemma findLoop_nearest existsSync fuel d :
  isAbsolute d = true -> length d <= fuel ->
  findLoop existsSync ["/"] fuel d =
  Some (option_map (fun d' => join [d'; tsconfig_json])
          (List.find (hasTsConfig existsSync) (dirsBelowRoot fuel d))).
Proof.
  revert d. induction fuel as [|fuel IH]; intros d Habs Hlen.
  - apply isAbsolute_cons in Habs as [rest ->]. simpl in Hlen. lia.
  - simpl. case_decide as Hd; [reflexivity|].
    simpl. unfold hasTsConfig at 1.
    destruct (existsSync _); [reflexivity|].
    destruct (dirname_absolute d Habs) as [Habs' Hshort].
    apply IH; [exact Habs'|]. specialize (Hshort Hd). lia.
Qed.

Lemma findTsConfigFile_nearest existsSync fuel startPath :
  isAbsolute startPath = true -> length startPath <= fuel ->
  findTsConfigFile existsSync fuel startPath =
  Some (option_map (fun d => join [d; tsconfig_json])
          (List.find (hasTsConfig existsSync)
             (dirsBelowRoot fuel (dirname startPath)))).
Proof.
  intros Habs Hfuel. unfold findTsConfigFile.
  destruct (dirname_absolute startPath Habs) as [Habs' Hshort].
  unfold parse_root. rewrite Habs'.
  apply findLoop_nearest; [exact Habs'|].
  destruct (decide (startPath = ["/"])) as [->|Hne]; [simpl in *; lia|].
  specialize (Hshort Hne). lia.
Qed.

(** X1: for a rooted start path the search ends within [length startPath]
    iterations, and returns the tsconfig.json of the nearest directory
    above the start file, the root excluded, that has one. *)
Theorem findTsConfigFile_absolute existsSync startPath :
  isAbsolute startPath = true ->
  findTsConfigFile existsSync (length startPath) startPath =
  Some (option_map (fun d => join [d; tsconfig_json])
          (List.find (hasTsConfig existsSync)
             (dirsBelowRoot (length startPath) (dirname startPath)))).
Proof.
  intros Habs. unfold findTsConfigFile.
  destruct (dirname_absolute startPath Habs) as [Habs' Hshort].
  unfold parse_root. rewrite Habs'.
  apply findLoop_nearest; [exact Habs'|].
  destruct (decide (startPath = ["/"])) as [->|Hne]; [simpl; lia|].
  specialize (Hshort Hne). lia.
Qed.

Lemma findTsConfigFile_absolute_witness :
  findTsConfigFile (fun p => bool_decide (p = str "/proj/tsconfig.json"))
    (length (str "/proj/src/a.ts")) (str "/proj/src/a.ts")
  = Some (Some (str "/proj/tsconfig.json")).
Proof.
  exact (findTsConfigFile_absolute
           (fun p => bool_decide (p = str "/proj/tsconfig.json"))
           (str "/proj/src/a.ts") eq_refl).
Defined.
End AbsoluteStart.

Section RelativeStart.
Import NodePath PathResolution.

(** Once the walk reaches ".", it stays there: [dirname "."] is "." and
    the root of a relative path is the empty string. *)
Lemma findLoop_dot_stuck existsSync fuel :
  existsSync (join [["."]; tsconfig_json]) = false ->
  findLoop existsSync [] fuel ["."] = None.
Proof.
  intros Hno. induction fuel as [|fuel IH]; [reflexivity|].
  cbn [findLoop]. destruct (decide _) as [E|_]; [discriminate E|].
  rewrite Hno. exact IH.
Qed.

Lemma dirname_not_empty p : dirname p <> [].
Proof.
  unfold dirname. destruct p as [|c0 rest]; [discriminate|]. cbv zeta.
  destruct (dropWhile isSlash (rev rest)) as [|a l];
    [destruct (isSlash c0); discriminate|].
  destruct (dropWhile _ (a :: l)) as [|b r3];
    [destruct (isSlash c0); discriminate|].
  destruct (_ && _); discriminate.
Qed.

(** With the empty string for root, the loop ends only by finding a
    tsconfig.json: the current directory is never the empty string. *)
Lemma findLoop_empty_root_never_ends fuel d :
  d <> [] -> findLoop noTsConfig [] fuel d = None.
Proof.
  revert d. induction fuel as [|fuel IH]; intros d Hd; [reflexivity|].
  cbn [findLoop]. destruct (decide _) as [E|_]; [contradiction|].
  unfold noTsConfig at 1. cbv iota. apply IH, dirname_not_empty.
Qed.

(** For every start path that is not absolute, in a file system without
    tsconfig.json, no number of iterations ends the search. *)
Lemma findTsConfigFile_relative_never_ends fuel startPath :
  isAbsolute startPath = false ->
  findTsConfigFile noTsConfig fuel startPath = None.
Proof.
  intros Hrel. unfold findTsConfigFile.
  assert (Hroot : parse_root (dirname startPath) = []).
  { unfold parse_root, dirname. destruct startPath as [|c0 rest]; [reflexivity|].
    cbv zeta. simpl in Hrel. rewrite Hrel. cbn [andb].
    destruct (dropWhile isSlash (rev rest)) as [|a l]; [reflexivity|].
    destruct (dropWhile _ (a :: l)) as [|b r3]; [reflexivity|].
    simpl. by rewrite Hrel. }
  rewrite Hroot. apply findLoop_empty_root_never_ends, dirname_not_empty.
Qed.

Lemma findLoop_ext f g root fuel d :
  (forall d', hasTsConfig f d' = hasTsConfig g d') ->
  findLoop f root fuel d = findLoop g root fuel d.
Proof.
  intros Hfg. revert d. induction fuel as [|fuel IH]; intros d; [reflexivity|].
  cbn [findLoop]. destruct (decide _); [reflexivity|].
  unfold hasTsConfig in Hfg. rewrite Hfg, IH. reflexivity.
Qed.

(** The same in any file system in which no directory holds a
    tsconfig.json. *)
Lemma findTsConfigFile_relative_unending existsSync fuel startPath :
  isAbsolute startPath = false ->
  (forall d, hasTsConfig existsSync d = false) ->
  findTsConfigFile existsSync fuel startPath = None.
Proof.
  intros Hrel Hnone.
  rewrite <- (findTsConfigFile_relative_never_ends fuel startPath Hrel).
  unfold findTsConfigFile. apply findLoop_ext. exact Hnone.
Qed.

(** C10 (failing input): for the relative start path "a/b.ts" in a file
    system without tsconfig.json, no number of loop iterations ends the
    search: the loop of [findTsConfigFile] does not terminate. *)
Theorem findTsConfigFile_relative_diverges (fuel : nat) :
  findTsConfigFile noTsConfig fuel (str "a/b.ts") = None.
Proof. apply findTsConfigFile_relative_never_ends. reflexivity. Qed.

(** A start path with two leading slashes makes the walk pass through
    "//", whose tsconfig.json is the root's. *)
Example findTsConfigFile_double_slash :
  findTsConfigFile (fun p => bool_decide (p = str "/tsconfig.json")) 5
    (str "//a/b.ts")
  = Some (Some (str "/tsconfig.json")).
Proof. reflexivity. Qed.
End RelativeStart.

(** What the replacement of the source does, said without the loop: a
    text that ends in "/*" loses the star, any other text stays. *)
Lemma replace_slash_star_final : replace_slash_star ["/"; "*"] = ["/"].
Proof. reflexivity. Qed.

Lemma replace_slash_star_cons c s :
  c :: s <> ["/"; "*"] ->
  replace_slash_star (c :: s) = c :: replace_slash_star s.
Proof.
  intros Hne.
  destruct (decide (c = "/")) as [->|Hc].
  - destruct s as [|d t]; [reflexivity|].
    destruct (decide (d = "*")) as [->|Hd].
    + destruct t as [|e t']; [by destruct Hne | reflexivity].
    + destruct d as [[] [] [] [] [] [] [] []]; try reflexivity.
      by destruct Hd.
  - destruct c as [[] [] [] [] [] [] [] []]; try reflexivity.
    by destruct Hc.
Qed.

Lemma endsWith_cons c (s suffix : jsstring) :
  length suffix <= length s -> endsWith (c :: s) suffix = endsWith s suffix.
Proof.
  unfold endsWith. intros Hlen. cbn [rev].
  rewrite <- (length_rev suffix), <- (length_rev s) in Hlen.
  revert Hlen. generalize (rev s) (rev suffix). clear.
  intros l p. revert l. induction p as [|b p IH]; intros [|a l] Hlen;
    simpl in *; try reflexivity; try lia.
  rewrite IH by lia. reflexivity.
Qed.

Lemma replace_slash_star_spec s :
  replace_slash_star s = trailingStarReplaced s.
Proof.
  induction s as [|c s IH]; [reflexivity|].
  destruct (decide (c :: s = ["/"; "*"])) as [E|Hne].
  { injection E as -> ->. reflexivity. }
  rewrite (replace_slash_star_cons _ _ Hne), IH.
  unfold trailingStarReplaced.
  destruct s as [|d [|e t]].
  - unfold endsWith. simpl. by rewrite andb_false_r.
  - assert (Hends : endsWith [c; d] (str "/*") = false).
    { unfold endsWith. simpl.
      destruct (ascii_eqb d "*") eqn:Ed; [|reflexivity].
      destruct (ascii_eqb c "/") eqn:Ec; [|reflexivity].
      apply Ascii.eqb_eq in Ed, Ec. subst. by destruct Hne. }
    rewrite Hends. unfold endsWith. simpl. by rewrite andb_false_r.
  - rewrite (endsWith_cons c (d :: e :: t)) by (simpl; lia).
    destruct (endsWith (d :: e :: t) (str "/*")); [|reflexivity].
    cbn [length Nat.sub]. rewrite Nat.sub_0_r. reflexivity.
Qed.

(** The two cases of the replacement, as the claim words them. *)
Lemma trailingStarReplaced_cases (stem pattern : jsstring) :
  trailingStarReplaced (stem ++ str "/*") = stem ++ str "/" /\
  (endsWith pattern (str "/*") = false ->
   trailingStarReplaced pattern = pattern).
Proof.
  split.
  - unfold trailingStarReplaced, endsWith.
    rewrite rev_app_distr. cbn [rev app str list_ascii_of_string startsWith].
    rewrite !Ascii.eqb_refl. cbn [andb].
    rewrite length_app. cbn [length].
    replace (length stem + 2 - 2) with (length stem) by lia.
    by rewrite take_app_length.
  - unfold trailingStarReplaced. by intros ->.
Qed.

(** C2: [resolvePathWithAliases] computes what the specification says: an
    absolute path is returned as it is; otherwise the first alias entry, in
    enumeration order, that has a target and whose pattern (a final "/*"
    turned into "/") is a prefix of the path decides, and the result is
    [path.resolve(basePath, t + s)]; a path that matches no alias is resolved
    against [basePath]. *)
Theorem resolvePathWithAliases_spec
    (cwd p : jsstring) (pathAliases : list (jsstring * list jsstring))
    (basePath : jsstring) :
  PathResolution.resolvePathWithAliases cwd p pathAliases basePath
  = PathResolution.resolveSpec cwd p pathAliases basePath.
Proof.
  unfold PathResolution.resolvePathWithAliases, PathResolution.resolveSpec.
  destruct (NodePath.isAbsolute p); [reflexivity|].
  assert (Hloop : PathResolution.aliasLoop cwd p basePath pathAliases =
    match List.find (PathResolution.aliasMatches p) pathAliases with
    | Some (alias, targets) =>
        Some (NodePath.resolve cwd
                [basePath;
                 trailingStarReplaced (List.hd [] targets)
                 ++ drop (length (trailingStarReplaced alias)) p])
    | None => None
    end).
  { induction pathAliases as [|[alias targets] more IH]; [reflexivity|].
    simpl. unfold PathResolution.aliasMatches at 1. simpl.
    destruct targets as [|t ts]; simpl; [exact IH|].
    rewrite !replace_slash_star_spec.
    destruct (startsWith p (trailingStarReplaced alias));
      [reflexivity | exact IH]. }
  rewrite Hloop.
  destruct (List.find _ pathAliases) as [[alias targets]|]; [reflexivity|].
  destruct (_ || _); reflexivity.
Qed.

(** ** Import handling and regular expressions on examples *)

Example parseNamedImports_example :
  Inject.parseNamedImports (str " a,  b as c ,, d
 ") = [str "a"; str "b as c"; str "d"].
Proof. reflexivity. Qed.

Example specifierName_examples :
  map TsMorph.specifierName
    [str "z"; str "b as c"; str "type T"; str "type T as U"; str "type as T";
     str "type"; str "as"]
  = [str "z"; str "b"; str "T"; str "T"; str "type"; str "type"; str "as"].
Proof. reflexivity. Qed.

(** A named import goes behind the named imports of a declaration, or
    behind its default import; a namespace import excludes it. *)
Example addNamedImport_examples :
  TsMorph.addNamedImport (str "q") (TsMorph.mkImport (str "y") [str "p"])
    = inr (TsMorph.mkImport (str "y") [str "p"; str "q"]) /\
  TsMorph.addNamedImport (str "q")
    (TsMorph.mkImportDeclaration (str "y") (Some (str "x")) None [])
    = inr (TsMorph.mkImportDeclaration (str "y") (Some (str "x")) None
             [str "q"]) /\
  TsMorph.addNamedImport (str "q")
    (TsMorph.mkImportDeclaration (str "y") None (Some (str "ns")) [])
    = inl TsMorph.namespaceImportExists.
Proof. repeat split. Qed.

(** The reader of the examples on the shapes of import statement. *)
Example importsIn_examples :
  map SplicedImports.importsIn
    [str "import x from 'y';"; str "import * as ns from 'y'";
     str "import { a, b as c } from 'm';"; str "import './register';";
     str "import x, { a } from 'y';"; str "import type { T } from 'm';";
     str "export const s = z.object({})"]
  = [[TsMorph.mkImportDeclaration (str "y") (Some (str "x")) None []];
     [TsMorph.mkImportDeclaration (str "y") None (Some (str "ns")) []];
     [TsMorph.mkImport (str "m") [str "a"; str "b as c"]];
     [TsMorph.mkImportDeclaration (str "./register") None None []];
     [TsMorph.mkImportDeclaration (str "y") (Some (str "x")) None [str "a"]];
     [TsMorph.mkImport (str "m") [str "T"]];
     []].
Proof. reflexivity. Qed.

Example processImport_example :
  let sf := TsMorph.mkSourceFile [TsMorph.mkImport (str "zod") [str "z"]] [] in
  let after :=
    Inject.processImport (sf, Inject.buildExistingImports sf)
      (str "zod", str " z, ZodType ") in
  fst (fst after)
    = TsMorph.mkSourceFile
        [TsMorph.mkImport (str "zod") [str "z"; str "ZodType"]] [] /\
  snd after = None.
Proof. vm_compute. split; reflexivity. Qed.

Example execAll_example :
  map (fun mt => (Regex.namedImportsText mt, Regex.moduleSpecifierText mt))
    (Regex.execAll 0
       (str ("import { z } from 'zod';" ++ lf ++
             "import x from 'y';" ++ lf ++
             "import  {a,b}  from " ++ dq ++ "m" ++ dq ++ lf ++ "const q = 1;")))
  = [(str " z ", str "zod"); (str "a,b", str "m")].
Proof. reflexivity. Qed.

Example cleanup_examples :
  Regex.cleanup (str ("const a = 1;" ++ lf ++ "const b = 2;"))
    = str ("const a = 1" ++ lf ++ "const b = 2;") /\
  Regex.cleanup (str "for (;;) {}") = str "for (;) {}" /\
  Regex.cleanup (str ("a" ++ lf ++ "  ;b; ;c ;  " ++ lf ++ lf ++ " d"))
    = str ("a" ++ lf ++ "b;c" ++ lf ++ " d") /\
  Regex.cleanup (str ";;;") = str ";".
Proof. repeat split. Qed.

Example injectRegex_example :
  InjectFile.injectRegex SplicedImports.importsIn
    (TsMorph.mkSourceFile [TsMorph.mkImport (str "zod") [str "z"]] [])
    (str ("import { z, ZodType } from 'zod';" ++ lf ++
          "import { User } from './user';" ++ lf ++ lf ++
          "export const userSchema = z.object({})" ++ lf))
  = (TsMorph.mkSourceFile
       [TsMorph.mkImport (str "zod") [str "z"; str "ZodType"];
        TsMorph.mkImport (str "./user") [str "User"]]
       [str "export const userSchema = z.object({})"],
     None).
Proof. vm_compute. reflexivity. Qed.

Example injectAst_example :
  InjectFile.injectAst SplicedImports.importsIn
    (TsMorph.mkSourceFile [TsMorph.mkImport (str "zod") [str "z"]] [])
    [InjectFile.mkStatement true (str "import { z, ZodType } from 'zod';");
     InjectFile.mkStatement true (str "import { User } from './user';");
     InjectFile.mkStatement false (str "export const userSchema = z.object({})")]
  = (TsMorph.mkSourceFile
       [TsMorph.mkImport (str "zod") [str "z"; str "ZodType"];
        TsMorph.mkImport (str "./user") [str "User"]]
       [str "export const userSchema = z.object({})"],
     None).
Proof. vm_compute. reflexivity. Qed.

(** A default import that came in with spliced text is an import
    declaration of the file: a later named import from its module goes
    into it.  A namespace import makes [addNamedImport] throw, which ends
    the handling of the file: nothing of it is added. *)
Example injectRegex_after_spliced_imports :
  let afterDefault :=
    fst (InjectFile.injectRegex SplicedImports.importsIn
           TsMorph.emptySourceFile (str "import x from 'y';")) in
  let afterNamespace :=
    fst (InjectFile.injectRegex SplicedImports.importsIn
           TsMorph.emptySourceFile (str "import * as y from 'y'")) in
  let second :=
    str ("import { q } from 'y';" ++ lf ++ "export const k = 1;") in
  InjectFile.injectRegex SplicedImports.importsIn afterDefault second
    = (TsMorph.mkSourceFile
         [TsMorph.mkImportDeclaration (str "y") (Some (str "x")) None
            [str "q"]]
         [str "import x from 'y';"; str "export const k = 1;"],
       None) /\
  InjectFile.injectRegex SplicedImports.importsIn afterNamespace second
    = (afterNamespace, Some TsMorph.namespaceImportExists).
Proof. vm_compute. split; reflexivity. Qed.

(** ** Loops that a throw ends *)

Section ForEachTry.
Context {S A : Type}.
Variable f : S -> A -> S * option Error.

Lemma forEachTry_cons x more s :
  forEachTry f (x :: more) s
  = match snd (f s x) with
    | None => forEachTry f more (fst (f s x))
    | Some e => (fst (f s x), Some e)
    end.
Proof. cbn [forEachTry]. by destruct (f s x) as [s' [e|]]. Qed.

Lemma forEachTry_app xs ys s :
  forEachTry f (xs ++ ys) s
  = match snd (forEachTry f xs s) with
    | None => forEachTry f ys (fst (forEachTry f xs s))
    | Some e => (fst (forEachTry f xs s), Some e)
    end.
Proof.
  revert s. induction xs as [|x xs IH]; intros s; [reflexivity|].
  cbn [app]. rewrite !forEachTry_cons.
  destruct (snd (f s x)); [reflexivity | apply IH].
Qed.

(** An invariant of the steps and a relation between the states before
    and after a step carry over to the loop, however it ends. *)
Lemma forEachTry_lift (P : A -> Prop) (I : S -> Prop) (R : S -> S -> Prop)
    xs :
  (forall s, R s s) -> (forall a b c, R a b -> R b c -> R a c) ->
  (forall s x, P x -> I s -> I (fst (f s x)) /\ R s (fst (f s x))) ->
  Forall P xs ->
  forall s, I s ->
    I (fst (forEachTry f xs s)) /\ R s (fst (forEachTry f xs s)).
Proof.
  intros Hrefl Htrans Hstep. induction 1 as [|x xs Hx Hxs IH]; intros s Hs.
  - split; [exact Hs | apply Hrefl].
  - rewrite forEachTry_cons.
    destruct (Hstep s x Hx Hs) as [H1 R1].
    destruct (snd (f s x)); [by split|].
    destruct (IH (fst (f s x)) H1) as [H2 R2].
    split; [exact H2 | by eapply Htrans].
Qed.



End ForEachTry.

(** ** The names of import specifiers *)

Section SpecifierNames.
Import TsMorph ImportOnly ImportArrival.





Lemma plainChar_inv c :
  plainChar c = true ->
  is_space c = false /\ ascii_eqb c ":" = false /\ ascii_eqb c "," = false /\
  Regex.notRBrace c = true /\ Regex.notQuote c = true.
Proof.
  destruct c as [[] [] [] [] [] [] [] []]; vm_compute; intros H;
    first [discriminate H | repeat split].
Qed.

Lemma plainName_chars n : plainName n = true -> forallb plainChar n = true.
Proof.
  destruct n as [|c n]; [discriminate|]. unfold plainName.
  by intros [[_ H]%andb_true_iff _]%andb_true_iff.
Qed.



End SpecifierNames.

(** ** The set [existingImports] and the import declarations *)

Section ExistingImports.
Import TsMorph Inject InjectFile ImportDedup ImportArrival.

Lemma elem_of_declKeys x d :
  x ∈ declKeys d <->
  x = moduleSpecifier d \/
  exists n, n ∈ importedNames d /\ x = importKey (moduleSpecifier d) n.
Proof.
  unfold declKeys.
  rewrite elem_of_union, elem_of_singleton, elem_of_list_to_set,
    list_elem_of_fmap.
  split; (intros [H|(n & H1 & H2)]; [by left | right; eauto]).
Qed.

Lemma elem_of_keys x decls :
  x ∈ ⋃ (map declKeys decls) <->
  exists d, d ∈ decls /\ x ∈ declKeys d.
Proof.
  rewrite elem_of_union_list. split.
  - intros (X & HX & Hx). apply list_elem_of_fmap in HX as (d & -> & Hd). eauto.
  - intros (d & Hd & Hx). exists (declKeys d). split; [|exact Hx].
    apply list_elem_of_fmap. eauto.
Qed.








(** *** Counting *)













(** *** [addNamedImport] on the first declaration for a module *)


Lemma addNamedImportFirst_spec m n decls :
  match addNamedImportFirst (hasSpecifier m) n decls with
  | inr decls' =>
      ((forall d, d ∈ decls -> moduleSpecifier d <> m) /\ decls' = decls) \/
      exists pre d post,
        decls = pre ++ d :: post /\
        (forall d0, d0 ∈ pre -> moduleSpecifier d0 <> m) /\
        moduleSpecifier d = m /\
        decls' = pre ++ withNamedImport n d :: post
  | inl e =>
      e = namespaceImportExists /\
      exists pre d post,
        decls = pre ++ d :: post /\
        (forall d0, d0 ∈ pre -> moduleSpecifier d0 <> m) /\
        moduleSpecifier d = m /\
        namedImports d = [] /\ namespaceImport d <> None
  end.
Proof.
  induction decls as [|d more IH]; cbn [addNamedImportFirst].
  { left. split; [|reflexivity]. intros d Hd. by inversion Hd. }
  unfold hasSpecifier at 1. case_bool_decide as Hd.
  - unfold addNamedImport.
    destruct (namedImports d) as [|x names] eqn:En.
    + destruct (namespaceImport d) as [ns|] eqn:Ens.
      * split; [reflexivity|]. exists [], d, more.
        split; [reflexivity|]. split; [intros d0 H0; by inversion H0|].
        split; [exact Hd|]. split; [exact En|]. by rewrite Ens.
      * right. exists [], d, more. split; [reflexivity|].
        split; [intros d0 H0; by inversion H0|]. by split.
    + right. exists [], d, more. split; [reflexivity|].
      split; [intros d0 H0; by inversion H0|]. by split.
  - destruct (addNamedImportFirst (hasSpecifier m) n more) as [e|more'].
    + destruct IH as (-> & pre & d1 & post & -> & Hpre & Hd1 & Hn & Hns).
      split; [reflexivity|]. exists (d :: pre), d1, post.
      split; [reflexivity|]. split; [|by repeat split].
      intros d0 [->|H0]%elem_of_cons; [exact Hd | by apply Hpre].
    + destruct IH as [[Hno ->]|(pre & d1 & post & -> & Hpre & Hd1 & ->)].
      * left. split; [|reflexivity].
        intros d0 [->|H0]%elem_of_cons; [exact Hd | by apply Hno].
      * right. exists (d :: pre), d1, post. split; [reflexivity|].
        split; [|by split].
        intros d0 [->|H0]%elem_of_cons; [exact Hd | by apply Hpre].
Qed.

End ExistingImports.

(** ** The import loop *)

Section ImportLoop.
Import TsMorph Inject InjectFile ImportDedup ImportArrival.

(** *** Growth *)

Lemma declGrows_refl d : declGrows d d.
Proof. by repeat split. Qed.

Lemma declGrows_trans d1 d2 d3 :
  declGrows d1 d2 -> declGrows d2 d3 -> declGrows d1 d3.
Proof.
  intros (S1 & D1 & N1 & P1) (S2 & D2 & N2 & P2).
  repeat split; [congruence.. | by etrans].
Qed.

Lemma declGrows_withNamedImport n d : declGrows d (withNamedImport n d).
Proof. repeat split. simpl. by apply prefix_app_r. Qed.

Lemma Forall2_declGrows_refl decls : Forall2 declGrows decls decls.
Proof.
  apply Forall_Forall2_diag, Forall_forall. intros d _. apply declGrows_refl.
Qed.

Lemma declsGrow_refl decls : declsGrow decls decls.
Proof.
  exists decls, []. split; [by rewrite app_nil_r|].
  apply Forall2_declGrows_refl.
Qed.

Lemma declsGrow_trans d1 d2 d3 :
  declsGrow d1 d2 -> declsGrow d2 d3 -> declsGrow d1 d3.
Proof.
  intros (k1 & a1 & E1 & F1) (k2 & a2 & E2 & F2).
  rewrite E1 in F2.
  apply Forall2_app_inv_l in F2 as (k2a & k2b & Fa & Fb & ->).
  exists k2a, (k2b ++ a2). split; [by rewrite E2, app_assoc|].
  eapply Forall2_trans; [|exact F1 | exact Fa].
  intros x y z. apply declGrows_trans.
Qed.

Lemma declsGrow_app decls added : declsGrow decls (decls ++ added).
Proof. exists decls, added. split; [reflexivity | apply Forall2_declGrows_refl]. Qed.

Lemma fileGrows_refl sf : fileGrows sf sf.
Proof. split; [apply declsGrow_refl | reflexivity]. Qed.

Lemma fileGrows_trans sf1 sf2 sf3 :
  fileGrows sf1 sf2 -> fileGrows sf2 sf3 -> fileGrows sf1 sf3.
Proof.
  intros [D1 P1] [D2 P2].
  split; [by eapply declsGrow_trans | by etrans].
Qed.

Lemma addStatements_grows importsIn text sf :
  fileGrows sf (addStatements importsIn text sf).
Proof. split; [apply declsGrow_app | by apply prefix_app_r]. Qed.





(** *** One named import *)

(** What holds of a step whatever the names: the file grows, no text is
    handed to [addStatements], the set grows and holds the key when the
    step returned; a step that threw changed nothing. *)
Lemma processNamedImport_basic m n sf ex :
  let r := processNamedImport m (sf, ex) n in
  fileGrows sf (fst (fst r)) /\
  statements (fst (fst r)) = statements sf /\
  ex ⊆ snd (fst r) /\
  (snd r = None -> importKey m n ∈ snd (fst r)) /\
  (snd r <> None -> fst r = (sf, ex)).
Proof.
  unfold processNamedImport.
  destruct (decide (importKey m n ∈ ex)) as [Hk|Hk]; cbn [fst snd].
  { split; [apply fileGrows_refl|]. by repeat split. }
  destruct (decide (m ∈ ex)) as [Hm|Hm].
  - pose proof (addNamedImportFirst_spec m n (importDeclarations sf)) as Hspec.
    destruct (addNamedImportFirst _ n _) as [e|decls']; cbn [fst snd].
    { split; [apply fileGrows_refl|]. by repeat split. }
    split; [|split; [reflexivity|]].
    + split; [|reflexivity]. cbn [importDeclarations].
      destruct Hspec as [[_ ->]|(pre & d & post & -> & _ & _ & ->)];
        [apply declsGrow_refl|].
      exists (pre ++ withNamedImport n d :: post), [].
      split; [by rewrite app_nil_r|].
      apply Forall2_app; [apply Forall2_declGrows_refl|].
      constructor;
        [apply declGrows_withNamedImport | apply Forall2_declGrows_refl].
    + split; [apply union_subseteq_r|].
      split; [intros _; apply elem_of_union_l, elem_of_singleton; reflexivity|].
      by intros [].
  - cbn [fst snd]. split; [split; [apply declsGrow_app | reflexivity]|].
    split; [reflexivity|].
    split; [intros x Hx; apply elem_of_union_r, elem_of_union_r, Hx|].
    split; [intros _; apply elem_of_union_l, elem_of_singleton; reflexivity|].
    by intros [].
Qed.








End ImportLoop.

(** ** The two variants, step by step *)

Section Steps.
Import TsMorph Inject InjectFile ImportDedup ImportArrival.
Variable importsIn : jsstring -> list ImportDeclaration.

Lemma forEachTry_map {S A B} (f : S -> B -> S * option Error) (g : A -> B)
    xs s :
  forEachTry f (map g xs) s = forEachTry (fun s x => f s (g x)) xs s.
Proof.
  revert s. induction xs as [|x xs IH]; intros s; [reflexivity|].
  cbn [map forEachTry]. destruct (f s (g x)) as [s' [e|]]; [reflexivity|].
  apply IH.
Qed.

Lemma injectAst_steps sf stmts :
  injectAst importsIn sf stmts
  = let '(st, thrown) :=
      forEachTry (runStep importsIn) (map stepOfStatement stmts)
        (sf, buildExistingImports sf) in
    (fst st, thrown).
Proof.
  unfold injectAst. rewrite forEachTry_map.
  assert (E : forall xs s,
            forEachTry (injectStatement importsIn) xs s
            = forEachTry (fun s x => runStep importsIn s (stepOfStatement x))
                xs s).
  { induction xs as [|x xs IH]; intros s; [reflexivity|].
    cbn [forEachTry].
    assert (Hx : injectStatement importsIn s x
                 = runStep importsIn s (stepOfStatement x)).
    { unfold injectStatement, stepOfStatement.
      by destruct (isImportDeclaration x). }
    rewrite Hx. destruct (runStep _ _ _) as [s' [e|]]; [reflexivity|].
    apply IH. }
  by rewrite E.
Qed.

Lemma injectRegex_steps sf fileContent :
  injectRegex importsIn sf fileContent
  = let '(st, thrown) :=
      forEachTry (runStep importsIn) (stepsOfContent fileContent)
        (sf, buildExistingImports sf) in
    (fst st, thrown).
Proof.
  unfold injectRegex, stepsOfContent, matchedImports.
  rewrite forEachTry_app, map_map, forEachTry_map. cbn [runStep].
  destruct (forEachTry _ (Regex.execAll 0 fileContent) _)
    as [[sf1 ex1] [e|]]; cbn [fst snd]; [reflexivity|].
  by destruct (cleanedContent fileContent).
Qed.

End Steps.

(** ** What the import loop keeps *)

Section LoopInvariants.
Import TsMorph Inject InjectFile ImportDedup ImportArrival.
Variable importsIn : jsstring -> list ImportDeclaration.

Lemma stateGrows_refl (st : SourceFile * gset jsstring) : stateGrows st st.
Proof. split; [apply fileGrows_refl | done]. Qed.

Lemma stateGrows_trans (a b c : SourceFile * gset jsstring) :
  stateGrows a b -> stateGrows b c -> stateGrows a c.
Proof.
  intros [F1 S1] [F2 S2]. split; [by eapply fileGrows_trans | by etrans].
Qed.

(** *** One import statement *)

Lemma trivially {A} (xs : list A) : Forall (fun _ => True) xs.
Proof. by apply Forall_forall. Qed.

Lemma processImport_grows (imp : jsstring * jsstring)
    (st : SourceFile * gset jsstring) :
  let r := processImport st imp in
  stateGrows st (fst r) /\ statements (fst (fst r)) = statements (fst st).
Proof.
  destruct imp as [m text]. unfold processImport.
  pose (R := fun a b : SourceFile * gset jsstring =>
               stateGrows a b /\ statements (fst b) = statements (fst a)).
  assert (Hrefl : forall s, R s s).
  { intros s. split; [apply stateGrows_refl | reflexivity]. }
  assert (Htrans : forall a b c, R a b -> R b c -> R a c).
  { intros a b c [G1 E1] [G2 E2].
    split; [by eapply stateGrows_trans | congruence]. }
  assert (Hstep : forall s n, True -> True ->
            True /\ R s (fst (processNamedImport m s n))).
  { intros [sf ex] n _ _. split; [done|].
    destruct (processNamedImport_basic m n sf ex) as (Hg & Hs & Hsub & _).
    unfold R, stateGrows. cbn [fst snd] in *.
    split; [split; [exact Hg | exact Hsub] | exact Hs]. }
  exact (proj2 (forEachTry_lift _ _ _ R _ Hrefl Htrans Hstep
                  (trivially _) st I)).
Qed.




(** *** The steps of a file *)

Lemma runStep_grows (step : Step) (st : SourceFile * gset jsstring) :
  stateGrows st (fst (runStep importsIn st step)).
Proof.
  destruct step as [imp|text]; cbn [runStep].
  - apply processImport_grows.
  - cbn [fst]. split; [apply addStatements_grows | done].
Qed.

Lemma steps_grow (steps : list Step) (st : SourceFile * gset jsstring) :
  stateGrows st (fst (forEachTry (runStep importsIn) steps st)).
Proof.
  refine (proj2 (forEachTry_lift (runStep importsIn) (fun _ => True)
                   (fun _ => True) stateGrows steps stateGrows_refl
                   stateGrows_trans _ (trivially _) st I)).
  intros s x _ _. split; [done | apply runStep_grows].
Qed.





End LoopInvariants.

(** ** Import deduplication (C1) *)

Section InjectionDedup.
Import TsMorph Inject InjectFile ImportDedup ImportArrival.
Variable importsIn : jsstring -> list ImportDeclaration.

Lemma injectRegex_fst sf fileContent :
  injectRegex importsIn sf fileContent
  = (fst (fst (forEachTry (runStep importsIn) (stepsOfContent fileContent)
                 (sf, buildExistingImports sf))),
     snd (forEachTry (runStep importsIn) (stepsOfContent fileContent)
            (sf, buildExistingImports sf))).
Proof.
  rewrite injectRegex_steps. by destruct (forEachTry _ _ _) as [[sf' ex'] thrown].
Qed.

Lemma injectAst_fst sf stmts :
  injectAst importsIn sf stmts
  = (fst (fst (forEachTry (runStep importsIn) (map stepOfStatement stmts)
                 (sf, buildExistingImports sf))),
     snd (forEachTry (runStep importsIn) (map stepOfStatement stmts)
            (sf, buildExistingImports sf))).
Proof.
  rewrite injectAst_steps. by destruct (forEachTry _ _ _) as [[sf' ex'] thrown].
Qed.











End InjectionDedup.



(** ** The generator *)

Section GeneratorProperties.
Context {Instance Prototype Procedure RoutersMetadata Disk : Type}.
Context {Middleware ContextImport Properties : Type}.
Import TsMorph Generator.

Local Abbreviation M := (@Generator.M Disk).
Local Abbreviation World := (@Generator.World Disk).
Local Abbreviation keepsDisk := (@Generator.keepsDisk Disk _).
Local Abbreviation neverThrows := (@Generator.neverThrows Disk _).

(** *** How the monad's operations end *)

Lemma bind_normal_inv {A B} (c : M A) (k : A -> M B) w b w2 :
  bind c k w = (Normal b, w2) ->
  exists a w1, c w = (Normal a, w1) /\ k a w1 = (Normal b, w2).
Proof.
  unfold bind. destruct (c w) as [[a|e|] w1]; intros H;
    [eauto | discriminate | discriminate].
Qed.

Lemma keepsDisk_ret {A} (a : A) : keepsDisk (ret a).
Proof. intros w r w' H. injection H as _ <-. reflexivity. Qed.

Lemma keepsDisk_call {A} (r : Error + A) : keepsDisk (call r).
Proof. intros w r' w' H. unfold call in H. destruct r; by injection H as _ <-. Qed.

Lemma keepsDisk_warn msg : keepsDisk (warn msg).
Proof. intros w r w' H. injection H as _ <-. reflexivity. Qed.

Lemma keepsDisk_onSourceFile f : keepsDisk (onSourceFile f).
Proof.
  intros w r w' H. unfold onSourceFile in H.
  destruct (f (appRouterSourceFile w)) as [[e|] sf']; by injection H as _ <-.
Qed.

Lemma keepsDisk_bind {A B} (c : M A) (k : A -> M B) :
  keepsDisk c -> (forall a, keepsDisk (k a)) -> keepsDisk (bind c k).
Proof.
  intros Hc Hk w r w' H. unfold bind in H.
  destruct (c w) as [[a|e|] w1] eqn:E; apply Hc in E.
  - apply Hk in H. congruence.
  - injection H as _ <-. exact E.
  - injection H as _ <-. exact E.
Qed.

Lemma keepsDisk_tryCatch {A} (body : M A) handler :
  keepsDisk body -> (forall e, keepsDisk (handler e)) ->
  keepsDisk (tryCatch body handler).
Proof.
  intros Hb Hh w r w' H. unfold tryCatch in H.
  destruct (body w) as [[a|e|] w1] eqn:E; apply Hb in E.
  - injection H as _ <-. exact E.
  - apply Hh in H. congruence.
  - injection H as _ <-. exact E.
Qed.

Lemma keepsDisk_forEach {A} (xs : list A) f :
  (forall x, keepsDisk (f x)) -> keepsDisk (forEach xs f).
Proof.
  intros Hf. induction xs as [|x more IH]; simpl.
  - apply keepsDisk_ret.
  - apply keepsDisk_bind; [apply Hf | intros _; exact IH].
Qed.

Lemma keepsDisk_mapM {A B} (f : A -> M B) xs :
  (forall x, keepsDisk (f x)) -> keepsDisk (mapM f xs).
Proof.
  intros Hf. induction xs as [|x more IH]; simpl.
  - apply keepsDisk_ret.
  - apply keepsDisk_bind; [apply Hf | intros y].
    apply keepsDisk_bind; [exact IH | intros ys; apply keepsDisk_ret].
Qed.

Variable collab :
  @Collaborators Instance Prototype Procedure RoutersMetadata Disk
     Middleware ContextImport Properties.

Local Abbreviation injectOneFile := (Generator.injectOneFile collab).
Local Abbreviation injectFilesContent := (Generator.injectFilesContent collab).
Local Abbreviation mapRoute := (Generator.mapRoute collab).
Local Abbreviation mappedFrom := (Generator.mappedFrom collab).
Local Abbreviation discoverRoutes := (Generator.discoverRoutes collab).
Local Abbreviation save := (Generator.save collab).
Local Abbreviation schemaFileBody := (Generator.schemaFileBody collab).
Local Abbreviation generateSchemaFile := (Generator.generateSchemaFile collab).
Local Abbreviation helpersFileBody := (Generator.helpersFileBody collab).
Local Abbreviation generateHelpersFile :=
  (Generator.generateHelpersFile collab).

Lemma neverThrows_tryCatch_warn (body : M unit) (msg : Error -> jsstring) :
  neverThrows (tryCatch body (fun e => warn (msg e))).
Proof.
  intros w e. unfold tryCatch.
  destruct (body w) as [[a|e'|] w1]; simpl; discriminate.
Qed.

Lemma injectOneFile_keepsDisk pathAliases basePath filePath :
  keepsDisk (injectOneFile pathAliases basePath filePath).
Proof.
  unfold injectOneFile.
  destruct (PathResolution.resolvePathWithAliases _ _ _ _) as [rp|];
    [|apply keepsDisk_warn].
  destruct (_ && _); [|apply keepsDisk_warn].
  apply keepsDisk_tryCatch; [|intros e; apply keepsDisk_warn].
  apply keepsDisk_bind; [apply keepsDisk_call|].
  intros content. apply keepsDisk_onSourceFile.
Qed.

Lemma injectOneFile_normal pathAliases basePath filePath w :
  exists w', injectOneFile pathAliases basePath filePath w = (Normal tt, w').
Proof.
  unfold injectOneFile.
  destruct (PathResolution.resolvePathWithAliases _ _ _ _) as [rp|];
    [|eexists; reflexivity].
  destruct (_ && _); [|eexists; reflexivity].
  unfold tryCatch, bind, call, onSourceFile.
  destruct (readFileSync collab rp) as [e|fileContent];
    [eexists; reflexivity|].
  destruct (prod_swap _) as [[e|] sf']; eexists; reflexivity.
Qed.

Lemma forEach_injectOneFile_normal pathAliases basePath filePaths w :
  exists w',
    forEach filePaths (injectOneFile pathAliases basePath) w = (Normal tt, w').
Proof.
  revert w. induction filePaths as [|p more IH]; intros w; simpl.
  - eexists; reflexivity.
  - unfold bind.
    destruct (injectOneFile_normal pathAliases basePath p w) as [w1 ->].
    apply IH.
Qed.

Lemma injectFilesContent_keepsDisk fuel filePaths :
  keepsDisk (injectFilesContent fuel filePaths).
Proof.
  unfold injectFilesContent.
  apply keepsDisk_tryCatch; [|intros e; apply keepsDisk_warn].
  intros w r w' H.
  destruct (PathResolution.findTsConfigFile _ _ _) as [[p|]|].
  - revert H. apply keepsDisk_bind; [apply keepsDisk_call|].
    intros cfg. apply keepsDisk_forEach. intros x.
    apply injectOneFile_keepsDisk.
  - revert H. apply keepsDisk_bind; [apply keepsDisk_warn|].
    intros _. apply keepsDisk_warn.
  - injection H as _ <-. reflexivity.
Qed.

(** *** Router discovery (C6) *)

Lemma mapM_mapRoute routers w :
  match mapM mapRoute routers w with
  | (Normal mapped, w') => w' = w /\ Forall2 mappedFrom routers mapped
  | (Throw e, w') =>
      w' = w /\
      exists route, route ∈ routers /\
        getProcedures collab (instance route)
          (getPrototypeOf collab (instance route)) = inl e
  | (Diverge, _) => False
  end.
Proof.
  induction routers as [|route more IH]; simpl.
  - split; [reflexivity | constructor].
  - unfold bind at 1. unfold mapRoute at 1. unfold bind at 1, call, ret.
    destruct (getProcedures collab _ _) as [e|procs] eqn:Hp.
    + split; [reflexivity|]. exists route. split; [by left | exact Hp].
    + unfold bind at 1.
      destruct (mapM mapRoute more w) as [[mapped|e|] w'].
      * destruct IH as [-> IH]. split; [reflexivity|].
        constructor; [|exact IH]. unfold mappedFrom. simpl. auto.
      * destruct IH as [-> (r & Hin & Hr)]. split; [reflexivity|].
        exists r. split; [by right | exact Hr].
      * exact IH.
Qed.

(** C6: when the factory returns [routers] and the procedures of each are
    obtained, the mapped list has exactly one entry per router, in the
    order of [routers]; each entry carries the name, path and alias of its
    router unchanged and the procedures found on the prototype of the
    router's instance.  The only other outcome is that the factory or a
    procedure lookup threw. *)
Theorem discovery_preserves_metadata_and_order (w : World) :
  match discoverRoutes w with
  | (Normal mapped, w') =>
      w' = w /\
      exists routers,
        getRouters collab = inr routers /\
        Forall2 mappedFrom routers mapped
  | (Throw e, w') =>
      w' = w /\
      (getRouters collab = inl e \/
       exists routers route,
         getRouters collab = inr routers /\ route ∈ routers /\
         getProcedures collab (instance route)
           (getPrototypeOf collab (instance route)) = inl e)
  | (Diverge, _) => False
  end.
Proof.
  unfold discoverRoutes, bind, call.
  destruct (getRouters collab) as [e|routers] eqn:Hr.
  - split; [reflexivity | by left].
  - pose proof (mapM_mapRoute routers w) as H.
    destruct (mapM mapRoute routers w) as [[mapped|e|] w'].
    + destruct H as [-> H]. split; [reflexivity | eauto].
    + destruct H as [-> (route & Hin & Hp)]. split; [reflexivity|].
      right. eauto.
    + exact H.
Qed.

(** [Forall2] is position by position: the entry at an index belongs to
    the router at that index. *)
Lemma mapped_entry_at_index routers mapped i route :
  Forall2 mappedFrom routers mapped ->
  routers !! i = Some route ->
  length mapped = length routers /\
  exists entry, mapped !! i = Some entry /\ mappedFrom route entry.
Proof.
  intros H Hi. split; [symmetry; eapply Forall2_length; eauto|].
  eapply Forall2_lookup_l in H as (entry & He & Hm); eauto.
Qed.

(** *** tsconfig gating of injection (C7) *)

(** C7: from a module caller file whose path is absolute, with fuel for
    the walk up to the root, [injectFilesContent] is gated as the claim
    says.  It takes its path aliases from the compilerOptions.paths field
    of the tsconfig.json of the nearest directory above the caller that
    has one, and no alias when the field is absent; when reading that file
    throws, and when no directory has one, it leaves the app-router source
    file and the disk as they were, whatever paths were requested, and
    only logs: one warning in the first case, the two of the search in the
    second.  From a caller whose path is not absolute, in a file system
    without tsconfig.json, the claim fails: the search does not end, so the
    call neither returns nor logs, whatever the fuel. *)
Theorem injection_gated_by_tsconfig
    (fuel : nat) (filePaths : list jsstring) (w : World) :
  let caller := moduleCallerFilePath collab in
  (NodePath.isAbsolute caller = true -> length caller <= fuel ->
   injectFilesContent fuel filePaths w =
   match List.find (PathResolution.hasTsConfig (existsSync collab))
           (PathResolution.dirsBelowRoot fuel (NodePath.dirname caller)) with
   | None =>
       (Normal tt,
        mkWorld (appRouterSourceFile w) (disk w)
          (warnings w ++ [noTsConfigAbove caller; couldNotFindTsConfig]))
   | Some d =>
       let tsConfigFilePath :=
         NodePath.join [d; PathResolution.tsconfig_json] in
       match readTsConfig collab tsConfigFilePath with
       | inr tsConfigObj =>
           forEach filePaths
             (injectOneFile
                match compilerOptions tsConfigObj with
                | Some (mkCompilerOptions (Some aliases)) => aliases
                | _ => []
                end
                (NodePath.dirname tsConfigFilePath)) w
       | inl e =>
           (Normal tt,
            mkWorld (appRouterSourceFile w) (disk w)
              (warnings w
               ++ [str "Error injecting files: " ++ errorToString e]))
       end
   end) /\
  (NodePath.isAbsolute caller = false ->
   (forall d, PathResolution.hasTsConfig (existsSync collab) d = false) ->
   injectFilesContent fuel filePaths w = (Diverge, w)).
Proof.
  intros caller. split.
  - intros Habs Hfuel. unfold injectFilesContent, tryCatch. fold caller.
    rewrite (findTsConfigFile_nearest _ fuel caller Habs Hfuel).
    destruct (List.find _ _) as [d|]; cbn [option_map].
    + unfold bind at 1, call.
      destruct (readTsConfig collab _) as [e|cfg]; [reflexivity|].
      replace (match compilerOptions cfg with
               | Some (mkCompilerOptions (Some aliases)) => aliases
               | _ => []
               end) with (pathAliasesOf cfg)
        by (unfold pathAliasesOf;
            by destruct (compilerOptions cfg) as [[[aliases|]]|]).
      destruct (forEach_injectOneFile_normal (pathAliasesOf cfg)
                  (NodePath.dirname
                     (NodePath.join [d; PathResolution.tsconfig_json]))
                  filePaths w) as [w' ->].
      reflexivity.
    + unfold bind, warn. simpl. rewrite <- app_assoc. reflexivity.
  - intros Hrel Hnone. unfold injectFilesContent, tryCatch. fold caller.
    by rewrite (findTsConfigFile_relative_unending _ fuel caller Hrel Hnone).
Qed.

(** *** Emission of the merged router (C4) *)

Lemma discoverRoutes_keepsDisk : keepsDisk discoverRoutes.
Proof.
  apply keepsDisk_bind; [apply keepsDisk_call|]. intros routers.
  apply keepsDisk_mapM. intros route. unfold mapRoute.
  apply keepsDisk_bind; [apply keepsDisk_call|].
  intros procs. apply keepsDisk_ret.
Qed.

(** C4, amended: when the [try] block of [generateSchemaFile] runs to its
    end, i.e. no step of it throws, the last statement of the app-router
    source file is the text [const appRouter = t.router({...}); export
    type AppRouter = typeof appRouter;] whose braces hold the
    serialization of the mapped routers, and the file was then handed to
    [saveOrOverrideFile], whose result is the disk. *)
Theorem merged_router_emitted
    (fuel : nat) (schemaImports injectFiles : option (list jsstring))
    (w w' : World) :
  schemaFileBody fuel schemaImports injectFiles w = (Normal tt, w') ->
  generateSchemaFile fuel schemaImports injectFiles w = (Normal tt, w') /\
  exists mapped routersMetadata decls,
    fst (discoverRoutes w) = Normal mapped /\
    serializeRouters collab mapped = inr routersMetadata /\
    generateRoutersStringFromMetadata collab routersMetadata = inr decls /\
    last (statements (appRouterSourceFile w'))
      = Some (appRouterStatements decls) /\
    saveOrOverrideFile collab (appRouterSourceFile w') (disk w)
      = inr (disk w').
Proof.
  intros Hbody. split.
  { unfold generateSchemaFile, tryCatch. rewrite Hbody. reflexivity. }
  unfold schemaFileBody in Hbody.
  apply bind_normal_inv in Hbody as (mapped & w1 & H1 & Hbody).
  apply bind_normal_inv in Hbody as ([] & w2 & H2 & Hbody).
  apply bind_normal_inv in Hbody as ([] & w3 & H3 & Hbody).
  apply bind_normal_inv in Hbody as ([] & w4 & H4 & Hbody).
  apply bind_normal_inv in Hbody as (meta & w5 & H5 & Hbody).
  apply bind_normal_inv in Hbody as (decls & w6 & H6 & Hbody).
  apply bind_normal_inv in Hbody as ([] & w7 & H7 & Hsave).
  exists mapped, meta, decls.
  assert (D1 : disk w1 = disk w) by (eapply discoverRoutes_keepsDisk; eauto).
  assert (D2 : disk w2 = disk w1) by (eapply keepsDisk_onSourceFile; eauto).
  assert (D3 : disk w3 = disk w2).
  { destruct schemaImports as [[|? ?]|];
      first [ exact (keepsDisk_ret tt _ _ _ H3)
            | exact (keepsDisk_onSourceFile _ _ _ _ H3) ]. }
  assert (D4 : disk w4 = disk w3).
  { destruct injectFiles as [[|? ?]|];
      first [ exact (keepsDisk_ret tt _ _ _ H4)
            | exact (injectFilesContent_keepsDisk _ _ _ _ _ H4) ]. }
  unfold call in H5, H6.
  destruct (serializeRouters collab mapped) as [e|meta'] eqn:E5;
    [discriminate|].
  injection H5 as -> ->.
  destruct (generateRoutersStringFromMetadata collab meta) as [e|decls']
    eqn:E6; [discriminate|].
  injection H6 as -> ->.
  injection H7 as <-.
  unfold save in Hsave. simpl in Hsave.
  destruct (saveOrOverrideFile collab _ _) as [e|d] eqn:E8; [discriminate|].
  injection Hsave as <-. simpl.
  rewrite H1. split; [reflexivity|]. split; [reflexivity|].
  split; [reflexivity|]. split; [apply last_snoc|].
  rewrite <- D1, <- D2, <- D3, <- D4. exact E8.
Qed.

(** *** Errors are caught (C9) *)

Lemma injectFilesContent_neverThrows fuel filePaths :
  neverThrows (injectFilesContent fuel filePaths).
Proof.
  apply (neverThrows_tryCatch_warn _
           (fun e => str "Error injecting files: " ++ errorToString e)).
Qed.

(** What [generateSchemaFile] and [generateHelpersFile] do with an error:
    neither throws; an error of the [try] block becomes one warning, and
    the world is the one the block left behind when it threw. *)
Lemma errors_become_warnings
    (fuel : nat) (schemaImports injectFiles : option (list jsstring))
    (contextName : option jsstring) (w : World) :
  (forall e, fst (generateSchemaFile fuel schemaImports injectFiles w)
             <> Throw e) /\
  (forall e, fst (generateHelpersFile contextName w) <> Throw e) /\
  (forall files e, fst (injectFilesContent fuel files w) <> Throw e) /\
  (forall e w1,
     schemaFileBody fuel schemaImports injectFiles w = (Throw e, w1) ->
     generateSchemaFile fuel schemaImports injectFiles w =
     (Normal tt,
      mkWorld (appRouterSourceFile w1) (disk w1)
        (warnings w1 ++ [encounteredAnError]))) /\
  (forall e w1,
     helpersFileBody contextName w = (Throw e, w1) ->
     generateHelpersFile contextName w =
     (Normal tt,
      mkWorld (appRouterSourceFile w1) (disk w1)
        (warnings w1 ++ [encounteredAnError]))).
Proof.
  split; [|split; [|split; [|split]]].
  - intros e.
    apply (neverThrows_tryCatch_warn _ (fun _ => encounteredAnError)).
  - intros e.
    apply (neverThrows_tryCatch_warn _ (fun _ => encounteredAnError)).
  - intros files e. apply injectFilesContent_neverThrows.
  - intros e w1 H. unfold generateSchemaFile, tryCatch. rewrite H.
    reflexivity.
  - intros e w1 H. unfold generateHelpersFile, tryCatch. rewrite H.
    reflexivity.
Qed.
End GeneratorProperties.

Example generateSchemaFile_demo :
  Generator.generateSchemaFile Demo.healthy 10 None
    (Some [str "@/zod/user.ts"]) Demo.start
  = (Normal tt, Generator.mkWorld Demo.generated (Some Demo.generated) []).
Proof. vm_compute. reflexivity. Qed.

(** C4, witness: the run of the demo project, whose [try] block ends. *)
Lemma merged_router_emitted_witness :
  Generator.generateSchemaFile Demo.healthy 10 None
    (Some [str "@/zod/user.ts"]) Demo.start
  = (Normal tt, Generator.mkWorld Demo.generated (Some Demo.generated) []) /\
  exists mapped routersMetadata decls,
    fst (Generator.discoverRoutes Demo.healthy Demo.start) = Normal mapped /\
    Generator.serializeRouters Demo.healthy mapped
      = inr routersMetadata /\
    Generator.generateRoutersStringFromMetadata Demo.healthy
      routersMetadata = inr decls /\
    last (TsMorph.statements Demo.generated)
      = Some (Generator.appRouterStatements decls) /\
    Generator.saveOrOverrideFile Demo.healthy Demo.generated
      None = inr (Some Demo.generated).
Proof.
  apply (merged_router_emitted Demo.healthy 10 None
           (Some [str "@/zod/user.ts"]) Demo.start
           (Generator.mkWorld Demo.generated (Some Demo.generated) [])).
  vm_compute. reflexivity.
Defined.

(** C4 as stated fails: in the demo project with a serializer that throws,
    [generateSchemaFile] ends with a warning; the last statement of the
    app-router file is not the [appRouter] text, and nothing was saved. *)
Lemma emission_skipped_when_a_step_throws :
  let w' := snd (Generator.generateSchemaFile Demo.serializerThrows 10 None
                   None Demo.start) in
  (forall decls,
     last (TsMorph.statements (Generator.appRouterSourceFile w'))
     <> Some (Generator.appRouterStatements decls)) /\
  Generator.disk w' = None /\
  Generator.warnings w' = [Generator.encounteredAnError].
Proof.
  split; [|split; reflexivity].
  intros decls H. vm_compute in H. discriminate H.
Qed.

(** C9: [generateSchemaFile] and [generateHelpersFile] never reject, and
    neither does [injectFilesContent]: an error thrown inside the [try]
    block (by a factory, the static generator, the serializer, the file
    system) ends as one logged warning.  The world is then the one the block
    had reached when it threw: the app-router source file is not rolled
    back, and in the demo project with a throwing serializer it differs from
    the file the call started with. *)
Theorem generator_methods_never_reject :
  (forall (Instance Prototype Procedure RoutersMetadata Disk Middleware
             ContextImport Properties : Type)
          (collab : @Generator.Collaborators Instance Prototype Procedure
                      RoutersMetadata Disk Middleware ContextImport Properties)
          (fuel : nat) (schemaImports injectFiles : option (list jsstring))
          (contextName : option jsstring) (w : @Generator.World Disk),
     (forall e,
        fst (Generator.generateSchemaFile collab fuel schemaImports
               injectFiles w) <> Throw e) /\
     (forall e,
        fst (Generator.generateHelpersFile collab contextName w) <> Throw e) /\
     (forall files e,
        fst (Generator.injectFilesContent collab fuel files w) <> Throw e) /\
     (forall e w1,
        Generator.schemaFileBody collab fuel schemaImports injectFiles w
          = (Throw e, w1) ->
        Generator.generateSchemaFile collab fuel schemaImports injectFiles w =
        (Normal tt,
         Generator.mkWorld (Generator.appRouterSourceFile w1)
           (Generator.disk w1)
           (Generator.warnings w1 ++ [Generator.encounteredAnError]))) /\
     (forall e w1,
        Generator.helpersFileBody collab contextName w = (Throw e, w1) ->
        Generator.generateHelpersFile collab contextName w =
        (Normal tt,
         Generator.mkWorld (Generator.appRouterSourceFile w1)
           (Generator.disk w1)
           (Generator.warnings w1 ++ [Generator.encounteredAnError])))) /\
  (exists w',
     Generator.generateSchemaFile Demo.serializerThrows 10 None None Demo.start
       = (Normal tt, w') /\
     Generator.appRouterSourceFile w'
       <> Generator.appRouterSourceFile Demo.start /\
     Generator.warnings w' = [Generator.encounteredAnError]).
Proof.
  split.
  - intros. apply errors_become_warnings.
  - eexists. split; [vm_compute; reflexivity|].
    split; [discriminate | reflexivity].
Qed.

(** A context class that the root module does not import: the error the
    generator throws itself is caught like the others. *)
Example generateHelpersFile_unknown_context :
  Generator.generateHelpersFile Demo.healthy (Some (str "AppContext"))
    Demo.start
  = (Normal tt,
     Generator.mkWorld TsMorph.emptySourceFile None
       [Generator.encounteredAnError]).
Proof. reflexivity. Qed.

(** C7, witness: the demo project with its tsconfig.json, whose alias
    leads to the injected file; the demo project without a tsconfig.json;
    and the failing input, the latter called from a relative path. *)
Lemma injection_gated_by_tsconfig_witness :
  Generator.injectFilesContent Demo.healthy 30
    [str "@/zod/user.ts"] Demo.start
  = (Normal tt,
     Generator.mkWorld
       (TsMorph.mkSourceFile [TsMorph.mkImport (str "zod") [str "z"]]
          [str "export const userSchema = z.object({})"])
       None []) /\
  Generator.injectFilesContent Demo.withoutTsConfig 30
    [str "@/zod/user.ts"] Demo.start
  = (Normal tt,
     Generator.mkWorld TsMorph.emptySourceFile None
       [Generator.noTsConfigAbove (str "/proj/src/app.module.ts");
        Generator.couldNotFindTsConfig]) /\
  forall fuel,
    Generator.injectFilesContent Demo.relativeCaller fuel
      [str "@/zod/user.ts"] Demo.start
    = (Diverge, Demo.start).
Proof.
  split; [|split].
  - etrans.
    + apply (proj1 (injection_gated_by_tsconfig Demo.healthy 30
                      [str "@/zod/user.ts"] Demo.start));
        [reflexivity | vm_compute; lia].
    + vm_compute. reflexivity.
  - etrans.
    + apply (proj1 (injection_gated_by_tsconfig Demo.withoutTsConfig 30
                      [str "@/zod/user.ts"] Demo.start));
        [reflexivity | vm_compute; lia].
    + vm_compute. reflexivity.
  - intros fuel.
    apply (proj2 (injection_gated_by_tsconfig Demo.relativeCaller fuel
                    [str "@/zod/user.ts"] Demo.start)); [reflexivity|].
    intros d. reflexivity.
Defined.

(** C6, witness: the one router of the demo project. *)
Lemma discovery_witness :
  match Generator.discoverRoutes Demo.healthy Demo.start with
  | (Normal mapped, w') =>
      w' = Demo.start /\
      exists routers,
        Generator.getRouters Demo.healthy = inr routers /\
        Forall2 (Generator.mappedFrom Demo.healthy)
          routers mapped
  | (Throw e, w') =>
      w' = Demo.start /\
      (Generator.getRouters Demo.healthy = inl e \/
       exists routers route,
         Generator.getRouters Demo.healthy = inr routers /\
         route ∈ routers /\
         Generator.getProcedures Demo.healthy
           (Generator.instance route)
           (Generator.getPrototypeOf Demo.healthy
              (Generator.instance route)) = inl e)
  | (Diverge, _) => False
  end.
Proof.
  exact (discovery_preserves_metadata_and_order Demo.healthy Demo.start).
Defined.


(** ** Texts *)

Section TextLemmas.

Lemma takeWhile_app_stop f (l : jsstring) c r :
  forallb f l = true -> f c = false ->
  takeWhile f (l ++ c :: r) = l.
Proof.
  intros Hl Hc. induction l as [|x l IH]; simpl in *.
  - by rewrite Hc.
  - apply andb_true_iff in Hl as [-> Hl]. by rewrite IH.
Qed.

Lemma dropWhile_app_stop f (l : jsstring) c r :
  forallb f l = true -> f c = false ->
  dropWhile f (l ++ c :: r) = c :: r.
Proof.
  intros Hl Hc. induction l as [|x l IH]; simpl in *.
  - by rewrite Hc.
  - apply andb_true_iff in Hl as [-> Hl]. by rewrite IH.
Qed.

Lemma ascii_eqb_refl c : ascii_eqb c c = true.
Proof. apply Ascii.eqb_refl. Qed.

Lemma startsWith_app (p r : jsstring) : startsWith (p ++ r) p = true.
Proof.
  induction p as [|c p IH]; simpl; [by destruct r|].
  by rewrite ascii_eqb_refl, IH.
Qed.

Lemma replaceFirst_prefix (p r : jsstring) :
  Regex.replaceFirst p (p ++ r) = r.
Proof.
  destruct p as [|c p]; simpl.
  - destruct r; simpl; [reflexivity|]. reflexivity.
  - rewrite ascii_eqb_refl, startsWith_app. simpl.
    by rewrite drop_app_length.
Qed.

Lemma execAll_skip (pre rest : jsstring) :
  Regex.execAll (length pre) (pre ++ rest) = Regex.execAll 0 rest.
Proof. induction pre as [|c pre IH]; simpl; [by destruct rest | exact IH]. Qed.

Lemma take_app_minus (x rest : jsstring) :
  take (length (x ++ rest) - length rest) (x ++ rest) = x.
Proof.
  rewrite length_app.
  replace (length x + length rest - length rest) with (length x) by lia.
  apply take_app_length.
Qed.

Lemma oneOrMore_app_stop f (l : jsstring) c r :
  l <> [] -> forallb f l = true -> f c = false ->
  Regex.oneOrMore f (l ++ c :: r) = Some (l, c :: r).
Proof.
  intros Hne Hl Hc. unfold Regex.oneOrMore.
  rewrite takeWhile_app_stop, dropWhile_app_stop by assumption.
  by destruct l.
Qed.

End TextLemmas.

(** ** More on [findTsConfigFile] *)

Section SearchResult.
Import NodePath PathResolution PathWalk.

Lemma parent_S n p : parent (S n) p = dirname (parent n p).
Proof. reflexivity. Qed.

(** What the loop has seen when it is at the directory [k] levels above
    its first one. *)
Lemma findLoop_result existsSync root fuel d :
  match findLoop existsSync root fuel d with
  | Some (Some tsConfigPath) =>
      exists k, k < fuel /\
        tsConfigPath = join [parent k d; tsconfig_json] /\
        existsSync tsConfigPath = true /\
        parent k d <> root /\
        forall j, j < k ->
          parent j d <> root /\ hasTsConfig existsSync (parent j d) = false
  | Some None =>
      exists k, k < fuel /\
        parent k d = root /\
        forall j, j < k ->
          parent j d <> root /\ hasTsConfig existsSync (parent j d) = false
  | None =>
      forall j, j < fuel ->
        parent j d <> root /\ hasTsConfig existsSync (parent j d) = false
  end.
Proof.
  revert d. induction fuel as [|fuel IH]; intros d.
  - simpl. intros j Hj. lia.
  - cbn [findLoop]. destruct (decide (d = root)) as [Hd|Hd].
    + exists 0. split; [lia|]. split; [exact Hd|]. intros j Hj. lia.
    + destruct (existsSync (join [d; tsconfig_json])) eqn:Hex.
      * exists 0. split; [lia|]. split; [reflexivity|]. split; [exact Hex|].
        split; [exact Hd|]. intros j Hj. lia.
      * assert (Hstep : forall j, parent j (dirname d) = parent (S j) d).
        { intros j. induction j as [|j IHj]; [reflexivity|].
          rewrite !parent_S, IHj. reflexivity. }
        assert (Hfirst : forall j (P : nat -> Prop),
                   P 0 -> (forall i, i < j -> P (S i)) ->
                   forall i, i < S j -> P i).
        { intros j P H0 HS [|i] Hi; [exact H0 | apply HS; lia]. }
        specialize (IH (dirname d)).
        destruct (findLoop existsSync root fuel (dirname d)) as [[p|]|].
        -- destruct IH as (k & Hk & Hp & Hpe & Hr & Hbelow).
           exists (S k). split; [lia|]. rewrite <- Hstep.
           split; [exact Hp|]. split; [exact Hpe|]. split; [exact Hr|].
           apply Hfirst; [split; [exact Hd | exact Hex]|].
           intros i Hi. rewrite <- Hstep. apply Hbelow, Hi.
        -- destruct IH as (k & Hk & Hr & Hbelow).
           exists (S k). split; [lia|]. rewrite <- Hstep.
           split; [exact Hr|].
           apply Hfirst; [split; [exact Hd | exact Hex]|].
           intros i Hi. rewrite <- Hstep. apply Hbelow, Hi.
        -- apply Hfirst; [split; [exact Hd | exact Hex]|].
           intros i Hi. rewrite <- Hstep. apply IH, Hi.
Qed.

(** X2: whatever the start path, a path that [findTsConfigFile] returns is
    [path.join(d, 'tsconfig.json')] for a directory [d] some levels above
    the start path; that file exists, and no directory nearer to the start
    path holds a tsconfig.json or is the root.  The value [null] means that
    the walk reached the root without finding one on its way. *)
Theorem findTsConfigFile_result existsSync fuel startPath :
  let root := parse_root (dirname startPath) in
  match findTsConfigFile existsSync fuel startPath with
  | Some (Some tsConfigPath) =>
      exists k, k < fuel /\
        tsConfigPath = join [parent (S k) startPath; tsconfig_json] /\
        existsSync tsConfigPath = true /\
        parent (S k) startPath <> root /\
        forall j, j < k ->
          parent (S j) startPath <> root /\
          hasTsConfig existsSync (parent (S j) startPath) = false
  | Some None =>
      exists k, k < fuel /\
        parent (S k) startPath = root /\
        forall j, j < k ->
          parent (S j) startPath <> root /\
          hasTsConfig existsSync (parent (S j) startPath) = false
  | None =>
      forall j, j < fuel ->
        parent (S j) startPath <> root /\
        hasTsConfig existsSync (parent (S j) startPath) = false
  end.
Proof.
  intros root. unfold findTsConfigFile. fold root.
  assert (Hstep : forall j,
             parent j (dirname startPath) = parent (S j) startPath).
  { intros j. induction j as [|j IHj]; [reflexivity|].
    rewrite !parent_S, IHj. reflexivity. }
  pose proof (findLoop_result existsSync root fuel (dirname startPath)) as H.
  destruct (findLoop existsSync root fuel (dirname startPath)) as [[p|]|].
  - destruct H as (k & Hk & Hp & Hpe & Hr & Hbelow).
    exists k. rewrite <- Hstep. repeat split; try assumption.
    all: rewrite <- Hstep; apply Hbelow; assumption.
  - destruct H as (k & Hk & Hr & Hbelow).
    exists k. rewrite <- Hstep. repeat split; try assumption.
    all: rewrite <- Hstep; apply Hbelow; assumption.
  - intros j Hj. rewrite <- Hstep. apply H, Hj.
Qed.

End SearchResult.

Section RelativeSearch.
Import NodePath PathResolution.

Lemma parse_root_relative p :
  isAbsolute p = false -> parse_root (dirname p) = [].
Proof.
  intros Hrel. unfold parse_root, dirname.
  destruct p as [|c0 rest]; [reflexivity|].
  cbv zeta. simpl in Hrel. rewrite Hrel. cbn [andb].
  destruct (dropWhile isSlash (rev rest)) as [|a l]; [reflexivity|].
  destruct (dropWhile _ (a :: l)) as [|b r3]; [reflexivity|].
  simpl. by rewrite Hrel.
Qed.

(** With the empty string for root the loop never answers [null]. *)
Lemma findLoop_empty_root_not_null existsSync fuel d :
  d <> [] -> findLoop existsSync [] fuel d <> Some None.
Proof.
  revert d. induction fuel as [|fuel IH]; intros d Hd; [discriminate|].
  cbn [findLoop]. destruct (decide _) as [E|_]; [contradiction|].
  destruct (existsSync _); [discriminate|].
  apply IH, dirname_not_empty.
Qed.

(** [dirname] of a relative path is relative, and is "." or shorter. *)
Lemma dirname_relative d :
  isAbsolute d = false ->
  isAbsolute (dirname d) = false /\
  (dirname d = ["."] \/ length (dirname d) < length d).
Proof.
  intros Hrel. unfold dirname. destruct d as [|c0 rest].
  { split; [reflexivity | by left]. }
  cbv zeta. simpl in Hrel. rewrite Hrel. cbn [andb].
  pose proof (dropWhile_length isSlash (rev rest)) as L1.
  rewrite length_rev in L1.
  destruct (dropWhile isSlash (rev rest)) as [|a l] eqn:E1.
  { split; [reflexivity | by left]. }
  pose proof (dropWhile_length (fun c => negb (isSlash c)) (a :: l)) as L2.
  destruct (dropWhile _ (a :: l)) as [|b r3] eqn:E2.
  { split; [reflexivity | by left]. }
  split; [simpl; exact Hrel|]. right.
  simpl in *. rewrite length_rev. lia.
Qed.

Lemma findLoop_relative_finds existsSync fuel d :
  existsSync (join [["."]; tsconfig_json]) = true ->
  isAbsolute d = false -> d <> [] -> 1 + length d <= fuel ->
  exists tsConfigPath,
    findLoop existsSync [] fuel d = Some (Some tsConfigPath) /\
    existsSync tsConfigPath = true.
Proof.
  intros Hdot. revert d.
  induction fuel as [|fuel IH]; intros d Hrel Hd Hlen; [lia|].
  cbn [findLoop]. destruct (decide _) as [E|_]; [contradiction|].
  destruct (existsSync (join [d; tsconfig_json])) eqn:Hex; [eauto|].
  destruct (dirname_relative d Hrel) as [Hrel' [Hdotdir|Hshort]].
  - rewrite Hdotdir. destruct fuel as [|fuel].
    { destruct d; [contradiction | simpl in Hlen; lia]. }
    cbn [findLoop]. destruct (decide _) as [E|_]; [discriminate E|].
    rewrite Hdot. eauto.
  - apply IH; [exact Hrel' | apply dirname_not_empty | lia].
Qed.

(** X3: for a start path that is not absolute, [findTsConfigFile] never
    returns [null], whatever the file system holds: the root it compares
    with is the empty string, which [path.dirname] never yields.  When the
    working directory holds a tsconfig.json the walk ends, within
    [length startPath + 2] iterations, with a path that exists. *)
Theorem findTsConfigFile_relative existsSync startPath :
  isAbsolute startPath = false ->
  (forall fuel, findTsConfigFile existsSync fuel startPath <> Some None) /\
  (existsSync (join [["."]; tsconfig_json]) = true ->
   forall fuel, 2 + length startPath <= fuel ->
   exists tsConfigPath,
     findTsConfigFile existsSync fuel startPath = Some (Some tsConfigPath) /\
     existsSync tsConfigPath = true).
Proof.
  intros Hrel. unfold findTsConfigFile.
  rewrite (parse_root_relative startPath Hrel). split.
  - intros fuel. apply findLoop_empty_root_not_null, dirname_not_empty.
  - intros Hdot fuel Hfuel.
    destruct (dirname_relative startPath Hrel) as [Hrel' Hlen].
    apply findLoop_relative_finds;
      [exact Hdot | exact Hrel' | apply dirname_not_empty|].
    destruct Hlen as [-> | Hlen]; [simpl; lia | lia].
Qed.

Lemma findTsConfigFile_relative_witness :
  (forall fuel,
     findTsConfigFile (fun p => bool_decide (p = str "tsconfig.json")) fuel
       (str "src/app.module.ts") <> Some None) /\
  ((fun p => bool_decide (p = str "tsconfig.json"))
     (join [["."]; tsconfig_json]) = true ->
   forall fuel, 2 + length (str "src/app.module.ts") <= fuel ->
   exists tsConfigPath,
     findTsConfigFile (fun p => bool_decide (p = str "tsconfig.json")) fuel
       (str "src/app.module.ts") = Some (Some tsConfigPath) /\
     (fun p => bool_decide (p = str "tsconfig.json")) tsConfigPath = true).
Proof.
  exact (findTsConfigFile_relative
           (fun p => bool_decide (p = str "tsconfig.json"))
           (str "src/app.module.ts") eq_refl).
Defined.

Example findTsConfigFile_relative_example :
  findTsConfigFile (fun p => bool_decide (p = str "tsconfig.json")) 3
    (str "src/app.module.ts") = Some (Some (str "tsconfig.json")).
Proof. reflexivity. Qed.

End RelativeSearch.

(** ** More on [resolvePathWithAliases] *)

Section ResolvedPaths.
Import NodePath PathResolution.

Lemma resolveLoop_absolute cwd revArgs resolvedPath :
  isAbsolute cwd = true \/ Exists (fun a => isAbsolute a = true) revArgs ->
  snd (resolveLoop cwd revArgs resolvedPath) = true.
Proof.
  revert resolvedPath. induction revArgs as [|p more IH]; intros rp H.
  - destruct H as [H|H]; [|inversion H].
    simpl. destruct cwd; [discriminate | exact H].
  - cbn [resolveLoop]. destruct p as [|c p'].
    + apply IH. destruct H as [H|H]; [by left|].
      inversion H as [? ? Hp|? ? Hm]; subst; [discriminate | by right].
    + destruct (isAbsolute (c :: p')) eqn:Hp; [reflexivity|].
      apply IH. destruct H as [H|H]; [by left|].
      inversion H as [? ? Hp'|? ? Hm]; subst; [congruence | by right].
Qed.

Lemma resolve_absolute cwd args :
  isAbsolute cwd = true \/ Exists (fun a => isAbsolute a = true) args ->
  isAbsolute (resolve cwd args) = true.
Proof.
  intros H. unfold resolve.
  pose proof (resolveLoop_absolute cwd (rev args) [] ) as Hloop.
  destruct (resolveLoop cwd (rev args) []) as [rp abs].
  simpl in Hloop. rewrite Hloop; [reflexivity|].
  destruct H as [H|H]; [by left | right].
  apply Exists_exists in H as (a & Hin & Ha).
  apply Exists_exists. exists a. split; [|exact Ha].
  apply list_elem_of_In. rewrite <- in_rev. apply list_elem_of_In, Hin.
Qed.

(** X4: in a process whose working directory is absolute, or with an
    absolute base path, [resolvePathWithAliases] returns a path, never
    [null], for every file path and alias map; the path is absolute, and
    resolving it once more, with whatever aliases and base path, returns it
    unchanged. *)
Theorem resolvePathWithAliases_absolute
    (cwd filePath : jsstring) (pathAliases : list (jsstring * list jsstring))
    (basePath : jsstring) :
  isAbsolute cwd = true \/ isAbsolute basePath = true ->
  exists resolved,
    resolvePathWithAliases cwd filePath pathAliases basePath = Some resolved /\
    isAbsolute resolved = true /\
    forall pathAliases' basePath',
      resolvePathWithAliases cwd resolved pathAliases' basePath'
      = Some resolved.
Proof.
  intros Habs.
  assert (Hres : forall rel, isAbsolute (resolve cwd [basePath; rel]) = true).
  { intros rel. apply resolve_absolute.
    destruct Habs as [H|H]; [by left | right]. by constructor. }
  assert (Hagain : forall p, isAbsolute p = true ->
            forall pathAliases' basePath',
              resolvePathWithAliases cwd p pathAliases' basePath' = Some p).
  { intros p Hp a b. unfold resolvePathWithAliases. by rewrite Hp. }
  unfold resolvePathWithAliases at 1.
  destruct (isAbsolute filePath) eqn:Hfp.
  { exists filePath. split; [reflexivity|]. split; [exact Hfp|].
    apply Hagain, Hfp. }
  assert (Hloop : forall r,
            aliasLoop cwd filePath basePath pathAliases = Some r ->
            isAbsolute r = true).
  { induction pathAliases as [|[alias targets] more IH]; intros r;
      [discriminate|].
    cbn [aliasLoop]. destruct targets as [|t ts]; [exact (IH r)|].
    destruct (startsWith _ _); [|exact (IH r)].
    intros E. injection E as <-. apply Hres. }
  destruct (aliasLoop cwd filePath basePath pathAliases) as [r|] eqn:Hal.
  - exists r. split; [reflexivity|].
    split; [apply Hloop; reflexivity | apply Hagain, Hloop; reflexivity].
  - destruct (_ || _); eexists; (split; [reflexivity|]);
      (split; [apply Hres | apply Hagain, Hres]).
Qed.

Lemma resolvePathWithAliases_absolute_witness :
  exists resolved,
    resolvePathWithAliases (str "/work") (str "@/zod/index.ts")
      [(str "@/*", [str "./src/*"])] (str "/proj") = Some resolved /\
    isAbsolute resolved = true /\
    forall pathAliases' basePath',
      resolvePathWithAliases (str "/work") resolved pathAliases' basePath'
      = Some resolved.
Proof.
  apply (resolvePathWithAliases_absolute (str "/work")
           (str "@/zod/index.ts") [(str "@/*", [str "./src/*"])]
           (str "/proj")).
  left. reflexivity.
Defined.

End ResolvedPaths.

(** ** Trimming and splitting *)

Section TrimAndSplit.

Lemma trimStart_idem s : trimStart (trimStart s) = trimStart s.
Proof.
  induction s as [|c s IH]; [reflexivity|].
  simpl. destruct (is_space c) eqn:Hc; [exact IH|]. simpl. by rewrite Hc.
Qed.

Lemma trimStart_head s c t : trimStart s = c :: t -> is_space c = false.
Proof.
  induction s as [|x s IH]; simpl; [discriminate|].
  destruct (is_space x) eqn:Hx; [exact IH|].
  intros E. injection E as -> _. exact Hx.
Qed.

Lemma trimStart_fixed c t : is_space c = false -> trimStart (c :: t) = c :: t.
Proof. intros Hc. simpl. by rewrite Hc. Qed.

Lemma trimStart_spaces l x :
  forallb is_space l = true -> trimStart (l ++ x) = trimStart x.
Proof.
  induction l as [|c l IH]; [reflexivity|].
  simpl. intros [Hc Hl]%andb_true_iff. rewrite Hc. apply IH, Hl.
Qed.

Lemma trimStart_snoc l c :
  is_space c = false -> trimStart (l ++ [c]) = trimStart l ++ [c].
Proof.
  intros Hc. induction l as [|x l IH]; simpl; [by rewrite Hc|].
  destruct (is_space x); [exact IH | reflexivity].
Qed.

Lemma forallb_rev {A} (f : A -> bool) l :
  forallb f (rev l) = forallb f l.
Proof.
  induction l as [|x l IH]; [reflexivity|].
  simpl. rewrite forallb_app, IH. simpl. rewrite andb_true_r. apply andb_comm.
Qed.

Lemma forallb_trimStart f s :
  forallb f s = true -> forallb f (trimStart s) = true.
Proof.
  induction s as [|c s IH]; [reflexivity|].
  intros H. simpl. destruct (is_space c); [|exact H].
  apply IH. simpl in H. by apply andb_true_iff in H as [_ H].
Qed.

Lemma forallb_trim f s : forallb f s = true -> forallb f (trim s) = true.
Proof.
  intros H. unfold trim. rewrite forallb_rev. apply forallb_trimStart.
  rewrite forallb_rev. apply forallb_trimStart, H.
Qed.

(** What [trim] returns starts and ends with a character that is no
    white space. *)
Lemma trim_ends s :
  trimStart (trim s) = trim s /\ trimStart (rev (trim s)) = rev (trim s).
Proof.
  unfold trim. rewrite rev_involutive.
  split; [|apply trimStart_idem].
  destruct (trimStart s) as [|c0 t0] eqn:E0; [reflexivity|].
  apply trimStart_head in E0 as Hc0.
  simpl rev. rewrite (trimStart_snoc _ _ Hc0), rev_app_distr. simpl.
  by rewrite Hc0.
Qed.

Lemma trim_idem s : trim (trim s) = trim s.
Proof.
  destruct (trim_ends s) as [H1 H2].
  unfold trim at 1. rewrite H1, H2. apply rev_involutive.
Qed.

(** A trimmed text between white space is what [trim] returns. *)
Lemma trim_padded l n r :
  forallb is_space l = true -> forallb is_space r = true ->
  trim n = n -> trim (l ++ n ++ r) = n.
Proof.
  intros Hl Hr Hn.
  destruct (trim_ends n) as [H1 H2]. rewrite Hn in H1, H2.
  unfold trim. rewrite (trimStart_spaces l _ Hl).
  destruct n as [|c n'].
  - simpl. rewrite <- (app_nil_r r), (trimStart_spaces r [] Hr). reflexivity.
  - assert (Hc : is_space c = false) by (eapply trimStart_head; exact H1).
    change ((c :: n') ++ r) with (c :: n' ++ r).
    rewrite (trimStart_fixed _ _ Hc).
    change (c :: n' ++ r) with ((c :: n') ++ r).
    rewrite rev_app_distr, trimStart_spaces by (by rewrite forallb_rev).
    rewrite H2. apply rev_involutive.
Qed.

Lemma split_not_nil c s : split c s <> [].
Proof.
  destruct s as [|x s]; simpl; [discriminate|].
  destruct (ascii_eqb x c); [discriminate|].
  destruct (split c s); discriminate.
Qed.

Lemma split_parts c s :
  Forall (fun part => forallb (fun x => negb (ascii_eqb x c)) part = true)
    (split c s).
Proof.
  induction s as [|x s IH]; simpl; [by repeat constructor|].
  destruct (ascii_eqb x c) eqn:Hx; [by constructor|].
  destruct (split c s) as [|h t]; [by repeat constructor; simpl; rewrite Hx|].
  inversion IH as [|? ? Hh Ht]; subst.
  constructor; [simpl; by rewrite Hx, Hh | exact Ht].
Qed.

Lemma split_whole c p :
  forallb (fun x => negb (ascii_eqb x c)) p = true -> split c p = [p].
Proof.
  induction p as [|x p IH]; [reflexivity|].
  simpl. intros [Hx Hp]%andb_true_iff.
  apply negb_true_iff in Hx. rewrite Hx, (IH Hp). reflexivity.
Qed.

Lemma split_app_sep c p rest :
  forallb (fun x => negb (ascii_eqb x c)) p = true ->
  split c (p ++ c :: rest) = p :: split c rest.
Proof.
  induction p as [|x p IH].
  - intros _. simpl. by rewrite ascii_eqb_refl.
  - simpl. intros [Hx Hp]%andb_true_iff.
    apply negb_true_iff in Hx. rewrite Hx, (IH Hp). reflexivity.
Qed.

(** Splitting what was joined gives the parts back. *)
Lemma split_join c parts :
  parts <> [] ->
  Forall (fun part => forallb (fun x => negb (ascii_eqb x c)) part = true)
    parts ->
  split c (join_with [c] parts) = parts.
Proof.
  intros Hne Hparts. induction Hparts as [|p more Hp Hmore IH];
    [contradiction|].
  destruct more as [|q more'].
  - simpl. apply split_whole, Hp.
  - change (join_with [c] (p :: q :: more'))
      with (p ++ c :: join_with [c] (q :: more')).
    rewrite (split_app_sep _ _ _ Hp), IH; [reflexivity | discriminate].
Qed.

End TrimAndSplit.

(** ** The named imports of an import statement *)

Section NamedImports.
Import Inject ImportArrival.

(** X5: every name that [parseNamedImports] returns, for whatever text
    between the braces, is not empty, holds no comma, and has no white
    space at its start or end. *)
Theorem parseNamedImports_names (namedImportsText : jsstring) :
  Forall (fun n =>
            n <> [] /\
            forallb (fun c => negb (ascii_eqb c ",")) n = true /\
            trim n = n)
    (parseNamedImports namedImportsText).
Proof.
  unfold parseNamedImports. apply Forall_forall. intros n Hn.
  apply list_elem_of_filter in Hn as [Hne Hn].
  apply list_elem_of_fmap in Hn as (part & -> & Hpart).
  split; [|split].
  - intros E. rewrite E in Hne. exact Hne.
  - apply forallb_trim.
    pose proof (split_parts "," namedImportsText) as Hparts.
    rewrite Forall_forall in Hparts. apply Hparts, Hpart.
  - apply trim_idem.
Qed.

Lemma paddedText_no_comma p :
  wellPadded p = true ->
  forallb (fun x => negb (ascii_eqb x ",")) (paddedText p) = true.
Proof.
  unfold wellPadded, paddedText.
  intros [[[Hb Ha]%andb_true_iff Hn]%andb_true_iff _]%andb_true_iff.
  assert (Hsp : forall l, forallb is_space l = true ->
            forallb (fun x => negb (ascii_eqb x ",")) l = true).
  { intros l. induction l as [|c l IH]; [reflexivity|]. simpl.
    intros [Hc Hl]%andb_true_iff. rewrite (IH Hl), andb_true_r.
    destruct (ascii_eqb c ",") eqn:E; [|reflexivity].
    apply Ascii.eqb_eq in E. subst c. discriminate Hc. }
  rewrite !forallb_app, (Hsp _ Hb), (Hsp _ Ha), Hn. reflexivity.
Qed.

Lemma trim_paddedText p :
  wellPadded p = true -> trim (paddedText p) = importName p.
Proof.
  unfold wellPadded, paddedText.
  intros [[[Hb Ha]%andb_true_iff _]%andb_true_iff Ht]%andb_true_iff.
  apply bool_decide_eq_true in Ht. by apply trim_padded.
Qed.

(** X6: a list of names written out with commas between them and any
    white space around each, also with nothing between two commas or
    behind the last one, is read back by [parseNamedImports] as the names
    that are not empty, in their order. *)
Theorem parseNamedImports_reads_back (items : list PaddedName) :
  forallb wellPadded items = true ->
  parseNamedImports (join_with [","] (map paddedText items))
  = filter (fun n => negb (Nat.eqb (length n) 0)) (map importName items).
Proof.
  intros Hitems. unfold parseNamedImports.
  destruct items as [|p more]; [reflexivity|].
  rewrite split_join.
  - f_equal. rewrite map_map. apply map_ext_in. intros q Hq.
    apply trim_paddedText.
    rewrite forallb_forall in Hitems. apply Hitems, Hq.
  - discriminate.
  - apply Forall_forall. intros part Hpart.
    apply list_elem_of_fmap in Hpart as (q & -> & Hq).
    apply paddedText_no_comma.
    rewrite forallb_forall in Hitems. apply Hitems.
    apply list_elem_of_In, Hq.
Qed.

Lemma parseNamedImports_reads_back_witness :
  parseNamedImports
    (join_with [","]
       (map paddedText
          [mkPaddedName (str " ") (str "z") [];
           mkPaddedName (str " ") (str "User as U") ["010"];
           mkPaddedName (str "  ") [] []]))
  = filter (fun n => negb (Nat.eqb (length n) 0))
      (map importName
         [mkPaddedName (str " ") (str "z") [];
          mkPaddedName (str " ") (str "User as U") ["010"];
          mkPaddedName (str "  ") [] []]).
Proof.
  apply (parseNamedImports_reads_back
           [mkPaddedName (str " ") (str "z") [];
            mkPaddedName (str " ") (str "User as U") ["010"];
            mkPaddedName (str "  ") [] []]).
  vm_compute. reflexivity.
Defined.

End NamedImports.


(** ** Import statements, one per line *)

Section ImportOnlyRegex.
Import Regex ImportOnly.

Ltac stage H := rewrite H; cbn [mbind option_bind].

Lemma matchImportAt_shape nt m rest :
  forallb notRBrace nt = true -> m <> [] -> forallb notQuote m = true ->
  dropWhile is_space rest = rest ->
  matchImportAt (str "import {" ++ nt ++ str "} from '" ++ m ++ str "';"
                 ++ "010" :: rest)
  = Some (mkImportMatch
            (str "import {" ++ nt ++ str "} from '" ++ m ++ str "';" ++ ["010"])
            nt m).
Proof.
  intros Hnt Hm Hq Hrest.
  set (s := str "import {" ++ nt ++ str "} from '" ++ m ++ str "';"
            ++ "010" :: rest).
  set (afterModule := "'" :: ";" :: "010" :: rest).
  set (afterNames := "}" :: " " :: str "from '" ++ m ++ afterModule).
  unfold matchImportAt.
  assert (E1 : expect (str "import") s = Some (" " :: "{" :: nt ++ afterNames))
    by reflexivity.
  stage E1.
  assert (E2 : oneOrMore is_space (" " :: "{" :: nt ++ afterNames)
               = Some ([" "], "{" :: nt ++ afterNames)) by reflexivity.
  stage E2.
  assert (E3 : expect (str "{") ("{" :: nt ++ afterNames)
               = Some (nt ++ afterNames)) by reflexivity.
  stage E3.
  unfold afterNames at 1 2.
  rewrite takeWhile_app_stop, dropWhile_app_stop by (exact Hnt || reflexivity).
  assert (E4 : expect (str "}") ("}" :: " " :: str "from '" ++ m ++ afterModule)
               = Some (" " :: str "from '" ++ m ++ afterModule)) by reflexivity.
  stage E4.
  assert (E5 : oneOrMore is_space (" " :: str "from '" ++ m ++ afterModule)
               = Some ([" "], str "from '" ++ m ++ afterModule)) by reflexivity.
  stage E5.
  assert (E6 : expect (str "from") (str "from '" ++ m ++ afterModule)
               = Some (" " :: "'" :: m ++ afterModule)) by reflexivity.
  stage E6.
  assert (E7 : oneOrMore is_space (" " :: "'" :: m ++ afterModule)
               = Some ([" "], "'" :: m ++ afterModule)) by reflexivity.
  stage E7.
  assert (E8 : quote ("'" :: m ++ afterModule) = Some (m ++ afterModule))
    by reflexivity.
  stage E8.
  unfold afterModule at 1.
  rewrite oneOrMore_app_stop by (assumption || reflexivity).
  cbn [mbind option_bind].
  assert (E9 : quote ("'" :: ";" :: "010" :: rest) = Some (";" :: "010" :: rest))
    by reflexivity.
  stage E9.
  assert (E10 : expect (str ";") (";" :: "010" :: rest) = Some ("010" :: rest))
    by reflexivity.
  rewrite E10.
  assert (E11 : dropWhile is_space ("010" :: rest) = rest)
    by (simpl; exact Hrest).
  rewrite E11.
  f_equal. f_equal.
  assert (Es : s = (str "import {" ++ nt ++ str "} from '" ++ m ++ str "';"
                    ++ ["010"]) ++ rest).
  { unfold s. rewrite <- !app_assoc. reflexivity. }
  rewrite Es. apply take_app_minus.
Qed.

Lemma plainChar_notRBrace c : plainChar c = true -> notRBrace c = true.
Proof. intros H. by destruct (plainChar_inv c H) as (_ & _ & _ & ? & _). Qed.

Lemma plainChar_notQuote c : plainChar c = true -> notQuote c = true.
Proof. intros H. by destruct (plainChar_inv c H) as (_ & _ & _ & _ & ?). Qed.

Lemma forallb_join_with f sep (parts : list jsstring) :
  forallb f sep = true -> forallb (forallb f) parts = true ->
  forallb f (join_with sep parts) = true.
Proof.
  intros Hsep. induction parts as [|p ps IH]; [reflexivity|].
  intros [Hp Hps]%andb_true_iff.
  destruct ps as [|p' ps']; [exact Hp|].
  change (join_with sep (p :: p' :: ps'))
    with (p ++ sep ++ join_with sep (p' :: ps')).
  rewrite !forallb_app, Hp, Hsep. simpl. apply IH, Hps.
Qed.

(** The text between the braces is made of characters of any class [f]
    that has the blank, the comma and the plain characters. *)
Lemma forallb_namesText f names :
  f " " = true -> f "," = true ->
  (forall c, plainChar c = true -> f c = true) ->
  forallb plainName names = true ->
  forallb f (namesText names) = true.
Proof.
  intros Hsp Hcomma Hplain Hnames. unfold namesText.
  cbn [forallb]. rewrite Hsp. cbn [andb].
  rewrite forallb_app. cbn [forallb]. rewrite Hsp, !andb_true_r.
  apply forallb_join_with; [simpl; by rewrite Hcomma, Hsp|].
  induction names as [|n more IH]; [reflexivity|].
  cbn [forallb] in *. apply andb_true_iff in Hnames as [Hn Hmore].
  rewrite IH by exact Hmore. rewrite andb_true_r.
  apply plainName_chars in Hn.
  clear -Hn Hplain. induction n as [|c n IHn]; [reflexivity|].
  cbn [forallb] in *. apply andb_true_iff in Hn as [Hc Hn].
  by rewrite (Hplain c Hc), IHn.
Qed.

Lemma wellFormed_inv l :
  wellFormed l = true ->
  forallb notRBrace (namesText (lineNames l)) = true /\
  forallb notQuote (namesText (lineNames l)) = true /\
  lineModule l <> [] /\
  forallb notQuote (lineModule l) = true.
Proof.
  unfold wellFormed. rewrite !andb_true_iff. intros [[Hn Hm] Hq].
  split; [|split; [|split]].
  - apply forallb_namesText; auto using plainChar_notRBrace.
  - apply forallb_namesText; auto using plainChar_notQuote.
  - intros E. rewrite E in Hm. discriminate.
  - apply forallb_forall. intros c Hc.
    apply (proj1 (forallb_forall _ _) Hq) in Hc. unfold specifierChar in Hc.
    by apply andb_true_iff in Hc as [[Hc _]%andb_true_iff _].
Qed.

Lemma lineText_app l rest :
  lineText l ++ rest
  = str "import {" ++ namesText (lineNames l) ++ str "} from '"
    ++ lineModule l ++ str "';" ++ "010" :: rest.
Proof. unfold lineText, statementText. rewrite <- !app_assoc. reflexivity. Qed.

Lemma lineText_alt l :
  lineText l
  = str "import {" ++ namesText (lineNames l) ++ str "} from '"
    ++ lineModule l ++ str "';" ++ ["010"].
Proof. rewrite <- (app_nil_r (lineText l)) at 1. apply lineText_app. Qed.

Lemma matchImportAt_line l rest :
  wellFormed l = true -> dropWhile is_space rest = rest ->
  matchImportAt (lineText l ++ rest) = Some (matchOfLine l).
Proof.
  intros (Hb & _ & Hm & Hq)%wellFormed_inv Hrest.
  rewrite lineText_app, matchImportAt_shape by assumption.
  unfold matchOfLine. by rewrite lineText_alt.
Qed.

End ImportOnlyRegex.

(** ** The statements and the imports of the AST variant *)

Section AstStatements.
Import TsMorph Inject InjectFile ImportDedup ImportArrival.
Variable importsIn : jsstring -> list ImportDeclaration.








End AstStatements.


(** ** Named imports arrive *)

Section ImportsArrive.
Import TsMorph Inject InjectFile ImportDedup ImportArrival.
Variable importsIn : jsstring -> list ImportDeclaration.



(** *** A module specifier that is a key of the set *)

Lemma addNamedImportFirst_unmatched m n decls :
  (forall d, d ∈ decls -> moduleSpecifier d <> m) ->
  addNamedImportFirst (hasSpecifier m) n decls = inr decls.
Proof.
  intros Hno. pose proof (addNamedImportFirst_spec m n decls) as Hspec.
  destruct (addNamedImportFirst _ n decls) as [e|decls'].
  - destruct Hspec as (_ & pre & d & post & -> & _ & Hd & _).
    destruct (Hno d); [|exact Hd]. apply elem_of_app. right. by left.
  - destruct Hspec as [[_ ->]|(pre & d & post & -> & _ & Hd & _)]; [done|].
    destruct (Hno d); [|exact Hd]. apply elem_of_app. right. by left.
Qed.

Lemma processNamedImport_collision m n sf ex :
  m ∈ ex -> (forall d, d ∈ importDeclarations sf -> moduleSpecifier d <> m) ->
  let r := processNamedImport m (sf, ex) n in
  fst (fst r) = sf /\ m ∈ snd (fst r) /\ snd r = None.
Proof.
  intros Hm Hno. unfold processNamedImport.
  destruct (decide (importKey m n ∈ ex)); [done|].
  rewrite decide_True by exact Hm.
  rewrite addNamedImportFirst_unmatched by exact Hno. cbn [fst snd].
  split; [by destruct sf|]. split; [by apply elem_of_union_r | done].
Qed.

Lemma processImport_collision m text sf ex :
  m ∈ ex -> (forall d, d ∈ importDeclarations sf -> moduleSpecifier d <> m) ->
  let r := processImport (sf, ex) (m, text) in
  fst (fst r) = sf /\ snd r = None.
Proof.
  intros Hm Hno. unfold processImport.
  generalize (parseNamedImports text). intros names. revert ex Hm.
  induction names as [|n names IH]; intros ex Hm; [done|].
  rewrite forEachTry_cons.
  destruct (processNamedImport_collision m n sf ex Hm Hno) as (Hf & Hs & Ht).
  destruct (processNamedImport m (sf, ex) n) as [[sf1 ex1] t1].
  cbn [fst snd] in *. subst sf1 t1. by apply IH.
Qed.

(** X9: the keys of [existingImports] are module specifiers and texts
    "specifier:name" in one set.  When the app-router file imports [n0]
    from [m0] and has no declaration for the module whose specifier is the
    text "m0:n0", the named imports of an import from that module are
    dropped: the import loop finds the specifier in the set, finds no
    declaration to add to, and leaves the file as it was, without a throw.
    So does the AST variant on a file with such an import statement. *)
Theorem colliding_module_specifier_is_dropped
    (sf : SourceFile) (m0 n0 namedImportsText : jsstring) :
  present m0 n0 (importDeclarations sf) ->
  (forall d, d ∈ importDeclarations sf ->
     moduleSpecifier d <> importKey m0 n0) ->
  (let r := processImport (sf, buildExistingImports sf)
              (importKey m0 n0, namedImportsText) in
   fst (fst r) = sf /\ snd r = None) /\
  forall s,
    isImportDeclaration s = true ->
    fst (importOfStatement (getText s)) = importKey m0 n0 ->
    injectAst importsIn sf [s] = (sf, None).
Proof.
  intros (d & Hd & Hm & Hn) Hno.
  assert (Hkey : importKey m0 n0 ∈ buildExistingImports sf).
  { apply elem_of_keys. exists d. split; [exact Hd|].
    apply elem_of_declKeys. right. exists n0. by rewrite Hm. }
  split; [by apply processImport_collision|].
  intros s Hs Hspec. unfold injectAst. cbn [forEachTry].
  unfold injectStatement. rewrite Hs.
  destruct (importOfStatement (getText s)) as [m text]. simpl in Hspec.
  subst m.
  destruct (processImport_collision (importKey m0 n0) text sf
              (buildExistingImports sf) Hkey Hno) as [Hf Ht].
  destruct (processImport _ _) as [[sf1 ex1] t1]. cbn [fst snd] in *.
  by subst.
Qed.

End ImportsArrive.


Lemma colliding_module_specifier_is_dropped_witness :
  let sf :=
    TsMorph.mkSourceFile [TsMorph.mkImport (str "node") [str "path"]] [] in
  (let r := Inject.processImport (sf, Inject.buildExistingImports sf)
              (Inject.importKey (str "node") (str "path"), str " join ") in
   fst (fst r) = sf /\ snd r = None) /\
  forall s,
    InjectFile.isImportDeclaration s = true ->
    fst (InjectFile.importOfStatement (InjectFile.getText s))
      = Inject.importKey (str "node") (str "path") ->
    InjectFile.injectAst SplicedImports.importsIn sf [s] = (sf, None).
Proof.
  apply (colliding_module_specifier_is_dropped SplicedImports.importsIn
           (TsMorph.mkSourceFile
              [TsMorph.mkImport (str "node") [str "path"]] [])
           (str "node") (str "path") (str " join ")).
  - exists (TsMorph.mkImport (str "node") [str "path"]).
    split; [by left|]. split; [reflexivity | by left].
  - intros d ->%list_elem_of_singleton. discriminate.
Defined.

(** The import of [join] from 'node:path' is lost in a file that imports
    [path] from 'node', with either variant. *)
Example colliding_module_specifier_example :
  let sf :=
    TsMorph.mkSourceFile [TsMorph.mkImport (str "node") [str "path"]] [] in
  InjectFile.injectRegex SplicedImports.importsIn sf
    (str "import { join } from 'node:path';") = (sf, None) /\
  InjectFile.injectAst SplicedImports.importsIn sf
    [InjectFile.mkStatement true (str "import { join } from 'node:path';")]
    = (sf, None) /\
  InjectFile.injectRegex SplicedImports.importsIn TsMorph.emptySourceFile
    (str "import { join } from 'node:path';")
    = (TsMorph.mkSourceFile
         [TsMorph.mkImport (str "node:path") [str "join"]] [], None).
Proof. vm_compute. repeat split. Qed.

(** ** Injection only adds *)

Section InjectionGrows.
Import TsMorph Inject InjectFile ImportDedup ImportArrival.
Variable importsIn : jsstring -> list ImportDeclaration.

Lemma injectRegex_grows sf fileContent :
  fileGrows sf (fst (injectRegex importsIn sf fileContent)).
Proof. rewrite injectRegex_fst. apply steps_grow. Qed.

Lemma injectAst_grows sf stmts :
  fileGrows sf (fst (injectAst importsIn sf stmts)).
Proof. rewrite injectAst_fst. apply steps_grow. Qed.

(** X10: injection only adds to the import declarations of the app-router
    file.  Whatever files are injected, by either variant, and whether or
    not a call threw: every import declaration the file had is still
    there, at its position and with its module specifier, its default
    import and its namespace import, its named imports followed by the
    ones added; new declarations come behind them.  (An import statement
    that came in with spliced text is one of these declarations, and may
    get named imports like the others.) *)
Theorem injection_only_adds (sf : SourceFile) (contents : list jsstring)
    (files : list (list Statement)) :
  declsGrow (importDeclarations sf)
    (importDeclarations (injectAllRegex importsIn sf contents)) /\
  declsGrow (importDeclarations sf)
    (importDeclarations (injectAllAst importsIn sf files)).
Proof.
  split.
  - unfold injectAllRegex. revert sf.
    induction contents as [|c contents IH]; intros sf; [apply declsGrow_refl|].
    cbn [fold_left]. eapply declsGrow_trans; [|apply IH].
    apply injectRegex_grows.
  - unfold injectAllAst. revert sf.
    induction files as [|f files IH]; intros sf; [apply declsGrow_refl|].
    cbn [fold_left]. eapply declsGrow_trans; [|apply IH].
    apply injectAst_grows.
Qed.

End InjectionGrows.

(** ** Injecting a file twice *)

Section SecondInjection.
Import TsMorph Inject InjectFile ImportDedup ImportArrival.
Variable importsIn : jsstring -> list ImportDeclaration.








End SecondInjection.


(** ** What the regular-expression variant splices *)

Section RegexSplice.
Import TsMorph Inject InjectFile ImportDedup ImportArrival Regex.
Variable importsIn : jsstring -> list ImportDeclaration.

Lemma includes_cons c s sub :
  includes (c :: s) sub = false ->
  startsWith (c :: s) sub = false /\ includes s sub = false.
Proof. simpl includes. apply orb_false_iff. Qed.

(** Without the word import in the text, the import pattern finds
    nothing. *)
Lemma execAll_without_import skip s :
  includes s (str "import") = false -> execAll skip s = [].
Proof.
  revert skip. induction s as [|c s IH]; intros skip Hs; [reflexivity|].
  apply includes_cons in Hs as [Hhere Hrest].
  cbn [execAll]. destruct skip as [|k]; [|apply IH, Hrest].
  unfold matchImportAt, expect. rewrite Hhere. simpl. apply IH, Hrest.
Qed.

Lemma forallb_dropWhile f g (s : jsstring) :
  forallb f s = true -> forallb f (dropWhile g s) = true.
Proof.
  induction s as [|c s IH]; [reflexivity|].
  intros H. simpl. destruct (g c); [|exact H].
  apply IH. simpl in H. by apply andb_true_iff in H as [_ H].
Qed.

Lemma expect_semicolon s :
  forallb (fun c => negb (ascii_eqb c ";")) s = true ->
  expect (str ";") s = None.
Proof.
  unfold expect. destruct s as [|c s]; [reflexivity|].
  simpl. intros [Hc _]%andb_true_iff. apply negb_true_iff in Hc.
  by rewrite Hc.
Qed.

(** A pattern that matches nowhere in the text leaves it as it is. *)
Lemma replaceAll_unmatched matchAt replacement (P : ascii -> bool) prev s :
  (forall b t, forallb P t = true -> matchAt b t = None) ->
  forallb P s = true ->
  replaceAll matchAt replacement 0 prev s = s.
Proof.
  intros Hnone. revert prev. induction s as [|c s IH]; intros prev Hs;
    [reflexivity|].
  cbn [replaceAll]. rewrite (Hnone _ _ Hs). f_equal. apply IH.
  simpl in Hs. by apply andb_true_iff in Hs as [_ Hs].
Qed.

(** The clean-up changes nothing in a text without semicolon. *)
Lemma cleanup_without_semicolon s :
  forallb (fun c => negb (ascii_eqb c ";")) s = true -> cleanup s = s.
Proof.
  intros Hs. unfold cleanup.
  rewrite (replaceAll_unmatched matchSemis _
             (fun c => negb (ascii_eqb c ";")));
    [|intros b t Ht; unfold matchSemis; by rewrite expect_semicolon | exact Hs].
  rewrite (replaceAll_unmatched matchLeadingSemi _
             (fun c => negb (ascii_eqb c ";")));
    [|intros b t Ht; unfold matchLeadingSemi; destruct b; [|reflexivity];
      by rewrite expect_semicolon by (by apply forallb_dropWhile)
     | exact Hs].
  apply (replaceAll_unmatched matchTrailingSemi _
           (fun c => negb (ascii_eqb c ";"))); [|exact Hs].
  intros b t Ht. unfold matchTrailingSemi.
  by rewrite expect_semicolon by (by apply forallb_dropWhile).
Qed.

Lemma trim_spaces s : forallb is_space s = true -> trim s = [].
Proof.
  intros Hs. unfold trim.
  rewrite <- (app_nil_r s), (trimStart_spaces s [] Hs). reflexivity.
Qed.

Lemma spaces_without (c : ascii) s :
  is_space c = false -> forallb is_space s = true ->
  forallb (fun x => negb (ascii_eqb x c)) s = true.
Proof.
  intros Hc. induction s as [|x s IH]; [reflexivity|].
  simpl. intros [Hx Hs]%andb_true_iff. rewrite (IH Hs), andb_true_r.
  destruct (ascii_eqb x c) eqn:E; [|reflexivity].
  apply Ascii.eqb_eq in E. congruence.
Qed.

Lemma spaces_without_import s :
  forallb is_space s = true -> includes s (str "import") = false.
Proof.
  induction s as [|x s IH]; [reflexivity|].
  simpl forallb. intros [Hx Hs]%andb_true_iff.
  change (includes (x :: s) (str "import"))
    with (startsWith (x :: s) (str "import") || includes s (str "import")).
  rewrite (IH Hs), orb_false_r.
  change (str "import") with ("i" :: str "mport"). cbn [startsWith].
  destruct (ascii_eqb x "i") eqn:E; [|reflexivity].
  apply Ascii.eqb_eq in E. subst x. discriminate Hx.
Qed.

(** X12: a file whose text holds neither the word import nor a semicolon
    goes into the app-router file as one statement, its text unchanged but
    for the white space trimmed at both ends, and nothing throws; the
    import loop has nothing to do.  A file that is empty or holds white
    space only changes nothing. *)
Theorem text_without_import_is_spliced_verbatim
    (sf : SourceFile) (fileContent : jsstring) :
  includes fileContent (str "import") = false ->
  forallb (fun c => negb (ascii_eqb c ";")) fileContent = true ->
  injectRegex importsIn sf fileContent
  = (match trim fileContent with
     | [] => sf
     | cleanedContent => addStatements importsIn cleanedContent sf
     end, None).
Proof.
  intros Himport Hsemi. unfold injectRegex, cleanedContent, removeImports.
  rewrite (execAll_without_import 0 _ Himport). cbn [fold_left forEachTry].
  rewrite (cleanup_without_semicolon _ Hsemi).
  destruct (trim fileContent); reflexivity.
Qed.

(** White space only, the empty text included: nothing is injected. *)
Lemma blank_file_changes_nothing sf fileContent :
  forallb is_space fileContent = true ->
  injectRegex importsIn sf fileContent = (sf, None).
Proof.
  intros Hs. unfold injectRegex, cleanedContent, removeImports.
  rewrite (execAll_without_import 0 _ (spaces_without_import _ Hs)).
  cbn [fold_left forEachTry].
  rewrite (cleanup_without_semicolon _ (spaces_without ";" _ eq_refl Hs)).
  by rewrite (trim_spaces _ Hs).
Qed.

(** X13: whatever the text of the injected file, the regular-expression
    variant hands at most one text to [addStatements], behind the ones
    that had been handed over, and only when the import loop over the
    matches of the import pattern did not throw; that text is not empty
    and has no white space at its start or end.  The import declarations
    it leaves are those of the import loop, followed by the import
    declarations that the parser finds in the text handed over; the error,
    if any, is that of the import loop. *)
Theorem injectRegex_statements_and_imports
    (sf : SourceFile) (fileContent : jsstring) :
  let r := injectRegex importsIn sf fileContent in
  let loop :=
    forEachTry processImport (matchedImports fileContent)
      (sf, buildExistingImports sf) in
  snd r = snd loop /\
  ((statements (fst r) = statements sf /\
    importDeclarations (fst r) = importDeclarations (fst (fst loop))) \/
   exists cleanedContent,
     snd loop = None /\
     cleanedContent <> [] /\ trim cleanedContent = cleanedContent /\
     statements (fst r) = statements sf ++ [cleanedContent] /\
     importDeclarations (fst r)
       = importDeclarations (fst (fst loop)) ++ importsIn cleanedContent).
Proof.
  cbn zeta. unfold injectRegex, matchedImports. rewrite forEachTry_map.
  pose proof (forEachTry_lift
                (fun st mt => processImport st (importOfMatch mt))
                (fun _ => True) (fun _ => True)
                (fun a b : SourceFile * gset jsstring =>
                   statements (fst b) = statements (fst a))
                (execAll 0 fileContent)) as Hlift.
  destruct (Hlift (fun _ => eq_refl)) with (s := (sf, buildExistingImports sf))
    as [_ Hst]; try done.
  { intros a b c H1 H2. congruence. }
  { intros s mt _ _. split; [done|]. apply processImport_grows. }
  { by apply Forall_forall. }
  clear Hlift. cbn [fst] in Hst.
  destruct (forEachTry _ (execAll 0 fileContent) _) as [[sf1 ex1] [e|]];
    cbn [fst snd] in *.
  { split; [reflexivity|]. by left. }
  destruct (cleanedContent fileContent) as [|c t] eqn:Ht; cbn [fst snd].
  { split; [reflexivity|]. by left. }
  split; [reflexivity|]. right. exists (c :: t).
  split; [reflexivity|]. split; [discriminate|].
  split; [rewrite <- Ht; apply trim_idem|].
  unfold addStatements. cbn [statements importDeclarations].
  by rewrite Hst.
Qed.

End RegexSplice.

Lemma text_without_import_is_spliced_verbatim_witness :
  InjectFile.injectRegex SplicedImports.importsIn TsMorph.emptySourceFile
    (str ("export const userSchema = z.object({})" ++ lf))
  = (match trim (str ("export const userSchema = z.object({})" ++ lf)) with
     | [] => TsMorph.emptySourceFile
     | cleanedContent =>
         TsMorph.addStatements SplicedImports.importsIn cleanedContent
           TsMorph.emptySourceFile
     end, None).
Proof.
  apply (text_without_import_is_spliced_verbatim SplicedImports.importsIn
           TsMorph.emptySourceFile
           (str ("export const userSchema = z.object({})" ++ lf)));
    reflexivity.
Defined.

(** ** What the import pattern matches *)

Section ImportPatternShape.
Import Regex ImportPattern.

Lemma startsWith_inv (s p : jsstring) :
  startsWith s p = true -> s = p ++ drop (length p) s.
Proof.
  revert s. induction p as [|c p IH]; intros s; [reflexivity|].
  destruct s as [|x s]; simpl; [discriminate|].
  intros [Hx Hs]%andb_true_iff. apply Ascii.eqb_eq in Hx. subst x.
  f_equal. apply IH, Hs.
Qed.

Lemma expect_inv lit s r : expect lit s = Some r -> s = lit ++ r.
Proof.
  unfold expect. destruct (startsWith s lit) eqn:E; [|discriminate].
  intros H. injection H as <-. by apply startsWith_inv.
Qed.

Lemma takeWhile_dropWhile f (s : jsstring) :
  s = takeWhile f s ++ dropWhile f s.
Proof.
  induction s as [|c s IH]; [reflexivity|].
  simpl. destruct (f c); [simpl; by f_equal | reflexivity].
Qed.

Lemma forallb_takeWhile f (s : jsstring) : forallb f (takeWhile f s) = true.
Proof.
  induction s as [|c s IH]; [reflexivity|].
  simpl. destruct (f c) eqn:E; [simpl; by rewrite E | reflexivity].
Qed.

Lemma dropWhile_fixed f (s : jsstring) :
  dropWhile f (dropWhile f s) = dropWhile f s.
Proof.
  induction s as [|c s IH]; [reflexivity|].
  simpl. destruct (f c) eqn:E; [exact IH | simpl; by rewrite E].
Qed.

Lemma oneOrMore_inv f s taken r :
  oneOrMore f s = Some (taken, r) ->
  s = taken ++ r /\ taken <> [] /\ forallb f taken = true /\
  dropWhile f r = r.
Proof.
  unfold oneOrMore. destruct (takeWhile f s) as [|c t] eqn:E; [discriminate|].
  intros H. injection H as <- <-. rewrite <- E.
  split; [apply takeWhile_dropWhile|].
  split; [rewrite E; discriminate|].
  split; [apply forallb_takeWhile | apply dropWhile_fixed].
Qed.

Lemma quote_inv s r :
  quote s = Some r -> exists q, s = q :: r /\ isQuote q = true.
Proof.
  destruct s as [|c s]; simpl; [discriminate|].
  destruct (isQuote c) eqn:E; [|discriminate].
  intros H. injection H as <-. eauto.
Qed.

Lemma someSpaces_intro ws :
  ws <> [] -> forallb is_space ws = true -> someSpaces ws = true.
Proof. intros Hne Hws. unfold someSpaces. rewrite Hws. by destruct ws. Qed.

Lemma someSpaces_inv ws :
  someSpaces ws = true -> ws <> [] /\ forallb is_space ws = true.
Proof.
  unfold someSpaces. intros [Hne Hws]%andb_true_iff.
  split; [by destruct ws | exact Hws].
Qed.

Lemma dropWhile_spaces_app ws rest :
  forallb is_space ws = true ->
  dropWhile is_space (ws ++ rest) = dropWhile is_space rest.
Proof.
  induction ws as [|c ws IH]; [reflexivity|].
  simpl. intros [Hc Hws]%andb_true_iff. rewrite Hc. apply IH, Hws.
Qed.

Lemma takeWhile_all f (l : jsstring) r :
  forallb f l = true -> dropWhile f r = r ->
  takeWhile f (l ++ r) = l /\ dropWhile f (l ++ r) = r.
Proof.
  intros Hl Hr. induction l as [|c l IH]; simpl.
  - split; [|exact Hr]. destruct r as [|x r]; [reflexivity|].
    simpl in *. destruct (f x); [|reflexivity].
    pose proof (dropWhile_length f r) as L. rewrite Hr in L. simpl in L. lia.
  - simpl in Hl. apply andb_true_iff in Hl as [Hc Hl]. rewrite Hc.
    destruct (IH Hl) as [-> ->]. done.
Qed.

Lemma isQuote_not_space q : isQuote q = true -> is_space q = false.
Proof.
  unfold isQuote, ascii_eqb.
  intros [H|H]%orb_true_iff; apply Ascii.eqb_eq in H; by subst.
Qed.

(** The pieces of a match, read off the stages of the matcher. *)
Lemma matchImportAt_parts s mt :
  matchImportAt s = Some mt ->
  exists p rest,
    wellFormed p = true /\ maximal p rest = true /\
    s = text p ++ rest /\
    mt = mkImportMatch (text p) (names p) (specifier p).
Proof.
  unfold matchImportAt. intros H.
  destruct (expect (str "import") s) as [s1|] eqn:E1;
    cbn [mbind option_bind] in H; [|discriminate].
  destruct (oneOrMore is_space s1) as [[ws1 s2]|] eqn:E2;
    cbn [mbind option_bind] in H; [|discriminate].
  destruct (expect (str "{") s2) as [s3|] eqn:E3;
    cbn [mbind option_bind] in H; [|discriminate].
  destruct (expect (str "}") (dropWhile notRBrace s3)) as [s4|] eqn:E4;
    cbn [mbind option_bind] in H; [|discriminate].
  destruct (oneOrMore is_space s4) as [[ws2 s5]|] eqn:E5;
    cbn [mbind option_bind] in H; [|discriminate].
  destruct (expect (str "from") s5) as [s6|] eqn:E6;
    cbn [mbind option_bind] in H; [|discriminate].
  destruct (oneOrMore is_space s6) as [[ws3 s7]|] eqn:E7;
    cbn [mbind option_bind] in H; [|discriminate].
  destruct (quote s7) as [s8|] eqn:E8;
    cbn [mbind option_bind] in H; [|discriminate].
  destruct (oneOrMore notQuote s8) as [[m s9]|] eqn:E9;
    cbn [mbind option_bind] in H; [|discriminate].
  destruct (quote s9) as [s10|] eqn:E10;
    cbn [mbind option_bind] in H; [|discriminate].
  assert (Hsemi : exists (semi : bool) (s11 : jsstring),
            s10 = (if semi then [";"] else []) ++ s11 /\
            (semi = false -> expect (str ";") s11 = None) /\
            mt = mkImportMatch
                   (take (length s - length (dropWhile is_space s11)) s)
                   (takeWhile notRBrace s3) m).
  { destruct (expect (str ";") s10) as [r|] eqn:E; injection H as <-.
    - exists true, r. apply expect_inv in E. done.
    - exists false, s10. done. }
  clear H. destruct Hsemi as (semi & s11 & E11 & Hnosemi & ->).
  apply expect_inv in E1, E3, E4, E6.
  apply oneOrMore_inv in E2 as (E2 & N2 & W2 & _).
  apply oneOrMore_inv in E5 as (E5 & N5 & W5 & _).
  apply oneOrMore_inv in E7 as (E7 & N7 & W7 & _).
  apply oneOrMore_inv in E9 as (E9 & N9 & W9 & _).
  apply quote_inv in E8 as (q1 & E8 & Q1).
  apply quote_inv in E10 as (q2 & E10 & Q2).
  pose proof (takeWhile_dropWhile notRBrace s3) as E3'.
  pose proof (forallb_takeWhile notRBrace s3) as Wnt.
  rewrite E4 in E3'.
  remember (takeWhile notRBrace s3) as nt eqn:Hnt. clear Hnt.
  pose proof (takeWhile_dropWhile is_space s11) as E12.
  pose proof (forallb_takeWhile is_space s11) as Wtr.
  assert (Hrest : match dropWhile is_space s11 with
                  | [] => True
                  | c :: _ => is_space c = false
                  end).
  { destruct (dropWhile is_space s11) as [|c r] eqn:Ed; [exact I|].
    exact (dropWhile_head _ _ _ _ Ed). }
  remember (takeWhile is_space s11) as tr eqn:Htr. clear Htr.
  remember (dropWhile is_space s11) as rest eqn:Hr. clear Hr.
  exists (mkParts ws1 nt ws2 ws3 q1 m q2 semi tr), rest.
  assert (Hs : s = text (mkParts ws1 nt ws2 ws3 q1 m q2 semi tr) ++ rest).
  { unfold text. cbn [afterImport names afterBrace afterFrom openQuote
                        specifier closeQuote semicolon trailing].
    rewrite E1, E2, E3, E3', E5, E6, E7, E8, E9, E10, E11, E12.
    repeat first [rewrite <- app_assoc | progress simpl]. reflexivity. }
  split; [|split; [|split; [exact Hs|]]].
  - unfold wellFormed. simpl.
    rewrite !someSpaces_intro by assumption.
    rewrite Wnt, Q1, Q2, W9. unfold spaces. rewrite Wtr. by destruct m.
  - unfold maximal. simpl.
    destruct rest as [|c r]; [reflexivity|]. rewrite Hrest. simpl.
    destruct semi; [reflexivity|]. simpl.
    destruct tr as [|x t]; [|reflexivity]. simpl.
    simpl in E12. subst s11. specialize (Hnosemi eq_refl).
    unfold expect in Hnosemi. simpl in Hnosemi.
    destruct (ascii_eqb c ";"); [discriminate | reflexivity].
  - f_equal. rewrite Hs. apply take_app_minus.
Qed.

(** A text made of well-formed pieces is matched, as a whole. *)
Lemma matchImportAt_text p rest :
  wellFormed p = true -> maximal p rest = true ->
  matchImportAt (text p ++ rest)
  = Some (mkImportMatch (text p) (names p) (specifier p)).
Proof.
  unfold wellFormed.
  intros [[[[[[[[H1 H2]%andb_true_iff H3]%andb_true_iff H4]%andb_true_iff
    H5]%andb_true_iff H6]%andb_true_iff H7]%andb_true_iff
    H8]%andb_true_iff H9]%andb_true_iff Hmax.
  apply someSpaces_inv in H1 as [N1 W1].
  apply someSpaces_inv in H3 as [N3 W3].
  apply someSpaces_inv in H4 as [N4 W4].
  assert (N6 : specifier p <> []) by (by destruct (specifier p)).
  destruct p as [ws1 nt ws2 ws3 q1 m q2 semi tr].
  cbn [afterImport names afterBrace afterFrom openQuote specifier
         closeQuote semicolon trailing] in *.
  assert (Hrest : dropWhile is_space rest = rest).
  { destruct rest as [|c r]; [reflexivity|]. simpl in Hmax |- *.
    apply andb_true_iff in Hmax as [Hc _]. apply negb_true_iff in Hc.
    by rewrite Hc. }
  set (t10 := (if semi then [";"] else []) ++ tr ++ rest).
  set (t9 := q2 :: t10).
  set (t8 := m ++ t9).
  set (t7 := q1 :: t8).
  set (t6 := ws3 ++ t7).
  set (t5 := "f" :: str "rom" ++ t6).
  set (t4 := ws2 ++ t5).
  set (t3b := "}" :: t4).
  set (t3 := nt ++ t3b).
  set (t2 := "{" :: t3).
  set (t1 := ws1 ++ t2).
  set (whole := text (mkParts ws1 nt ws2 ws3 q1 m q2 semi tr)).
  assert (Es : whole ++ rest = str "import" ++ t1).
  { unfold whole, text, t1, t2, t3, t3b, t4, t5, t6, t7, t8, t9, t10.
    cbn [afterImport names afterBrace afterFrom openQuote specifier
           closeQuote semicolon trailing].
    repeat first [rewrite <- app_assoc | progress simpl]. reflexivity. }
  rewrite Es. unfold matchImportAt.
  assert (E1 : expect (str "import") (str "import" ++ t1) = Some t1)
    by reflexivity.
  rewrite E1. cbn [mbind option_bind].
  assert (E2 : oneOrMore is_space t1 = Some (ws1, t2))
    by (apply oneOrMore_app_stop; [exact N1 | exact W1 | reflexivity]).
  rewrite E2. cbn [mbind option_bind].
  assert (E3 : expect (str "{") t2 = Some t3) by reflexivity.
  rewrite E3. cbn [mbind option_bind].
  assert (E3a : takeWhile notRBrace t3 = nt)
    by (apply takeWhile_app_stop; [exact H2 | reflexivity]).
  assert (E3b : dropWhile notRBrace t3 = t3b)
    by (apply dropWhile_app_stop; [exact H2 | reflexivity]).
  rewrite E3a, E3b.
  assert (E4 : expect (str "}") t3b = Some t4) by reflexivity.
  rewrite E4. cbn [mbind option_bind].
  assert (E5 : oneOrMore is_space t4 = Some (ws2, t5))
    by (apply oneOrMore_app_stop; [exact N3 | exact W3 | reflexivity]).
  rewrite E5. cbn [mbind option_bind].
  assert (E6 : expect (str "from") t5 = Some t6) by reflexivity.
  rewrite E6. cbn [mbind option_bind].
  assert (E7 : oneOrMore is_space t6 = Some (ws3, t7))
    by (apply oneOrMore_app_stop;
        [exact N4 | exact W4 | apply isQuote_not_space, H5]).
  rewrite E7. cbn [mbind option_bind].
  assert (E8 : quote t7 = Some t8) by (unfold t7, quote; by rewrite H5).
  rewrite E8. cbn [mbind option_bind].
  assert (E9 : oneOrMore notQuote t8 = Some (m, t9))
    by (apply oneOrMore_app_stop;
        [exact N6 | exact H7 | unfold notQuote; by rewrite H8]).
  rewrite E9. cbn [mbind option_bind].
  assert (E10 : quote t9 = Some t10) by (unfold t9, quote; by rewrite H8).
  rewrite E10. cbn [mbind option_bind].
  assert (Hsemi : match expect (str ";") t10 with
                  | Some r => r
                  | None => t10
                  end = tr ++ rest).
  { unfold t10. destruct semi; [reflexivity|]. simpl.
    destruct tr as [|x t]; simpl.
    - destruct rest as [|c r]; [reflexivity|]. simpl in Hmax.
      apply andb_true_iff in Hmax as [_ Hc]. simpl in Hc.
      unfold expect. simpl. apply negb_true_iff in Hc. by rewrite Hc.
    - unfold spaces in H9. simpl in H9.
      apply andb_true_iff in H9 as [Hx _].
      unfold expect. simpl.
      destruct (ascii_eqb x ";") eqn:E; [|reflexivity].
      apply Ascii.eqb_eq in E. subst x. discriminate Hx. }
  rewrite Hsemi, (dropWhile_spaces_app tr rest H9), Hrest.
  f_equal. f_equal. rewrite <- Es. apply take_app_minus.
Qed.

(** X25: what the import pattern matches at the front of a text.  It
    matches exactly when the text starts with the word import, white
    space, an opening brace, any text without closing brace (group 1), a
    closing brace, white space, the word from, white space, a quote of
    either kind, a non-empty text without quotes (group 2) and again a
    quote of either kind, not necessarily the same; the match then also
    takes a semicolon if one follows, and all white space behind it, line
    breaks included. *)
Theorem import_pattern_matches (s : jsstring) (mt : ImportMatch) :
  matchImportAt s = Some mt <->
  exists p rest,
    wellFormed p = true /\ maximal p rest = true /\
    s = text p ++ rest /\
    mt = mkImportMatch (text p) (names p) (specifier p).
Proof.
  split; [apply matchImportAt_parts|].
  intros (p & rest & Hwf & Hmax & -> & ->).
  by apply matchImportAt_text.
Qed.

End ImportPatternShape.

(** ** Import statements, one per line, as the two variants read them *)

Section ImportOnlyEquivalence.
Import TsMorph Inject InjectFile Regex ImportOnly.

Lemma setAdd_fold acc (mts : list ImportMatch) :
  NoDup (acc ++ map matched mts) ->
  fold_left (fun set mt => setAdd (matched mt) set) mts acc
  = acc ++ map matched mts.
Proof.
  revert acc. induction mts as [|mt more IH]; intros acc Hnd; simpl.
  - by rewrite app_nil_r.
  - unfold setAdd at 2. rewrite bool_decide_eq_false_2.
    + rewrite IH; rewrite <- app_assoc; [reflexivity | exact Hnd].
    + apply NoDup_app in Hnd as (_ & Hdisj & _). intros Hin.
      apply (Hdisj _ Hin). by left.
Qed.










End ImportOnlyEquivalence.

(** ** Files with their imports on top *)

Section ImportsOnTop.
Import TsMorph Inject InjectFile Regex ImportOnly.

Lemma includes_dropWhile f s sub :
  includes s sub = false -> includes (dropWhile f s) sub = false.
Proof.
  induction s as [|c s IH]; [done|].
  intros H. simpl dropWhile. destruct (f c); [|exact H].
  apply IH. by apply includes_cons in H as [_ H].
Qed.

(** A match at the front of the text is the first one found, and the
    search goes on behind it. *)
Lemma execAll_match_then mt rest :
  matched mt <> [] ->
  matchImportAt (matched mt ++ rest) = Some mt ->
  execAll 0 (matched mt ++ rest) = mt :: execAll 0 rest.
Proof.
  destruct (matched mt) as [|c tl] eqn:E; [done|]. intros _.
  cbn [app execAll]. intros H. rewrite H, E. cbn [length].
  replace (S (length tl) - 1) with (length tl) by lia.
  by rewrite execAll_skip.
Qed.

Lemma lineText_not_nil l : lineText l <> [].
Proof. rewrite lineText_alt. discriminate. Qed.

Lemma dropWhile_lines more rest :
  dropWhile is_space rest = rest ->
  dropWhile is_space (fileContent more ++ rest) = fileContent more ++ rest.
Proof. intros Hrest. destruct more as [|l more]; [exact Hrest | reflexivity]. Qed.

Lemma execAll_lines_then init rest :
  forallb wellFormed init = true -> dropWhile is_space rest = rest ->
  execAll 0 (fileContent init ++ rest)
  = map matchOfLine init ++ execAll 0 rest.
Proof.
  intros Hinit Hrest. induction init as [|l more IH]; [reflexivity|].
  apply andb_true_iff in Hinit as [Hl Hmore].
  change (fileContent (l :: more)) with (lineText l ++ fileContent more).
  rewrite <- app_assoc.
  change (lineText l) with (matched (matchOfLine l)) at 1.
  rewrite execAll_match_then.
  - cbn [map app]. by rewrite IH.
  - apply lineText_not_nil.
  - apply matchImportAt_line; [exact Hl | by apply dropWhile_lines].
Qed.

(** The last import statement takes the white space behind it along. *)
Lemma execAll_last_line l tail :
  wellFormed l = true -> includes tail (str "import") = false ->
  execAll 0 (lineText l ++ tail)
  = [mkImportMatch (lineText l ++ takeWhile is_space tail)
       (namesText (lineNames l)) (lineModule l)].
Proof.
  intros (Hb & _ & Hm & Hq)%wellFormed_inv Htail.
  set (p := ImportPattern.mkParts [" "] (namesText (lineNames l)) [" "]
              [" "] "'" (lineModule l) "'" true
              ("010" :: takeWhile is_space tail)).
  assert (Htext : ImportPattern.text p
                  = lineText l ++ takeWhile is_space tail).
  { unfold p, ImportPattern.text. rewrite lineText_alt. simpl.
    repeat first [rewrite <- app_assoc | progress simpl]. reflexivity. }
  set (mt := mkImportMatch (lineText l ++ takeWhile is_space tail)
               (namesText (lineNames l)) (lineModule l)).
  assert (Hwhole : lineText l ++ tail
                   = matched mt ++ dropWhile is_space tail).
  { unfold mt. cbn [matched]. rewrite <- app_assoc. f_equal.
    apply takeWhile_dropWhile. }
  rewrite Hwhole, execAll_match_then.
  - by rewrite (execAll_without_import 0 _
                  (includes_dropWhile is_space _ _ Htail)).
  - unfold mt. cbn [matched]. intros E. apply app_eq_nil in E as [E _].
    by apply lineText_not_nil in E.
  - unfold mt at 1. cbn [matched]. rewrite <- Htext.
    rewrite (matchImportAt_text p).
    + unfold mt. by rewrite Htext.
    + unfold ImportPattern.wellFormed, p.
      cbn [ImportPattern.afterImport ImportPattern.names
             ImportPattern.afterBrace ImportPattern.afterFrom
             ImportPattern.openQuote ImportPattern.specifier
             ImportPattern.closeQuote ImportPattern.trailing].
      rewrite Hb, Hq. unfold ImportPattern.spaces. cbn [forallb].
      rewrite forallb_takeWhile.
      destruct (lineModule l); [by destruct Hm | reflexivity].
    + unfold ImportPattern.maximal, p. cbn [ImportPattern.semicolon].
      destruct (dropWhile is_space tail) as [|c r] eqn:Ed; [reflexivity|].
      by rewrite (dropWhile_head _ _ _ _ Ed).
Qed.

Lemma fileContent_snoc init l :
  fileContent (init ++ [l]) = fileContent init ++ lineText l.
Proof.
  unfold fileContent. rewrite map_app, concat_app. simpl.
  by rewrite app_nil_r.
Qed.

(** An import line followed by white space is no import line: the
    character before its last one is white space or a line feed, not a
    semicolon. *)
Lemma lineText_not_padded l l' ws :
  ws <> [] -> forallb is_space ws = true -> lineText l <> lineText l' ++ ws.
Proof.
  intros Hne Hws E. apply (f_equal (@rev ascii)) in E.
  rewrite rev_app_distr in E. unfold lineText, statementText in E.
  rewrite !rev_app_distr in E. simpl in E.
  rewrite <- forallb_rev in Hws.
  destruct (rev ws) as [|w1 [|w2 r]] eqn:Er.
  - apply (f_equal (@rev ascii)) in Er. rewrite rev_involutive in Er.
    by apply Hne.
  - simpl in E. injection E as _ E _. discriminate E.
  - simpl in E. injection E as _ E _. subst w2. simpl in Hws.
    apply andb_true_iff in Hws as [_ Hws]. discriminate Hws.
Qed.

Lemma fold_replaceFirst_lines init rest :
  fold_left (fun nonImportContent importStatement =>
               replaceFirst importStatement nonImportContent)
    (map lineText init) (fileContent init ++ rest)
  = rest.
Proof.
  induction init as [|l more IH]; [reflexivity|].
  cbn [map fold_left].
  change (fileContent (l :: more)) with (lineText l ++ fileContent more).
  rewrite <- app_assoc, replaceFirst_prefix. exact IH.
Qed.

Lemma execAll_imports_on_top init l tail :
  forallb wellFormed (init ++ [l]) = true ->
  includes tail (str "import") = false ->
  execAll 0 (fileContent (init ++ [l]) ++ tail)
  = map matchOfLine init
    ++ [mkImportMatch (lineText l ++ takeWhile is_space tail)
          (namesText (lineNames l)) (lineModule l)].
Proof.
  rewrite forallb_app. intros [Hinit Hl]%andb_true_iff Htail.
  simpl in Hl. rewrite andb_true_r in Hl.
  rewrite fileContent_snoc, <- app_assoc.
  rewrite execAll_lines_then; [|exact Hinit|].
  - by rewrite execAll_last_line.
  - rewrite lineText_alt. reflexivity.
Qed.

Lemma removeImports_imports_on_top init l tail :
  forallb wellFormed (init ++ [l]) = true ->
  NoDup (map lineText (init ++ [l])) ->
  includes tail (str "import") = false ->
  removeImports (execAll 0 (fileContent (init ++ [l]) ++ tail))
    (fileContent (init ++ [l]) ++ tail)
  = dropWhile is_space tail.
Proof.
  intros Hwf Hnd Htail. unfold removeImports.
  rewrite (execAll_imports_on_top _ _ _ Hwf Htail).
  assert (Hmatched :
            map matched
              (map matchOfLine init
               ++ [mkImportMatch (lineText l ++ takeWhile is_space tail)
                     (namesText (lineNames l)) (lineModule l)])
            = map lineText init ++ [lineText l ++ takeWhile is_space tail]).
  { rewrite map_app, map_map. reflexivity. }
  rewrite (setAdd_fold []); rewrite app_nil_l, Hmatched.
  - rewrite fold_left_app, fileContent_snoc, <- app_assoc.
    rewrite fold_replaceFirst_lines. cbn [fold_left].
    rewrite (takeWhile_dropWhile is_space tail) at 2.
    by rewrite app_assoc, replaceFirst_prefix.
  - rewrite map_app in Hnd. simpl in Hnd.
    apply NoDup_app in Hnd as (Hinit & Hdisj & _).
    apply NoDup_app. split; [exact Hinit|].
    split; [|apply NoDup_singleton].
    intros x Hx ->%list_elem_of_singleton.
    destruct (takeWhile is_space tail) as [|w ws] eqn:Ews.
    + rewrite app_nil_r in Hx. apply (Hdisj _ Hx). by left.
    + apply list_elem_of_fmap in Hx as (l' & E & _).
      symmetry in E. revert E. apply lineText_not_padded; [discriminate|].
      rewrite <- Ews. apply forallb_takeWhile.
Qed.

(** X26: the regular-expression variant on a file of the usual make:
    named-import statements first, one per line and no two alike, then
    code in which the word import does not occur.  The named imports go
    through the import loop, in the order of the file; when a call threw,
    that is all.  Otherwise the white space between the last import and
    the code goes with the import, and what is handed to [addStatements]
    is the code after the semicolon clean-up, trimmed, if that is not
    empty. *)
Theorem imports_on_top_are_separated_from_code
    (importsIn : jsstring -> list ImportDeclaration)
    (sf : SourceFile) (lines : list ImportLine) (code : jsstring) :
  lines <> [] ->
  forallb wellFormed lines = true ->
  NoDup (map lineText lines) ->
  includes code (str "import") = false ->
  injectRegex importsIn sf (fileContent lines ++ code)
  = match importAll sf lines with
    | (st, Some e) => (fst st, Some e)
    | (st, None) =>
        (match trim (cleanup (dropWhile is_space code)) with
         | [] => fst st
         | cleanedContent => addStatements importsIn cleanedContent (fst st)
         end, None)
    end.
Proof.
  intros Hne Hwf Hnd Hcode.
  destruct (exists_last Hne) as (init & l & ->).
  unfold injectRegex, importAll, cleanedContent.
  rewrite (removeImports_imports_on_top _ _ _ Hwf Hnd Hcode).
  rewrite (execAll_imports_on_top _ _ _ Hwf Hcode).
  rewrite <- (forEachTry_map processImport importOfMatch).
  rewrite <- (forEachTry_map processImport
                (fun l' => (lineModule l', namesText (lineNames l')))).
  rewrite !map_app, map_map. cbn [map]. unfold importOfMatch at 2.
  cbn [moduleSpecifierText namedImportsText].
  destruct (forEachTry processImport _ _) as [[sf1 ex1] [e|]]; [done|].
  cbn [fst]. by destruct (trim _).
Qed.

Lemma imports_on_top_are_separated_from_code_witness :
  injectRegex SplicedImports.importsIn emptySourceFile
    (fileContent [mkImportLine (str "zod") [str "z"]]
     ++ str (lf ++ "export const userSchema = z.object({});" ++ lf))
  = (mkSourceFile [mkImport (str "zod") [str "z"]]
       [str "export const userSchema = z.object({})"], None).
Proof.
  etrans.
  - apply (imports_on_top_are_separated_from_code SplicedImports.importsIn
             emptySourceFile [mkImportLine (str "zod") [str "z"]]
             (str (lf ++ "export const userSchema = z.object({});" ++ lf))).
    + discriminate.
    + reflexivity.
    + apply (bool_decide_unpack _). vm_compute. exact I.
    + reflexivity.
  - vm_compute. reflexivity.
Defined.

(** A namespace import of the module in the app-router file: the import
    loop throws, and nothing of the file is added. *)
Example imports_on_top_throw_example :
  let sf :=
    mkSourceFile [mkImportDeclaration (str "zod") None (Some (str "zod")) []]
      [] in
  injectRegex SplicedImports.importsIn sf
    (fileContent [mkImportLine (str "zod") [str "z"]]
     ++ str (lf ++ "export const userSchema = z.object({});" ++ lf))
  = (sf, Some namespaceImportExists).
Proof. vm_compute. reflexivity. Qed.

End ImportsOnTop.

(** ** Equivalence of the variants (C3) *)

Section VariantsAgree.
Import TsMorph Inject InjectFile Regex ImportOnly.






End VariantsAgree.

(** The file of the witness, written out, and what both variants make of
    it. *)
Example importOnly_example :
  let lines := [ImportOnly.mkImportLine (str "zod") [str "z"; str "ZodType"];
                ImportOnly.mkImportLine (str "./from") [str "from"]] in
  ImportOnly.fileContent lines
    = str ("import { z, ZodType } from 'zod';" ++ lf ++
           "import { from } from './from';" ++ lf) /\
  forallb ImportOnly.wellFormed lines = true /\
  InjectFile.injectRegex SplicedImports.importsIn TsMorph.emptySourceFile
    (ImportOnly.fileContent lines)
    = InjectFile.injectAst SplicedImports.importsIn TsMorph.emptySourceFile
        (ImportOnly.fileStatements lines).
Proof. vm_compute. repeat split. Qed.


(** ** The raw-text splice (C5) *)

(** C5 (failing input): a file with the same import statement on two
    lines.  The pattern matches both statements, and deleting every match
    leaves nothing to append; the code removes the one occurrence that the
    single entry of [processedImports] stands for, and appends the other
    statement, its semicolon cut off, to the app-router file. *)
Theorem repeated_import_is_spliced :
  map InjectFile.importOfMatch (Regex.execAll 0 Splice.repeatedImport)
    = [(str "x", str " a "); (str "x", str " a ")] /\
  Splice.remainder Splice.repeatedImport = None /\
  TsMorph.statements
    (fst (InjectFile.injectRegex SplicedImports.importsIn
            TsMorph.emptySourceFile Splice.repeatedImport))
    = [str "import { a } from 'x'"].
Proof. vm_compute. repeat split. Qed.

(** The same with a statement that may be repeated in a module. *)
Example repeated_empty_import_is_spliced :
  let content :=
    str ("import {} from './register';" ++ lf
         ++ "import {} from './register';" ++ lf) in
  Splice.remainder content = None /\
  TsMorph.statements
    (fst (InjectFile.injectRegex SplicedImports.importsIn
            TsMorph.emptySourceFile content))
    = [str "import {} from './register'"].
Proof. vm_compute. repeat split. Qed.

(** A file whose import statements differ: the splice appends what the
    specification describes. *)
Example splice_example :
  let content :=
    str ("import { z } from 'zod';" ++ lf ++ "import { U } from './u';" ++ lf
         ++ lf ++ "export const s = z.object({});" ++ lf ++ ";" ++ lf
         ++ "export type S = U;" ++ lf) in
  Splice.remainder content
    = Some (str ("export const s = z.object({})" ++ lf
                 ++ "export type S = U")) /\
  TsMorph.statements
    (fst (InjectFile.injectRegex SplicedImports.importsIn
            TsMorph.emptySourceFile content))
    = [str ("export const s = z.object({})" ++ lf
            ++ "export type S = U")].
Proof. vm_compute. repeat split. Qed.


(** ** The semicolon clean-up on lines of code *)

Section CleanupOnLines.
Import Regex CodeLines.

Lemma bodyOk_tail x y t : bodyOk (x :: y :: t) = true -> bodyOk (y :: t) = true.
Proof.
  unfold bodyOk, endsInInk. intros [Hf He]%andb_true_iff.
  simpl in Hf. apply andb_true_iff in Hf as [_ Hf].
  apply andb_true_iff. split; [exact Hf|].
  change (rev (x :: y :: t)) with (rev (y :: t) ++ [x]) in He.
  destruct (rev (y :: t)) as [|c r] eqn:E; [|exact He].
  apply (f_equal (@length ascii)) in E. rewrite length_rev in E.
  discriminate E.
Qed.

Lemma bodyOk_head x t :
  bodyOk (x :: t) = true ->
  ascii_eqb x ";" = false /\ (t = [] -> is_space x = false).
Proof.
  unfold bodyOk, endsInInk. intros [Hf He]%andb_true_iff.
  simpl in Hf. apply andb_true_iff in Hf as [Hx _].
  apply andb_true_iff in Hx as [Hx _]. apply negb_true_iff in Hx.
  split; [exact Hx|]. intros ->. simpl in He. by apply negb_true_iff in He.
Qed.

(** Behind the white space at the front of a body comes a character that
    is no semicolon. *)
Lemma bodyOk_first_ink u rest :
  bodyOk u = true ->
  exists c t, dropWhile is_space (u ++ rest) = c :: t /\
              ascii_eqb c ";" = false.
Proof.
  induction u as [|x u IH]; [discriminate|].
  intros Hok. destruct (bodyOk_head _ _ Hok) as [Hx Hlast].
  destruct u as [|y t].
  - simpl. rewrite (Hlast eq_refl). eauto.
  - change ((x :: y :: t) ++ rest) with (x :: (y :: t) ++ rest).
    cbn [dropWhile]. destruct (is_space x); [|eauto].
    apply IH. by apply bodyOk_tail in Hok.
Qed.

Lemma expect_semicolon_first_ink u rest :
  bodyOk u = true ->
  expect (str ";") (dropWhile is_space (u ++ rest)) = None.
Proof.
  intros Hok. destruct (bodyOk_first_ink u rest Hok) as (c & t & -> & Hc).
  unfold expect. simpl. by rewrite Hc.
Qed.

(** None of the three patterns matches inside a body. *)
Lemma matchSemis_body b u rest :
  bodyOk u = true -> matchSemis b (u ++ rest) = None.
Proof.
  intros Hok. destruct u as [|x t]; [discriminate|].
  destruct (bodyOk_head _ _ Hok) as [Hx _].
  unfold matchSemis, expect. simpl. by rewrite Hx.
Qed.

Lemma matchLeadingSemi_body b u rest :
  bodyOk u = true -> matchLeadingSemi b (u ++ rest) = None.
Proof.
  intros Hok. unfold matchLeadingSemi. destruct b; [|reflexivity].
  by rewrite expect_semicolon_first_ink.
Qed.

Lemma matchTrailingSemi_body b u rest :
  bodyOk u = true -> matchTrailingSemi b (u ++ rest) = None.
Proof.
  intros Hok. unfold matchTrailingSemi.
  by rewrite expect_semicolon_first_ink.
Qed.

(** A pattern that matches nowhere inside a body copies the body. *)
Lemma replaceAll_body matchAt replacement prev u rest :
  (forall b u' r, bodyOk u' = true -> matchAt b (u' ++ r) = None) ->
  bodyOk u = true ->
  exists prev',
    replaceAll matchAt replacement 0 prev (u ++ rest)
    = u ++ replaceAll matchAt replacement 0 (Some prev') rest /\
    is_space prev' = false.
Proof.
  intros Hnone. revert prev. induction u as [|x u IH]; intros prev Hok;
    [discriminate|].
  change ((x :: u) ++ rest) with (x :: u ++ rest). cbn [replaceAll].
  change (x :: u ++ rest) with ((x :: u) ++ rest).
  rewrite (Hnone _ _ _ Hok).
  destruct u as [|y t].
  - exists x. split; [reflexivity|].
    by apply (bodyOk_head _ _ Hok).
  - destruct (IH (Some x) (bodyOk_tail _ _ _ Hok)) as (prev' & -> & Hp).
    exists prev'. done.
Qed.

Lemma not_space_not_terminator c :
  is_space c = false -> is_line_terminator c = false.
Proof.
  intros Hc. destruct (is_line_terminator c) eqn:E; [|reflexivity].
  unfold is_line_terminator in E.
  destruct c as [[] [] [] [] [] [] [] []]; try discriminate E;
    discriminate Hc.
Qed.

(** The text of some lines starts, behind its white space, with something
    else than a semicolon. *)
Lemma lines_first_ink lines :
  forallb (fun l => bodyOk (body l)) lines = true ->
  expect (str ";") (dropWhile is_space (concat (map written lines))) = None.
Proof.
  destruct lines as [|l more]; [reflexivity|].
  intros [Hl _]%andb_true_iff. cbn [map concat]. unfold written at 1.
  rewrite <- !app_assoc. by apply expect_semicolon_first_ink.
Qed.

Lemma lines_indent lines :
  forallb (fun l => bodyOk (body l)) lines = true ->
  upToLastNewline (takeWhile is_space (concat (map written lines))) = None.
Proof.
  destruct lines as [|l more]; [reflexivity|].
  intros [Hl _]%andb_true_iff. cbn [map concat]. unfold written at 1.
  rewrite <- !app_assoc.
  generalize ((if terminated l then [";"] else []) ++ ["010"]
              ++ concat (map written more)).
  intros rest. induction (body l) as [|x u IH]; [discriminate|].
  destruct (bodyOk_head _ _ Hl) as [_ Hlast].
  assert (Hx : ascii_eqb x "010" = false).
  { unfold bodyOk in Hl. apply andb_true_iff in Hl as [Hf _]. simpl in Hf.
    apply andb_true_iff in Hf as [Hx _].
    apply andb_true_iff in Hx as [_ Hx]. by apply negb_true_iff in Hx. }
  change ((x :: u) ++ rest) with (x :: u ++ rest). cbn [takeWhile].
  destruct (is_space x) eqn:Hsp; [|reflexivity].
  cbn [upToLastNewline]. destruct u as [|y t].
  - discriminate (Hlast eq_refl).
  - rewrite (IH (bodyOk_tail _ _ _ Hl)). by rewrite Hx.
Qed.

(** The first pattern, two semicolons with white space between them,
    matches nowhere. *)
Lemma pass_semis lines prev :
  forallb (fun l => bodyOk (body l)) lines = true ->
  replaceAll matchSemis (str ";") 0 prev (concat (map written lines))
  = concat (map written lines).
Proof.
  revert prev. induction lines as [|l more IH]; intros prev; [reflexivity|].
  intros Hall. pose proof Hall as [Hl Hmore]%andb_true_iff.
  cbn [map concat]. unfold written at 1 3. rewrite <- !app_assoc.
  destruct (replaceAll_body matchSemis (str ";") prev (body l)
              ((if terminated l then [";"] else []) ++ ["010"]
               ++ concat (map written more))
              matchSemis_body Hl) as (prev' & -> & _).
  f_equal. destruct (terminated l).
  - cbn [app replaceAll].
    assert (Hno : matchSemis
                    match Some prev' with
                    | Some p => is_line_terminator p
                    | None => true
                    end (";" :: "010" :: concat (map written more)) = None).
    { unfold matchSemis.
      change (expect (str ";") (";" :: ?x)) with (Some x).
      cbn [mbind option_bind dropWhile is_space].
      by rewrite (lines_first_ink more Hmore). }
    rewrite Hno. f_equal. cbn [replaceAll].
    change (matchSemis ?b ("010" :: ?x)) with (@None nat).
    f_equal. apply IH, Hmore.
  - cbn [app replaceAll].
    change (matchSemis ?b ("010" :: ?x)) with (@None nat).
    f_equal. apply IH, Hmore.
Qed.

(** The second pattern, a semicolon at the start of a line, matches
    nowhere. *)
Lemma pass_leading lines prev :
  forallb (fun l => bodyOk (body l)) lines = true ->
  replaceAll matchLeadingSemi [] 0 prev (concat (map written lines))
  = concat (map written lines).
Proof.
  revert prev. induction lines as [|l more IH]; intros prev; [reflexivity|].
  intros Hall. pose proof Hall as [Hl Hmore]%andb_true_iff.
  cbn [map concat]. unfold written at 1 3. rewrite <- !app_assoc.
  destruct (replaceAll_body matchLeadingSemi [] prev (body l)
              ((if terminated l then [";"] else []) ++ ["010"]
               ++ concat (map written more))
              matchLeadingSemi_body Hl) as (prev' & -> & Hp).
  f_equal. apply not_space_not_terminator in Hp.
  destruct (terminated l).
  - cbn [app replaceAll]. rewrite Hp.
    cbn [matchLeadingSemi is_line_terminator]. f_equal. f_equal.
    apply IH, Hmore.
  - cbn [app replaceAll]. rewrite Hp. cbn [matchLeadingSemi]. f_equal.
    apply IH, Hmore.
Qed.

(** The third pattern takes the semicolon in front of every line feed. *)
Lemma pass_trailing lines prev :
  forallb (fun l => bodyOk (body l)) lines = true ->
  replaceAll matchTrailingSemi ["010"] 0 prev (concat (map written lines))
  = concat (map stripped lines).
Proof.
  revert prev. induction lines as [|l more IH]; intros prev; [reflexivity|].
  intros Hall. pose proof Hall as [Hl Hmore]%andb_true_iff.
  cbn [map concat]. unfold written at 1, stripped at 1.
  rewrite <- !app_assoc.
  destruct (replaceAll_body matchTrailingSemi ["010"] prev (body l)
              ((if terminated l then [";"] else []) ++ ["010"]
               ++ concat (map written more))
              matchTrailingSemi_body Hl) as (prev' & -> & _).
  f_equal.
  assert (Hnl : forall b,
            matchTrailingSemi b ("010" :: concat (map written more)) = None).
  { intros b. unfold matchTrailingSemi. cbn [dropWhile is_space].
    by rewrite (lines_first_ink more Hmore). }
  destruct (terminated l).
  - cbn [app replaceAll].
    assert (Hsemi : forall b,
              matchTrailingSemi b
                (";" :: "010" :: concat (map written more)) = Some 2).
    { intros b. unfold matchTrailingSemi.
      cbn [takeWhile dropWhile is_space].
      change (expect (str ";") (";" :: ?x)) with (Some x).
      cbn [mbind option_bind takeWhile is_space upToLastNewline].
      by rewrite (lines_indent more Hmore). }
    rewrite Hsemi. cbn [app Nat.sub replaceAll]. f_equal.
    apply IH, Hmore.
  - cbn [app replaceAll]. rewrite Hnl. f_equal. apply IH, Hmore.
Qed.

(** X27: the semicolon clean-up of the regular-expression variant does to
    ordinary code what its comments say.  On code written one line after
    the other, every line with something on it that is no semicolon and
    does not end in white space, possibly indented, and ended by a line
    feed with or without a semicolon in front of it, the clean-up takes
    away the semicolons at the ends of the lines and nothing else. *)
Theorem cleanup_strips_line_end_semicolons (lines : list Line) :
  forallb (fun l => bodyOk (body l)) lines = true ->
  cleanup (concat (map written lines)) = concat (map stripped lines).
Proof.
  intros Hall. unfold cleanup.
  rewrite (pass_semis lines None Hall), (pass_leading lines None Hall).
  apply pass_trailing, Hall.
Qed.

Lemma cleanup_strips_line_end_semicolons_witness :
  cleanup
    (concat
       (map written
          [mkLine (str "export const userSchema = z.object({") false;
           mkLine (str "  name: z.string(),") false;
           mkLine (str "})") true;
           mkLine (str "export type User = z.infer<typeof userSchema>")
             true]))
  = concat
      (map stripped
         [mkLine (str "export const userSchema = z.object({") false;
          mkLine (str "  name: z.string(),") false;
          mkLine (str "})") true;
          mkLine (str "export type User = z.infer<typeof userSchema>")
            true]).
Proof.
  apply (cleanup_strips_line_end_semicolons
           [mkLine (str "export const userSchema = z.object({") false;
            mkLine (str "  name: z.string(),") false;
            mkLine (str "})") true;
            mkLine (str "export type User = z.infer<typeof userSchema>")
              true]).
  reflexivity.
Defined.

End CleanupOnLines.

(** ** Runs of the generator *)

Section GeneratorRunsProofs.
Context {Instance Prototype Procedure RoutersMetadata Disk : Type}.
Context {Middleware ContextImport Properties : Type}.
Import TsMorph Generator GeneratorRuns.

Local Abbreviation M := (@Generator.M Disk).
Local Abbreviation World := (@Generator.World Disk).
Local Abbreviation ends := (@GeneratorRuns.ends Disk _).
Local Abbreviation keepsDisk := (@Generator.keepsDisk Disk _).

(** *** Computations that come to an end *)

Lemma ends_ret {A} (a : A) : ends (ret a).
Proof. intros w. discriminate. Qed.

Lemma ends_call {A} (r : Error + A) : ends (call r).
Proof. intros w. unfold call. destruct r; discriminate. Qed.

Lemma ends_warn msg : ends (warn msg).
Proof. intros w. discriminate. Qed.

Lemma ends_onSourceFile f : ends (onSourceFile f).
Proof.
  intros w. unfold onSourceFile.
  destruct (f (appRouterSourceFile w)) as [[e|] sf']; discriminate.
Qed.

Lemma ends_bind {A B} (c : M A) (k : A -> M B) :
  ends c -> (forall a, ends (k a)) -> ends (bind c k).
Proof.
  intros Hc Hk w. unfold bind. specialize (Hc w).
  destruct (c w) as [[a|e|] w1]; [apply Hk | discriminate | done].
Qed.

Lemma ends_tryCatch {A} (body : M A) handler :
  ends body -> (forall e, ends (handler e)) -> ends (tryCatch body handler).
Proof.
  intros Hb Hh w. unfold tryCatch. specialize (Hb w).
  destruct (body w) as [[a|e|] w1]; [discriminate | apply Hh | done].
Qed.

Lemma ends_mapM {A B} (f : A -> M B) xs :
  (forall x, ends (f x)) -> ends (mapM f xs).
Proof.
  intros Hf. induction xs as [|x more IH]; simpl; [apply ends_ret|].
  apply ends_bind; [apply Hf | intros y].
  apply ends_bind; [exact IH | intros ys; apply ends_ret].
Qed.

Variable collab :
  @Collaborators Instance Prototype Procedure RoutersMetadata Disk
     Middleware ContextImport Properties.

Lemma findTsConfigFile_absolute_ends existsSync fuel startPath :
  NodePath.isAbsolute startPath = true -> length startPath <= fuel ->
  exists r, PathResolution.findTsConfigFile existsSync fuel startPath = Some r.
Proof.
  intros Habs Hfuel. unfold PathResolution.findTsConfigFile.
  destruct (dirname_absolute startPath Habs) as [Habs' Hshort].
  unfold NodePath.parse_root. rewrite Habs'.
  apply findLoop_absolute; [exact Habs'|].
  destruct (decide (startPath = ["/"])) as [->|Hne]; [simpl in *; lia|].
  specialize (Hshort Hne). lia.
Qed.

Lemma injectFilesContent_ends fuel filePaths :
  (exists r, PathResolution.findTsConfigFile (existsSync collab) fuel
               (moduleCallerFilePath collab) = Some r) ->
  ends (injectFilesContent collab fuel filePaths).
Proof.
  intros [r Hr] w. unfold injectFilesContent, tryCatch. rewrite Hr.
  destruct r as [p|]; [|discriminate].
  unfold bind at 1, call. destruct (readTsConfig collab p) as [e|cfg];
    [discriminate|].
  destruct (forEach_injectOneFile_normal collab (pathAliasesOf cfg)
              (NodePath.dirname p) filePaths w) as [w' ->].
  discriminate.
Qed.

Lemma discoverRoutes_ends : ends (discoverRoutes collab).
Proof.
  apply ends_bind; [apply ends_call | intros routers].
  apply ends_mapM. intros route.
  apply ends_bind; [apply ends_call | intros procs; apply ends_ret].
Qed.

Lemma schemaFileBody_ends fuel schemaImports injectFiles :
  (exists r, PathResolution.findTsConfigFile (existsSync collab) fuel
               (moduleCallerFilePath collab) = Some r)
  \/ injectFiles = None \/ injectFiles = Some [] ->
  ends (schemaFileBody collab fuel schemaImports injectFiles).
Proof.
  intros Hcond. unfold schemaFileBody.
  apply ends_bind; [apply discoverRoutes_ends | intros mapped].
  apply ends_bind; [apply ends_onSourceFile | intros _].
  apply ends_bind.
  { destruct schemaImports as [[|? ?]|];
      first [apply ends_ret | apply ends_onSourceFile]. }
  intros _. apply ends_bind.
  { destruct injectFiles as [[|f files]|]; [apply ends_ret | | apply ends_ret].
    destruct Hcond as [H|[H|H]]; [|discriminate H..].
    apply injectFilesContent_ends, H. }
  intros _. apply ends_bind; [apply ends_call | intros meta].
  apply ends_bind; [apply ends_call | intros decls].
  apply ends_bind; [intros w; discriminate | intros _].
  intros w. unfold save. destruct (saveOrOverrideFile collab _ _); discriminate.
Qed.

(** X14: the promise of [generateSchemaFile] is fulfilled, neither
    rejected nor left pending, whenever the path of the module caller file
    is absolute (the search for tsconfig.json then ends within as many
    iterations as the path has characters), and also whenever no file is to
    be injected, in which case the search is not started. *)
Theorem generateSchemaFile_is_fulfilled
    (fuel : nat) (schemaImports injectFiles : option (list jsstring))
    (w : World) :
  (NodePath.isAbsolute (moduleCallerFilePath collab) = true /\
   length (moduleCallerFilePath collab) <= fuel)
  \/ injectFiles = None \/ injectFiles = Some [] ->
  fst (generateSchemaFile collab fuel schemaImports injectFiles w) = Normal tt.
Proof.
  intros Hcond.
  assert (Hends : ends (schemaFileBody collab fuel schemaImports injectFiles)).
  { apply schemaFileBody_ends.
    destruct Hcond as [[Habs Hfuel]|H]; [left | by right].
    by apply findTsConfigFile_absolute_ends. }
  unfold generateSchemaFile, tryCatch. specialize (Hends w).
  destruct (schemaFileBody collab fuel schemaImports injectFiles w)
    as [[[]|e|] w1]; [reflexivity | reflexivity | done].
Qed.

(** *** The disk *)

Lemma savesAtEnd_bind {A} (c : M A) (k : A -> M unit) :
  keepsDisk c -> (forall a, savesAtEnd collab (k a)) ->
  savesAtEnd collab (bind c k).
Proof.
  intros Hc Hk w r w' H. unfold bind in H.
  destruct (c w) as [[a|e|] w1] eqn:E; pose proof (Hc _ _ _ E) as D.
  - apply Hk in H as [[Hd Hr]|[Hr Hs]].
    + left. split; [congruence | exact Hr].
    + right. split; [exact Hr | by rewrite <- D].
  - injection H as <- <-. left. split; [exact D | discriminate].
  - injection H as <- <-. left. split; [exact D | discriminate].
Qed.

Lemma savesAtEnd_save : savesAtEnd collab (save collab).
Proof.
  intros w r w' H. unfold save in H.
  destruct (saveOrOverrideFile collab _ _) as [e|d] eqn:E;
    injection H as <- <-.
  - left. split; [reflexivity | discriminate].
  - right. split; [reflexivity | exact E].
Qed.

Lemma schemaFileBody_savesAtEnd fuel schemaImports injectFiles :
  savesAtEnd collab (schemaFileBody collab fuel schemaImports injectFiles).
Proof.
  unfold schemaFileBody.
  apply savesAtEnd_bind; [apply discoverRoutes_keepsDisk | intros mapped].
  apply savesAtEnd_bind; [apply keepsDisk_onSourceFile | intros _].
  apply savesAtEnd_bind.
  { destruct schemaImports as [[|? ?]|];
      first [apply keepsDisk_ret | apply keepsDisk_onSourceFile]. }
  intros _. apply savesAtEnd_bind.
  { destruct injectFiles as [[|? ?]|];
      first [apply keepsDisk_ret | apply injectFilesContent_keepsDisk]. }
  intros _. apply savesAtEnd_bind; [apply keepsDisk_call | intros meta].
  apply savesAtEnd_bind; [apply keepsDisk_call | intros decls].
  apply savesAtEnd_bind; [|intros _; apply savesAtEnd_save].
  intros w r w' H. injection H as _ <-. reflexivity.
Qed.

(** X15: [generateSchemaFile] writes the disk at the very end or not at
    all.  When its [try] block runs to its end, the disk is what
    [saveOrOverrideFile] made of the final app-router source file; when a
    step throws, saving included, the disk is as it was and the one warning
    is logged; and a search for tsconfig.json that does not end leaves the
    disk as it was, too. *)
Theorem schema_file_is_saved_at_the_end_or_not_at_all
    (fuel : nat) (schemaImports injectFiles : option (list jsstring))
    (w : World) :
  match schemaFileBody collab fuel schemaImports injectFiles w with
  | (Normal _, w1) =>
      generateSchemaFile collab fuel schemaImports injectFiles w
        = (Normal tt, w1) /\
      saveOrOverrideFile collab (appRouterSourceFile w1) (disk w)
        = inr (disk w1)
  | (Throw e, w1) =>
      generateSchemaFile collab fuel schemaImports injectFiles w
        = (Normal tt,
           mkWorld (appRouterSourceFile w1) (disk w)
             (warnings w1 ++ [encounteredAnError])) /\
      disk w1 = disk w
  | (Diverge, w1) =>
      generateSchemaFile collab fuel schemaImports injectFiles w
        = (Diverge, w1) /\
      disk w1 = disk w
  end.
Proof.
  pose proof (schemaFileBody_savesAtEnd fuel schemaImports injectFiles w)
    as Hsave.
  unfold generateSchemaFile, tryCatch.
  destruct (schemaFileBody collab fuel schemaImports injectFiles w)
    as [[[]|e|] w1]; destruct (Hsave _ _ eq_refl) as [[Hd Hr]|[Hr Hs]];
    try done.
  - split; [|exact Hd]. unfold warn. by rewrite Hd.
Qed.

(** *** The loop over the files to inject *)

Lemma injectOneFile_effect pathAliases basePath filePath (w : World) :
  exists w',
    injectOneFile collab pathAliases basePath filePath w = (Normal tt, w') /\
    disk w' = disk w /\
    match injectedContent collab pathAliases basePath filePath with
    | Some fileContent =>
        let r :=
          InjectFile.injectRegex (parseImports collab)
            (appRouterSourceFile w) fileContent in
        appRouterSourceFile w' = fst r /\
        length (warnings w')
          = match snd r with
            | Some _ => S (length (warnings w))
            | None => length (warnings w)
            end
    | None =>
        appRouterSourceFile w' = appRouterSourceFile w /\
        length (warnings w') = S (length (warnings w))
    end.
Proof.
  unfold injectOneFile, injectedContent.
  destruct (PathResolution.resolvePathWithAliases _ _ _ _) as [rp|]; simpl.
  - destruct (negb (isEmpty rp) && existsSync collab rp).
    + unfold tryCatch, bind, call, onSourceFile.
      destruct (readFileSync collab rp) as [e|content].
      * eexists. split; [reflexivity|]. simpl. split; [reflexivity|].
        rewrite length_app. simpl. split; [reflexivity | lia].
      * destruct (InjectFile.injectRegex _ _ content) as [sf' [e|]];
          eexists; (split; [reflexivity|]); simpl; (split; [reflexivity|]);
          rewrite ?length_app; simpl; split; (reflexivity || lia).
    + eexists. split; [reflexivity|]. simpl. split; [reflexivity|].
      rewrite length_app. simpl. split; [reflexivity | lia].
  - eexists. split; [reflexivity|]. simpl. split; [reflexivity|].
    rewrite length_app. simpl. split; [reflexivity | lia].
Qed.

(** X16: the loop of [injectFilesContent] (regular-expression variant)
    gets to the end of the list of files, whatever happens with any one of
    them.  The app-router source file it leaves is the one obtained by
    injecting, in the order of the list, the text of every file whose path
    resolves, that exists and that can be read; an injection that throws
    ends there, and what it had added stays.  A file that could not be had
    adds one warning and nothing else, and so does an injection that
    threw; the disk is not touched. *)
Theorem injection_loop_over_readable_files
    (pathAliases : list (jsstring * list jsstring)) (basePath : jsstring)
    (filePaths : list jsstring) (w : World) :
  exists w',
    forEach filePaths (injectOneFile collab pathAliases basePath) w
      = (Normal tt, w') /\
    appRouterSourceFile w'
      = InjectFile.injectAllRegex (parseImports collab)
          (appRouterSourceFile w)
          (omap (injectedContent collab pathAliases basePath) filePaths) /\
    disk w' = disk w /\
    length (warnings w')
      = length (warnings w)
        + InjectFile.failures (InjectFile.injectRegex (parseImports collab))
            (appRouterSourceFile w)
            (map (injectedContent collab pathAliases basePath) filePaths).
Proof.
  revert w. induction filePaths as [|f more IH]; intros w.
  - exists w. simpl. repeat split; lia.
  - destruct (injectOneFile_effect pathAliases basePath f w)
      as (w1 & H1 & D1 & E1).
    destruct (IH w1) as (w' & H' & S' & D' & W').
    exists w'. cbn [forEach]. unfold bind at 1. rewrite H1.
    split; [exact H'|]. cbn [omap list_omap map InjectFile.failures].
    change (list_omap ?g ?l) with (omap g l).
    destruct (injectedContent collab pathAliases basePath f) as [c|] eqn:Hc.
    + cbn zeta in E1. destruct E1 as [E1 W1].
      unfold InjectFile.injectAllRegex in *. cbn [fold_left].
      destruct (InjectFile.injectRegex _ _ c) as [sf1 thrown].
      cbn [fst snd] in *. rewrite <- E1.
      split; [exact S'|]. split; [congruence|].
      rewrite W', W1. destruct thrown; lia.
    + destruct E1 as [E1 W1].
      split; [by rewrite S', E1|]. split; [congruence|].
      rewrite W', W1, E1. lia.
Qed.

(** *** The helper types file *)

Lemma middlewareInterface_run middleware found (w : World) :
  getMiddlewareInterface collab middleware = inr found ->
  middlewareInterface collab middleware w
  = (Normal (helperInterface found), w).
Proof.
  intros H. unfold middlewareInterface, bind, call. rewrite H.
  by destruct found as [[n p]|].
Qed.

Lemma mapM_middlewareInterface_run middlewares founds (w : World) :
  Forall2 (fun m found => getMiddlewareInterface collab m = inr found)
    middlewares founds ->
  mapM (middlewareInterface collab) middlewares w
  = (Normal (map helperInterface founds), w).
Proof.
  induction 1 as [|m found ms founds Hm Hms IH]; [reflexivity|].
  cbn [mapM]. unfold bind at 1. rewrite (middlewareInterface_run _ _ _ Hm).
  unfold bind at 1. rewrite IH. reflexivity.
Qed.

Lemma stateless_bind {A B} (c : M A) (k : A -> M B) (w : World) :
  (exists r, c w = (r, w) /\ r <> Diverge) ->
  (forall a, exists r, k a w = (r, w) /\ r <> Diverge) ->
  exists r, bind c k w = (r, w) /\ r <> Diverge.
Proof.
  intros (r & Hc & Hr) Hk. unfold bind. rewrite Hc.
  destruct r as [a|e|]; [apply Hk | | done].
  exists (Throw e). split; [reflexivity | discriminate].
Qed.

Lemma stateless_call {A} (r : Error + A) (w : World) :
  exists r', call r w = (r', w) /\ r' <> Diverge.
Proof.
  unfold call. destruct r; eexists; (split; [reflexivity | discriminate]).
Qed.

Lemma stateless_ret {A} (a : A) (w : World) :
  exists r, ret a w = (r, w) /\ r <> Diverge.
Proof. eexists. split; [reflexivity | discriminate]. Qed.

Lemma mapM_middlewareInterface_stateless middlewares (w : World) :
  exists r,
    mapM (middlewareInterface collab) middlewares w = (r, w) /\ r <> Diverge.
Proof.
  induction middlewares as [|m ms IH]; [apply stateless_ret|].
  cbn [mapM]. apply stateless_bind.
  - apply stateless_bind; [apply stateless_call|].
    intros [[n p]|]; apply stateless_ret.
  - intros y. apply stateless_bind; [exact IH|].
    intros ys. apply stateless_ret.
Qed.

(** X17: [generateHelpersFile] always fulfils its promise and never
    touches the app-router source file.  Either it saved the helper types
    file and logged no warning, or it logged the one warning and left the
    disk as it was. *)
Theorem generateHelpersFile_outcome (context : option jsstring) (w : World) :
  exists w',
    generateHelpersFile collab context w = (Normal tt, w') /\
    appRouterSourceFile w' = appRouterSourceFile w /\
    ((warnings w' = warnings w /\
      exists helperTypes,
        saveHelperTypes collab helperTypes (disk w) = inr (disk w')) \/
     (warnings w' = warnings w ++ [encounteredAnError] /\
      disk w' = disk w)).
Proof.
  unfold generateHelpersFile, tryCatch, helpersFileBody.
  unfold bind at 1, call.
  destruct (getMiddlewares collab) as [e|ms].
  { eexists. split; [reflexivity|]. split; [reflexivity|]. right. done. }
  unfold bind at 1.
  assert (Hctx : exists r,
            (match context with
             | Some contextName => contextAlias collab contextName
             | None => ret []
             end : M _) w = (r, w) /\ r <> Diverge).
  { destruct context as [contextName|];
      [|eexists; split; [reflexivity | discriminate]].
    unfold contextAlias.
    destruct (rootModuleImportsMap_get collab contextName) as [ci|];
      [|eexists; split; [reflexivity | discriminate]].
    unfold bind, call.
    destruct (getContextInterface collab ci contextName);
      eexists; (split; [reflexivity | discriminate]). }
  destruct Hctx as (r & -> & Hr).
  destruct r as [aliasDecl|e|]; [| |done].
  2:{ eexists. split; [reflexivity|]. split; [reflexivity|]. right. done. }
  unfold bind at 1.
  destruct (mapM_middlewareInterface_stateless ms w) as (r & -> & Hr').
  destruct r as [interfaces|e|]; [| |done].
  2:{ eexists. split; [reflexivity|]. split; [reflexivity|]. right. done. }
  unfold saveHelpers.
  destruct (saveHelperTypes collab (aliasDecl ++ concat interfaces) (disk w))
    as [e|d] eqn:Hsave.
  - eexists. split; [reflexivity|]. split; [reflexivity|]. right. done.
  - eexists. split; [reflexivity|]. split; [reflexivity|]. left.
    split; [reflexivity|]. eauto.
Qed.

(** X18: when every collaborator returns, the helper types file that
    [generateHelpersFile] saves declares, in this order: the type alias
    [Context] if a context class was given, its type the one found for the
    class or [{}] when none was found; then one interface for every
    middleware for which an interface was found, in the order of
    [getMiddlewares], named after the middleware with [Context] appended
    and extending [Context].  Nothing is logged. *)
Theorem helper_types_file_declarations
    (context : option jsstring) (w : World) (middlewares : list Middleware)
    (founds : list (option (jsstring * Properties)))
    (aliasDecl : list HelperDeclaration) (saved : Disk) :
  getMiddlewares collab = inr middlewares ->
  Forall2 (fun m found => getMiddlewareInterface collab m = inr found)
    middlewares founds ->
  match context with
  | None => aliasDecl = []
  | Some contextName =>
      exists contextImport contextType,
        rootModuleImportsMap_get collab contextName = Some contextImport /\
        getContextInterface collab contextImport contextName
          = inr contextType /\
        aliasDecl
          = [TypeAlias (str "Context") (default (str "{}") contextType)]
  end ->
  saveHelperTypes collab
    (aliasDecl ++ concat (map helperInterface founds)) (disk w) = inr saved ->
  generateHelpersFile collab context w
  = (Normal tt, mkWorld (appRouterSourceFile w) saved (warnings w)).
Proof.
  intros Hms Hfounds Hctx Hsave.
  unfold generateHelpersFile, tryCatch, helpersFileBody.
  unfold bind at 1, call. rewrite Hms. unfold bind at 1.
  assert (Halias : (match context with
                    | Some contextName => contextAlias collab contextName
                    | None => ret []
                    end : M _) w = (Normal aliasDecl, w)).
  { destruct context as [contextName|]; [|by subst].
    destruct Hctx as (ci & ty & Hci & Hty & ->).
    unfold contextAlias. rewrite Hci. unfold bind, call. by rewrite Hty. }
  rewrite Halias. unfold bind at 1.
  rewrite (mapM_middlewareInterface_run _ _ _ Hfounds).
  unfold saveHelpers. by rewrite Hsave.
Qed.

(** X19: a context class that the root module does not import: whatever
    the middlewares are, [generateHelpersFile] saves nothing and changes
    nothing but the log, which gets the one warning. *)
Theorem unknown_context_only_warns (contextName : jsstring) (w : World) :
  rootModuleImportsMap_get collab contextName = None ->
  generateHelpersFile collab (Some contextName) w
  = (Normal tt,
     mkWorld (appRouterSourceFile w) (disk w)
       (warnings w ++ [encounteredAnError])).
Proof.
  intros Hnone. unfold generateHelpersFile, tryCatch, helpersFileBody.
  unfold bind at 1, call.
  destruct (getMiddlewares collab) as [e|ms]; [reflexivity|].
  unfold bind at 1, contextAlias. rewrite Hnone. reflexivity.
Qed.

End GeneratorRunsProofs.

Lemma generateSchemaFile_is_fulfilled_witness :
  fst (Generator.generateSchemaFile Demo.healthy 30 None
         (Some [str "@/zod/user.ts"]) Demo.start) = Normal tt.
Proof.
  apply (generateSchemaFile_is_fulfilled Demo.healthy 30 None
           (Some [str "@/zod/user.ts"]) Demo.start).
  left. split; [reflexivity|]. vm_compute. lia.
Defined.

Lemma helper_types_file_declarations_witness :
  Generator.generateHelpersFile DemoMiddlewares.project
    (Some (str "AppContext")) DemoMiddlewares.start
  = (Normal tt,
     Generator.mkWorld TsMorph.emptySourceFile
       [Generator.TypeAlias (str "Context") (str "{}");
        Generator.Interface (str "AuthContext") [str "Context"] [str "user"]]
       []).
Proof.
  apply (helper_types_file_declarations DemoMiddlewares.project
           (Some (str "AppContext")) DemoMiddlewares.start
           [str "AuthMiddleware"; str "LogMiddleware"]
           [Some (str "Auth", [str "user"]); None]
           [Generator.TypeAlias (str "Context") (str "{}")]).
  - reflexivity.
  - repeat constructor.
  - exists (str "./app.context"), None. repeat split.
  - reflexivity.
Defined.

Lemma unknown_context_only_warns_witness :
  Generator.generateHelpersFile DemoMiddlewares.project
    (Some (str "OtherContext")) DemoMiddlewares.start
  = (Normal tt,
     Generator.mkWorld TsMorph.emptySourceFile []
       [Generator.encounteredAnError]).
Proof.
  apply (unknown_context_only_warns DemoMiddlewares.project
           (str "OtherContext") DemoMiddlewares.start).
  reflexivity.
Defined.

(** ** [injectFilesContent], AST variant *)

Section GeneratorAstProofs.
Context {Instance Prototype Procedure RoutersMetadata Disk : Type}.
Context {Middleware ContextImport Properties : Type}.
Import TsMorph Generator GeneratorAst.

Local Abbreviation M := (@Generator.M Disk).
Local Abbreviation World := (@Generator.World Disk).

Variable collab :
  @Collaborators Instance Prototype Procedure RoutersMetadata Disk
     Middleware ContextImport Properties.
Variable project : Project.

Lemma injectOneFile_ast_effect pathAliases basePath filePath (w : World) :
  exists w',
    injectOneFile collab project pathAliases basePath filePath w
      = (Normal tt, w') /\
    disk w' = disk w /\
    match injectedStatements collab project pathAliases basePath filePath with
    | Some stmts =>
        let r :=
          InjectFile.injectAst (parseImports collab)
            (appRouterSourceFile w) stmts in
        appRouterSourceFile w' = fst r /\
        length (warnings w')
          = match snd r with
            | Some _ => S (length (warnings w))
            | None => length (warnings w)
            end
    | None =>
        appRouterSourceFile w' = appRouterSourceFile w /\
        length (warnings w') = S (length (warnings w))
    end.
Proof.
  unfold injectOneFile, injectedStatements.
  destruct (PathResolution.resolvePathWithAliases _ _ _ _) as [rp|]; simpl.
  - destruct (negb (isEmpty rp)).
    + unfold tryCatch, bind, call, onSourceFile.
      destruct (addSourceFileAtPathIfExists project rp) as [e|[stmts|]].
      * eexists. split; [reflexivity|]. simpl. split; [reflexivity|].
        rewrite length_app. simpl. split; [reflexivity | lia].
      * destruct (InjectFile.injectAst _ _ stmts) as [sf' [e|]];
          eexists; (split; [reflexivity|]); simpl; (split; [reflexivity|]);
          rewrite ?length_app; simpl; split; (reflexivity || lia).
      * eexists. split; [reflexivity|]. simpl. split; [reflexivity|].
        rewrite length_app. simpl. split; [reflexivity | lia].
    + eexists. split; [reflexivity|]. simpl. split; [reflexivity|].
      rewrite length_app. simpl. split; [reflexivity | lia].
  - eexists. split; [reflexivity|]. simpl. split; [reflexivity|].
    rewrite length_app. simpl. split; [reflexivity | lia].
Qed.

Lemma forEach_injectOneFile_ast_normal pathAliases basePath filePaths
    (w : World) :
  exists w',
    forEach filePaths (injectOneFile collab project pathAliases basePath) w
      = (Normal tt, w') /\
    disk w' = disk w.
Proof.
  revert w. induction filePaths as [|f more IH]; intros w.
  - exists w. done.
  - destruct (injectOneFile_ast_effect pathAliases basePath f w)
      as (w1 & H1 & D1 & _).
    destruct (IH w1) as (w' & H' & D').
    exists w'. cbn [forEach]. unfold bind at 1. rewrite H1.
    split; [exact H' | congruence].
Qed.

(** X20: the loop of the AST variant of [injectFilesContent] gets to the
    end of the list of files, whatever happens with any one of them.  The
    app-router source file it leaves is the one obtained by injecting, in
    the order of the list, the statements of every file whose path
    resolves and that the project loads; an injection that throws ends
    there, and what it had added stays.  Each of the other files (not
    found, or loading throws) adds one warning and nothing else, and an
    injection that threw adds one warning; the disk is not touched. *)
Theorem ast_injection_loop_over_loaded_files
    (pathAliases : list (jsstring * list jsstring)) (basePath : jsstring)
    (filePaths : list jsstring) (w : World) :
  exists w',
    forEach filePaths (injectOneFile collab project pathAliases basePath) w
      = (Normal tt, w') /\
    appRouterSourceFile w'
      = InjectFile.injectAllAst (parseImports collab) (appRouterSourceFile w)
          (omap (injectedStatements collab project pathAliases basePath)
             filePaths) /\
    disk w' = disk w /\
    length (warnings w')
      = length (warnings w)
        + InjectFile.failures (InjectFile.injectAst (parseImports collab))
            (appRouterSourceFile w)
            (map (injectedStatements collab project pathAliases basePath)
               filePaths).
Proof.
  revert w. induction filePaths as [|f more IH]; intros w.
  - exists w. simpl. repeat split; lia.
  - destruct (injectOneFile_ast_effect pathAliases basePath f w)
      as (w1 & H1 & D1 & E1).
    destruct (IH w1) as (w' & H' & S' & D' & W').
    exists w'. cbn [forEach]. unfold bind at 1. rewrite H1.
    split; [exact H'|]. cbn [omap list_omap map InjectFile.failures].
    change (list_omap ?g ?l) with (omap g l).
    destruct (injectedStatements collab project pathAliases basePath f)
      as [stmts|] eqn:Hc.
    + cbn zeta in E1. destruct E1 as [E1 W1].
      unfold InjectFile.injectAllAst in *. cbn [fold_left].
      destruct (InjectFile.injectAst _ _ stmts) as [sf1 thrown].
      cbn [fst snd] in *. rewrite <- E1.
      split; [exact S'|]. split; [congruence|].
      rewrite W', W1. destruct thrown; lia.
    + destruct E1 as [E1 W1].
      split; [by rewrite S', E1|]. split; [congruence|].
      rewrite W', W1, E1. lia.
Qed.

(** X21: the AST variant of [injectFilesContent] is gated by tsconfig.json
    like the other one, and does not throw either.  When
    [findTsConfigFile] returns [null], the app-router source file and the
    disk stay as they were and two warnings are logged; when the
    tsconfig.json it returns cannot be loaded or parsed, one warning is
    logged and nothing else changes; otherwise the files are injected with
    compilerOptions.paths of that file for aliases and its directory for
    base path.  In no case is the disk touched. *)
Theorem ast_injection_gated_by_tsconfig
    (fuel : nat) (filePaths : list jsstring) (w : World) :
  match PathResolution.findTsConfigFile (existsSync collab) fuel
          (moduleCallerFilePath collab) with
  | Some None =>
      injectFilesContent collab project fuel filePaths w =
      (Normal tt,
       mkWorld (appRouterSourceFile w) (disk w)
         (warnings w ++ [noTsConfigAbove (moduleCallerFilePath collab);
                         couldNotFindTsConfig]))
  | Some (Some tsConfigFilePath) =>
      match parseTsConfig project tsConfigFilePath with
      | inr tsConfigObj =>
          injectFilesContent collab project fuel filePaths w =
          forEach filePaths
            (injectOneFile collab project (pathAliasesOf tsConfigObj)
               (NodePath.dirname tsConfigFilePath)) w
      | inl e =>
          injectFilesContent collab project fuel filePaths w =
          (Normal tt,
           mkWorld (appRouterSourceFile w) (disk w)
             (warnings w ++ [str "Error injecting files: "
                             ++ errorToString e]))
      end
  | None => injectFilesContent collab project fuel filePaths w = (Diverge, w)
  end /\
  (forall e,
     fst (injectFilesContent collab project fuel filePaths w) <> Throw e) /\
  disk (snd (injectFilesContent collab project fuel filePaths w)) = disk w.
Proof.
  lazymatch goal with |- ?run /\ _ => assert (Hrun : run) end.
  { unfold injectFilesContent, tryCatch.
    destruct (PathResolution.findTsConfigFile _ _ _) as [[p|]|].
    - destruct (parseTsConfig project p) as [e|cfg];
        cbv beta iota delta [bind call]; [reflexivity|].
      destruct (forEach_injectOneFile_ast_normal (pathAliasesOf cfg)
                  (NodePath.dirname p) filePaths w) as (w' & -> & _).
      reflexivity.
    - unfold bind, warn. simpl. by rewrite <- app_assoc.
    - reflexivity. }
  split; [exact Hrun|].
  destruct (PathResolution.findTsConfigFile _ _ _) as [[p|]|].
  - destruct (parseTsConfig project p) as [e|cfg]; rewrite Hrun.
    + split; [discriminate | reflexivity].
    + destruct (forEach_injectOneFile_ast_normal (pathAliasesOf cfg)
                  (NodePath.dirname p) filePaths w) as (w' & -> & D).
      split; [discriminate | exact D].
  - rewrite Hrun. split; [discriminate | reflexivity].
  - rewrite Hrun. split; [discriminate | reflexivity].
Qed.

End GeneratorAstProofs.

(** ** The panel controller *)

Section PanelController.
Context {AnyRouter : Type}.
Variable renderTrpcPanel : AnyRouter -> jsstring.
Import TrpcPanelController.

Local Abbreviation Host := (@AppRouterHost.t AnyRouter).
Local Abbreviation panel := (TrpcPanelController.panel renderTrpcPanel).
Local Abbreviation panel_try :=
  (TrpcPanelController.panel_try renderTrpcPanel).
Local Abbreviation serve := (TrpcPanelController.serve renderTrpcPanel).

(** X22: the two panel controllers behave alike.  Initialised in
    whatever state of the host, a new controller holds the router of the
    host if it has one, and none otherwise; and in every state of the host
    and of the controller, [panel] of the one sends what [panel] of the
    other returns and leaves the controller in the same state.  The one
    that reads the getter of the host without [try] does so only when
    [isRouterReady] said yes, and so never throws. *)
Theorem panel_controllers_agree (appRouterHost : Host) (this : t) :
  onModuleInit appRouterHost new = onModuleInit_try appRouterHost new /\
  onModuleInit appRouterHost new
    = mk (AppRouterHost.getRouterSafe appRouterHost) /\
  panel appRouterHost this = inr (panel_try appRouterHost this).
Proof.
  destruct appRouterHost as [[router|]], this as [[cached|]];
    repeat split.
Qed.

Lemma panel_try_cached appRouterHost this router :
  appRouter this = Some router ->
  panel_try appRouterHost this = (renderTrpcPanel router, this).
Proof. unfold TrpcPanelController.panel_try. by intros ->. Qed.

Lemma serve_cached events appRouterHost this router :
  appRouter this = Some router ->
  Forall (fun page => page = renderTrpcPanel router)
    (serve events appRouterHost this).
Proof.
  intros Hc. revert appRouterHost.
  induction events as [|[r|] more IH]; intros appRouterHost; simpl.
  - constructor.
  - apply IH.
  - rewrite (panel_try_cached _ _ _ Hc). constructor; [reflexivity | apply IH].
Qed.

(** X23: the controller serves the first router it gets to see.  From a
    request on at which the controller holds a router, or holds none while
    the host has one, every page is the panel of that router, whatever
    routers are assigned to the host afterwards. *)
Theorem panel_keeps_the_first_router
    (events : list Event) (appRouterHost : Host) (this : t)
    (router : AnyRouter) :
  appRouter this = Some router \/
  (appRouter this = None /\
   AppRouterHost.getRouterSafe appRouterHost = Some router) ->
  Forall (fun page => page = renderTrpcPanel router)
    (serve (Request :: events) appRouterHost this).
Proof.
  intros [Hc|[Hc Hh]].
  - by apply serve_cached.
  - cbn [TrpcPanelController.serve].
    unfold TrpcPanelController.panel_try. rewrite Hc.
    destruct appRouterHost as [[r|]]; [|discriminate Hh].
    injection Hh as ->. simpl.
    constructor; [reflexivity | by apply serve_cached].
Qed.

End PanelController.

Lemma panel_keeps_the_first_router_witness :
  Forall (fun page => page = str "panel of A")
    (TrpcPanelController.serve
       (fun router : bool => if router then str "panel of A"
                             else str "panel of B")
       [TrpcPanelController.Request;
        TrpcPanelController.Assign false;
        TrpcPanelController.Request]
       (AppRouterHost.mk (Some true)) TrpcPanelController.new).
Proof.
  apply (panel_keeps_the_first_router
           (fun router : bool => if router then str "panel of A"
                                 else str "panel of B")
           [TrpcPanelController.Assign false; TrpcPanelController.Request]
           (AppRouterHost.mk (Some true)) TrpcPanelController.new true).
  right. split; reflexivity.
Defined.

(** Before the host has a router the page says so, and the next request
    looks again. *)
Example panel_not_ready_example :
  TrpcPanelController.serve (fun router : bool => str "panel")
    [TrpcPanelController.Request; TrpcPanelController.Assign true;
     TrpcPanelController.Request]
    AppRouterHost.new TrpcPanelController.new
  = [TrpcPanelController.notReady; str "panel"].
Proof. reflexivity. Qed.

(** ** The test runner of lint-staged *)

Section LintStagedScript.
Import LintStaged.

Lemma exitCode_not_zero status : exitCode status <> 0.
Proof. destruct status as [[|n]|]; discriminate. Qed.

(** X24: the script skips the tests exactly when every file it is handed
    has the utils directory in its path.  Otherwise it runs jest once, on
    the files without that directory in their path, in the order they were
    handed over and separated by single spaces; and when that run fails,
    the exit code of the script is not zero. *)
Theorem lint_staged_runs_tests_of_other_files
    (execSync : jsstring -> option (option nat)) (files : list jsstring) :
  (main execSync files = Skipped <->
   Forall (fun file => includes file utilsDirectory = true) files) /\
  (main execSync files <> Skipped ->
   exists nonUtils,
     nonUtils <> [] /\
     nonUtils `sublist_of` files /\
     (forall file, file ∈ nonUtils <->
        file ∈ files /\ includes file utilsDirectory = false) /\
     match execSync (jestCommand nonUtils) with
     | None => main execSync files = Passed (jestCommand nonUtils)
     | Some status =>
         exists code, code <> 0 /\
           main execSync files = Exited (jestCommand nonUtils) code
     end).
Proof.
  unfold main.
  assert (Hmem : forall file, file ∈ nonUtilsFiles files <->
            file ∈ files /\ includes file utilsDirectory = false).
  { intros file. unfold nonUtilsFiles. rewrite list_elem_of_filter.
    rewrite negb_True, Is_true_false. tauto. }
  destruct (nonUtilsFiles files) as [|f kept] eqn:Hkept.
  - split; [|intros H; by destruct H].
    split; [|reflexivity]. intros _. apply Forall_forall. intros file Hfile.
    destruct (includes file utilsDirectory) eqn:E; [reflexivity|].
    assert (H : file ∈ @nil jsstring) by (by apply Hmem). by inversion H.
  - split.
    + split.
      * destruct (execSync _); discriminate.
      * intros Hall. rewrite Forall_forall in Hall.
        assert (Hf : f ∈ f :: kept) by (by left).
        apply Hmem in Hf as [Hf Hno]. rewrite (Hall f Hf) in Hno.
        discriminate.
    + intros _. exists (f :: kept). split; [discriminate|].
      split; [rewrite <- Hkept; apply sublist_filter|].
      split; [exact Hmem|].
      destruct (execSync (jestCommand (f :: kept))) as [status|];
        [|reflexivity].
      exists (exitCode status). split; [apply exitCode_not_zero | reflexivity].
Qed.

Example lint_staged_example :
  main (fun _ => Some None)
    [str "packages/nestjs-trpc/lib/utils/path-resolution.util.ts";
     str "packages/nestjs-trpc/lib/app-router.host.ts";
     str "README.md"]
  = Exited
      (str ("npx jest --no-watchman --bail --findRelatedTests "
            ++ "packages/nestjs-trpc/lib/app-router.host.ts README.md"))
      1.
Proof. reflexivity. Qed.

End LintStagedScript.

